(** * Open Commander: session orchestration, terminal proxy and client hooks

    A shallow embedding of
    - [apps/web/src/lib/docker/session.service.ts] (session service, current
      revision, and the git workspace service that follows it),
    - [apps/web/src/lib/docker/mounts.ts],
    - the terminal proxy ([connectToContainerWs] and the [/terminal/:sessionId]
      handler),
    - the client hooks [use-presence-websocket.ts] and
      [use-sessions-websocket.ts],
    together with the properties of the specification that concern them.

    Conventions.  A JavaScript string is the list of its UTF-16 code units.
    Asynchronous code is sequential between its awaits, so it is written in a
    small monad that threads the state of the outside world, may throw, and
    records every call that leaves the process.  Collaborators that are not
    part of the sources (the container driver, the entity store, the file
    system, Node's [path] module) are parameters. *)

From Stdlib Require Import String Ascii DecimalString.
From Stdlib Require Import List NArith ZArith Lia Bool Arith.
Import ListNotations.

Set Implicit Arguments.

(* ================================================================== *)
(** * JavaScript strings *)
(* ================================================================== *)

Module Js.

(** A string is a sequence of 16-bit code units. *)
Definition jsstring := list N.

(** String literals of the source, all of them ASCII. *)
Definition lit (s : string) : jsstring :=
  map N_of_ascii (list_ascii_of_string s).

Definition code_eqb (a b : N) : bool := N.eqb a b.

Fixpoint eqb (s t : jsstring) : bool :=
  match s, t with
  | [], [] => true
  | a :: s', b :: t' => code_eqb a b && eqb s' t'
  | _, _ => false
  end.

(** [s.startsWith(p)] *)
Fixpoint startsWith (s p : jsstring) {struct p} : bool :=
  match p, s with
  | [], _ => true
  | a :: p', b :: s' => code_eqb a b && startsWith s' p'
  | _ :: _, [] => false
  end.

(** [s.includes(x)] *)
Fixpoint includes (s x : jsstring) : bool :=
  startsWith s x ||
  match s with
  | [] => false
  | _ :: s' => includes s' x
  end.

(** WhiteSpace and LineTerminator code points of ECMAScript, the ones
    [String.prototype.trim] strips. *)
Definition isWhiteSpace (c : N) : bool :=
  ((9 <=? c) && (c <=? 13) || (c =? 32) || (c =? 160) || (c =? 5760)
   || (8192 <=? c) && (c <=? 8202) || (c =? 8232) || (c =? 8233)
   || (c =? 8239) || (c =? 8287) || (c =? 12288) || (c =? 65279))%N.

Fixpoint trimStart (s : jsstring) : jsstring :=
  match s with
  | [] => []
  | c :: s' => if isWhiteSpace c then trimStart s' else s
  end.

Definition trimEnd (s : jsstring) : jsstring := rev (trimStart (rev s)).

(** [s.trim()] *)
Definition trim (s : jsstring) : jsstring := trimEnd (trimStart s).

(** Truthiness of a string: only the empty string is falsy. *)
Definition truthy (s : jsstring) : bool :=
  match s with [] => false | _ :: _ => true end.

(** Truthiness of [string | null | undefined]. *)
Definition truthy_opt (s : option jsstring) : bool :=
  match s with Some t => truthy t | None => false end.

(** [xs.join(sep)] *)
Fixpoint join (sep : jsstring) (xs : list jsstring) : jsstring :=
  match xs with
  | [] => []
  | [x] => x
  | x :: rest => x ++ sep ++ join sep rest
  end.

(** [s.split(c)] for a one-unit separator [c]: [cur] holds the units of
    the piece being read, most recent first. *)
Fixpoint split_go (c : N) (cur : jsstring) (s : jsstring) : list jsstring :=
  match s with
  | [] => [rev cur]
  | a :: s' =>
      if code_eqb a c then rev cur :: split_go c [] s'
      else split_go c (a :: cur) s'
  end.

Definition split (s : jsstring) (c : N) : list jsstring := split_go c [] s.

End Js.

Import Js.

Declare Scope js_scope.
Delimit Scope js_scope with js.
Notation "'#' s" := (Js.lit s%string) (at level 1, format "'#' s") : js_scope.
Local Open Scope js_scope.

(* ================================================================== *)
(** * Thrown values and the effect monad *)
(* ================================================================== *)

Inductive TrpcCode := BAD_REQUEST | NOT_FOUND | INTERNAL_SERVER_ERROR.

(** What a [catch] clause can receive.  [JsError] is a value for which
    [instanceof Error] holds: it has a [message], a [stderr] property when
    the failed child process left one that is a string, and a tRPC code when
    it is a [TRPCError].  [JsValue] is any other thrown value, with its
    [String(...)] rendering and its string-typed [stderr] property if any. *)
Inductive Thrown :=
| JsError (message : jsstring) (stderr : option jsstring) (code : option TrpcCode)
| JsValue (rendering : jsstring) (stderr : option jsstring).

Definition TRPCError (code : TrpcCode) (message : jsstring) : Thrown :=
  JsError message None (Some code).

Definition newError (message : jsstring) : Thrown := JsError message None None.

(** The idiom
    [let stderr = ""; if (typeof error === "object" && error !== null &&
     "stderr" in error) { if (typeof maybe === "string") stderr = maybe; }] *)
Definition stderr_of (e : Thrown) : jsstring :=
  match e with
  | JsError _ (Some s) _ => s
  | JsValue _ (Some s) => s
  | _ => []
  end.

Definition instanceofError (e : Thrown) : bool :=
  match e with JsError _ _ _ => true | JsValue _ _ => false end.

Definition message_of (e : Thrown) : jsstring :=
  match e with JsError m _ _ => m | JsValue _ _ => [] end.

Definition code_of (e : Thrown) : option TrpcCode :=
  match e with JsError _ _ c => c | JsValue _ _ => None end.

Inductive Outcome (A : Type) :=
| Ok (a : A)
| Throw (e : Thrown).
Arguments Ok {A} a.
Arguments Throw {A} e.

Section Monad.
(** [W] is the state of everything outside the process, [E] the type of
    the calls that are recorded. *)
Context {W E : Type}.

(** A computation runs from a world and yields an outcome, the world it
    leaves and the calls it made, oldest first. *)
Definition M (A : Type) : Type := W -> Outcome A * W * list E.

Definition ret {A} (a : A) : M A := fun w => (Ok a, w, []).

Definition throw {A} (e : Thrown) : M A := fun w => (Throw e, w, []).

Definition bind {A B} (m : M A) (k : A -> M B) : M B :=
  fun w =>
    match m w with
    | (Ok a, w1, l1) =>
        match k a w1 with
        | (r, w2, l2) => (r, w2, l1 ++ l2)
        end
    | (Throw e, w1, l1) => (Throw e, w1, l1)
    end.

(** [try { m } catch (error) { h error }] *)
Definition try_catch {A} (m : M A) (h : Thrown -> M A) : M A :=
  fun w =>
    match m w with
    | (Ok a, w1, l1) => (Ok a, w1, l1)
    | (Throw e, w1, l1) =>
        match h e w1 with
        | (r, w2, l2) => (r, w2, l1 ++ l2)
        end
    end.

(** One awaited call to a collaborator: the call is recorded whether it
    returns or throws. *)
Definition perform {A} (c : E) (op : W -> Outcome A * W) : M A :=
  fun w => match op w with (r, w1) => (r, w1, [c]) end.

Definition outcome {A} (x : Outcome A * W * list E) : Outcome A := fst (fst x).
Definition world {A} (x : Outcome A * W * list E) : W := snd (fst x).
Definition calls {A} (x : Outcome A * W * list E) : list E := snd x.

End Monad.

Arguments M : clear implicits.

Notation "x <- m ;; k" := (bind m (fun x => k))
  (at level 61, m at next level, right associativity).
Notation "m ;;; k" := (bind m (fun _ => k))
  (at level 61, right associativity).

(** Counting the recorded calls that satisfy a test. *)
Definition count {E} (p : E -> bool) (l : list E) : nat := length (filter p l).

(* ================================================================== *)
(** * The session service ([session.service.ts]) and the mount planner
      ([mounts.ts]) *)
(* ================================================================== *)

Module SessionService.

(** The validated environment ([env] and [process.env]) the modules read. *)
Record Config := {
  TTYD_IMAGE : jsstring;
  TTYD_PORT : Z;
  TTYD_SCREEN_NAME : jsstring;
  TTYD_CMD_env : option jsstring;
  AGENT_WORKSPACE_env : option jsstring;
  TTYD_EGRESS_PROXY_HOST : jsstring;
  TTYD_EGRESS_PROXY_PORT : Z;
  TTYD_INTERNAL_NETWORK : jsstring;
  GITHUB_TOKEN : option jsstring;
  COMMANDER_BASE_PATH : jsstring;
  DIND_CERTS_VOLUME_env : option jsstring;
  DOCKER_HOST_env : option jsstring
}.

Inductive DockerMountMode := ReadOnly | ReadWrite.

Record DockerMount := {
  source : jsstring;
  target : jsstring;
  mode : option DockerMountMode
}.

Record DockerRunOptions := {
  name : jsstring;
  image : jsstring;
  network : jsstring;
  env : list (jsstring * jsstring);
  mounts : list DockerMount;
  extraHosts : list jsstring;
  args : list jsstring
}.

(** A row of [terminalSession], with the columns the service reads. *)
Record Session := {
  id : jsstring;
  userId : jsstring;
  status : jsstring;
  containerName : option jsstring;
  projectId : option jsstring
}.

Record Where := {
  where_id : jsstring;
  where_userId : jsstring;
  where_status_in : option (list jsstring)
}.

Record UpdateData := {
  data_containerName : jsstring;
  data_status : jsstring
}.

Record StartOptions := {
  reset : option bool;
  workspaceSuffix : option jsstring;
  gitBranch : option jsstring
}.

Record StartSessionResult := { started_containerName : option jsstring }.

Record StopSessionResult := {
  removed : bool;
  stopped_containerName : jsstring;
  error : option jsstring
}.

(** The calls that leave the process. *)
Inductive Call :=
| FindUnique (w : Where)
| Update (w : Where) (d : UpdateData)
| IsRunning (n : jsstring)
| Run (o : DockerRunOptions)
| Start (n : jsstring)
| Restart (n : jsstring)
| Remove (n : jsstring)
| SafeRemove (n : jsstring)
| EnsureNetwork (n : jsstring) (internal : bool)
| Pull (img : jsstring)
| Exec (n : jsstring) (argv : list jsstring)
| IngressCleanup (sessionId : jsstring)
| Stat (p : jsstring)
| Mkdir (p : jsstring)
| Access (p : jsstring)
| WriteFile (p : jsstring) (content : jsstring)
| Sleep (ms : N)
| NotifySessionChange (projectId : jsstring)
| Warn (text : jsstring) (e : Thrown).

Definition is_Run (c : Call) : bool :=
  match c with Run _ => true | _ => false end.
Definition is_Restart (c : Call) : bool :=
  match c with Restart _ => true | _ => false end.
Definition is_Pull (c : Call) : bool :=
  match c with Pull _ => true | _ => false end.
Definition is_EnsureNetwork (c : Call) : bool :=
  match c with EnsureNetwork _ _ => true | _ => false end.
Definition is_Sleep (c : Call) : bool :=
  match c with Sleep _ => true | _ => false end.

(** Pure functions of the platform: Node's [path] module, the rendering
    of a number in a template literal, and the two helpers of
    [@/lib/utils], which is not part of the sources: the shell quoting of
    one argument, and the container names derived from a session id, as
    the pair (agent container, ingress container). *)
Record Platform := {
  node_path_resolve : list jsstring -> jsstring;
  node_path_join : list jsstring -> jsstring;
  node_path_relative : jsstring -> jsstring -> jsstring;
  node_path_isAbsolute : jsstring -> bool;
  number_ToString : Z -> jsstring;
  utils_escapeShellArg : jsstring -> jsstring;
  utils_sessionContainerNames : jsstring -> jsstring * jsstring
}.

Section Service.

(** The world outside the process and the collaborators that act on it:
    the entity store, the container driver ([docker.service.ts]), the
    ingress service, the file system and the timer.  Each call returns
    or throws, and moves the world. *)
Context {W : Type}.

Record Env := {
  db_terminalSession_findUnique : Where -> W -> Outcome (option Session) * W;
  db_terminalSession_update : Where -> UpdateData -> W -> Outcome Session * W;
  dockerService_isRunning : jsstring -> W -> Outcome (option bool) * W;
  dockerService_run : DockerRunOptions -> W -> Outcome unit * W;
  dockerService_start : jsstring -> W -> Outcome unit * W;
  dockerService_restart : jsstring -> W -> Outcome unit * W;
  dockerService_remove : jsstring -> W -> Outcome unit * W;
  dockerService_safeRemove : jsstring -> W -> Outcome unit * W;
  dockerService_ensureNetwork : jsstring -> bool -> W -> Outcome unit * W;
  dockerService_pull : jsstring -> W -> Outcome unit * W;
  dockerService_exec : jsstring -> list jsstring -> W -> Outcome unit * W;
  ingressService_cleanup : jsstring -> W -> Outcome unit * W;
  (** [fs.stat(p)] followed by [stats.isDirectory()] *)
  fs_stat_isDirectory : jsstring -> W -> Outcome bool * W;
  fs_mkdir_recursive : jsstring -> W -> Outcome unit * W;
  fs_access : jsstring -> W -> Outcome unit * W;
  fs_writeFile : jsstring -> jsstring -> W -> Outcome unit * W;
  (** the world after a timer of the given number of milliseconds *)
  timer : N -> W -> W;
  (** [emitter.emit("sessions:" + projectId)] runs the subscribers *)
  emit_sessions : jsstring -> W -> Outcome unit * W
}.

Variable cfg : Config.
Variable E : Env.
Variable P : Platform.

Local Abbreviation M := (M W Call).
Local Abbreviation path_resolve := (node_path_resolve P).
Local Abbreviation path_join := (node_path_join P).
Local Abbreviation path_relative := (node_path_relative P).
Local Abbreviation path_isAbsolute := (node_path_isAbsolute P).
Local Abbreviation ToString := (number_ToString P).
Local Abbreviation escapeShellArg := (utils_escapeShellArg P).
Local Abbreviation sessionContainerNames := (utils_sessionContainerNames P).

(** ** Module constants *)

Definition IMAGE : jsstring := TTYD_IMAGE cfg.
Definition PORT : Z := TTYD_PORT cfg.
Definition SCREEN_NAME : jsstring := TTYD_SCREEN_NAME cfg.

Definition DEFAULT_TTYD_CMD : list jsstring :=
  [#"tmux"; #"new-session"; #"-A"; #"-s"; SCREEN_NAME; #"zsh"].

Definition BASE_TTYD_CMD : list jsstring :=
  match TTYD_CMD_env cfg with
  | Some c => if truthy c then split c 32 else DEFAULT_TTYD_CMD
  | None => DEFAULT_TTYD_CMD
  end.

Definition TTYD_CMD : list jsstring :=
  [#"/bin/sh"; #"-c";
   #"ln -sfn /home/commander/.commander /home/commander/.agents && exec "
     ++ join #" " (map escapeShellArg BASE_TTYD_CMD)].

Definition AGENT_WORKSPACE : option jsstring :=
  match AGENT_WORKSPACE_env cfg with
  | Some p => if truthy p then Some (path_resolve [p]) else None
  | None => None
  end.

Definition EGRESS_PROXY_HOST : jsstring := TTYD_EGRESS_PROXY_HOST cfg.
Definition EGRESS_PROXY_PORT : Z := TTYD_EGRESS_PROXY_PORT cfg.
Definition DIND_HOST : jsstring := #"docker".
Definition DIND_PORT : Z := 2376.

Definition EXTRA_HOSTS : list jsstring :=
  if startsWith
       (match DOCKER_HOST_env cfg with Some h => h | None => [] end)
       #"unix://"
  then [#"docker:host-gateway"] else [].

Definition DIND_CERTS_VOLUME : jsstring :=
  match DIND_CERTS_VOLUME_env cfg with
  | Some v => v
  | None => #"open-commander_open-commander-dind-certs"
  end.

Definition MAX_LAYER_RETRIES : nat := 5.

(** ** Awaited calls *)

Definition findUnique (q : Where) : M (option Session) :=
  perform (FindUnique q) (db_terminalSession_findUnique E q).
Definition update (q : Where) (d : UpdateData) : M Session :=
  perform (Update q d) (db_terminalSession_update E q d).
Definition isRunning (n : jsstring) : M (option bool) :=
  perform (IsRunning n) (dockerService_isRunning E n).
Definition run (o : DockerRunOptions) : M unit :=
  perform (Run o) (dockerService_run E o).
Definition start_container (n : jsstring) : M unit :=
  perform (Start n) (dockerService_start E n).
Definition restart (n : jsstring) : M unit :=
  perform (Restart n) (dockerService_restart E n).
Definition remove (n : jsstring) : M unit :=
  perform (Remove n) (dockerService_remove E n).
Definition safeRemove (n : jsstring) : M unit :=
  perform (SafeRemove n) (dockerService_safeRemove E n).
Definition ensureNetwork (n : jsstring) (internal : bool) : M unit :=
  perform (EnsureNetwork n internal) (dockerService_ensureNetwork E n internal).
Definition pull (img : jsstring) : M unit :=
  perform (Pull img) (dockerService_pull E img).
Definition exec (n : jsstring) (argv : list jsstring) : M unit :=
  perform (Exec n argv) (dockerService_exec E n argv).
Definition cleanup (sessionId : jsstring) : M unit :=
  perform (IngressCleanup sessionId) (ingressService_cleanup E sessionId).
Definition stat_isDirectory (p : jsstring) : M bool :=
  perform (Stat p) (fs_stat_isDirectory E p).
Definition mkdir (p : jsstring) : M unit :=
  perform (Mkdir p) (fs_mkdir_recursive E p).
Definition access (p : jsstring) : M unit :=
  perform (Access p) (fs_access E p).
Definition writeFile (p content : jsstring) : M unit :=
  perform (WriteFile p content) (fs_writeFile E p content).
Definition sleep (ms : N) : M unit :=
  perform (Sleep ms) (fun w => (Ok tt, timer E ms w)).
Definition notifySessionChange (projectId : jsstring) : M unit :=
  perform (NotifySessionChange projectId) (emit_sessions E projectId).
Definition console_warn (text : jsstring) (e : Thrown) : M unit :=
  perform (Warn text e) (fun w => (Ok tt, w)).

(** ** [mounts.ts] *)

Definition ensureClaudeState (basePath userId : jsstring)
  : M (jsstring * jsstring) :=
  let claudeBase := path_resolve [basePath; userId; #"claude"] in
  let claudeJson := path_join [claudeBase; #".claude.json"] in
  let claudeDir := path_join [claudeBase; #".claude"] in
  mkdir claudeDir ;;;
  try_catch (access claudeJson)
            (fun _ => writeFile claudeJson (#"{}" ++ [10%N])) ;;;
  ret (claudeJson, claudeDir).

Definition ensureAgentsConfig (basePath : jsstring) : M jsstring :=
  mkdir basePath ;;;
  ret basePath.

Definition buildAgentMounts (userId : jsstring) : M (list DockerMount) :=
  let statePath := COMMANDER_BASE_PATH cfg ++ #"/.state" in
  cs <- ensureClaudeState statePath userId ;;
  let '(claudeJson, claudeDir) := cs in
  agentsConfig <- ensureAgentsConfig (COMMANDER_BASE_PATH cfg ++ #"/agents") ;;
  ret [ {| source := claudeJson; target := #"/home/commander/.claude.json";
           mode := None |};
        {| source := claudeDir; target := #"/home/commander/.claude";
           mode := None |};
        {| source := statePath ++ #"/" ++ userId ++ #"/codex";
           target := #"/home/commander/.codex"; mode := None |};
        {| source := statePath ++ #"/" ++ userId ++ #"/cursor";
           target := #"/home/commander/.cursor"; mode := None |};
        {| source := agentsConfig; target := #"/home/commander/.commander";
           mode := None |};
        {| source := DIND_CERTS_VOLUME; target := #"/certs";
           mode := Some ReadOnly |} ].

(** ** [resolveWorkspaceMount] *)

Definition invalid_selection : Thrown :=
  TRPCError BAD_REQUEST #"Invalid workspace selection.".
Definition folder_not_found : Thrown :=
  TRPCError BAD_REQUEST #"Workspace folder not found.".

Definition resolveWorkspaceMount (workspaceSuffix : option jsstring)
  : M (option jsstring) :=
  match AGENT_WORKSPACE with
  | None => ret None
  | Some root =>
      if negb (truthy root) then ret None else
      let trimmed :=
        trim (match workspaceSuffix with Some s => s | None => [] end) in
      if negb (truthy trimmed) then ret (Some root) else
      if includes trimmed #".." || includes trimmed #"/"
         || includes trimmed #"\"
      then throw invalid_selection else
      let candidate := path_resolve [root; trimmed] in
      let relative := path_relative root candidate in
      if startsWith relative #".." || path_isAbsolute relative
      then throw invalid_selection else
      try_catch
        (isDir <- stat_isDirectory candidate ;;
         if negb isDir then throw (newError #"Not a directory")
         else ret tt)
        (fun _ => throw folder_not_found) ;;;
      ret (Some candidate)
  end.

(** ** [sessionService.start] *)

Definition containerEnv : list (jsstring * jsstring) :=
  let proxy :=
    #"http://" ++ EGRESS_PROXY_HOST ++ #":" ++ ToString EGRESS_PROXY_PORT in
  let no_proxy :=
    #"localhost,127.0.0.1,::1," ++ EGRESS_PROXY_HOST ++ #"," ++ DIND_HOST in
  [ (#"COMMANDER_ENV_NODE_VERSION", #"20");
    (#"POWERLEVEL9K_DISABLE_GITSTATUS", #"true");
    (#"TERM", #"xterm-256color");
    (#"COLORTERM", #"truecolor");
    (#"DOCKER_HOST", #"tcp://" ++ DIND_HOST ++ #":" ++ ToString DIND_PORT);
    (#"DOCKER_TLS_VERIFY", #"1");
    (#"DOCKER_CERT_PATH", #"/certs/client");
    (#"HTTP_PROXY", proxy);
    (#"HTTPS_PROXY", proxy);
    (#"NO_PROXY", no_proxy);
    (#"http_proxy", proxy);
    (#"https_proxy", proxy);
    (#"no_proxy", no_proxy) ]
  ++ (if truthy_opt (GITHUB_TOKEN cfg)
      then match GITHUB_TOKEN cfg with
           | Some t => [ (#"GITHUB_TOKEN", t); (#"GH_TOKEN", t) ]
           | None => []
           end
      else []).

Definition containerArgs : list jsstring :=
  [#"ttyd"; #"-W"; #"-p"; ToString PORT; #"-i"; #"0.0.0.0"] ++ TTYD_CMD.

Definition runOptions (agentContainer : jsstring)
           (mounts : list DockerMount) : DockerRunOptions :=
  {| name := agentContainer;
     image := IMAGE;
     network := TTYD_INTERNAL_NETWORK cfg;
     env := containerEnv;
     mounts := mounts;
     extraHosts := EXTRA_HOSTS;
     args := containerArgs |}.

(** One turn of the create loop: the [try]/[catch] around [run].  The
    result is the value of [launched] after the turn. *)
Definition createAttempt (agentContainer : jsstring)
           (o : DockerRunOptions) (attempt : nat) : M bool :=
  try_catch
    (run o ;;; ret true)
    (fun error =>
       let stderr := stderr_of error in
       let detail :=
         stderr ++ (if instanceofError error then message_of error else [])
       in
       if includes stderr #"already in use" || includes stderr #"Conflict"
       then
         try_catch
           (start_container agentContainer)
           (fun _ =>
              safeRemove agentContainer ;;;
              ensureNetwork (TTYD_INTERNAL_NETWORK cfg) true ;;;
              run o) ;;;
         ret true
       else if includes detail #"locked" && (attempt <? MAX_LAYER_RETRIES)
       then sleep 5000 ;;; ret false
       else throw error).

(** [for (let attempt = 0; attempt <= MAX_LAYER_RETRIES && !launched;
         attempt++) { ... }].  [turns] bounds the number of turns; the
    loop is entered with [S MAX_LAYER_RETRIES] of them, which the loop
    test never lets it exceed (see [createLoop_turns]). *)
Fixpoint createLoop (agentContainer : jsstring) (o : DockerRunOptions)
         (turns attempt : nat) (launched : bool) : M unit :=
  match turns with
  | 0 => ret tt
  | S turns' =>
      if (attempt <=? MAX_LAYER_RETRIES) && negb launched then
        launched' <- createAttempt agentContainer o attempt ;;
        createLoop agentContainer o turns' (S attempt) launched'
      else ret tt
  end.

(** The branch taken when the container does not exist. *)
Definition createContainer (userId agentContainer : jsstring)
           (options : option StartOptions) : M unit :=
  workspaceMount <-
    resolveWorkspaceMount
      (match options with Some o => workspaceSuffix o | None => None end) ;;
  agentMounts <- buildAgentMounts userId ;;
  let mounts :=
    agentMounts ++
    (if truthy_opt workspaceMount
     then match workspaceMount with
          | Some m => [ {| source := m; target := #"/workspace";
                           mode := None |} ]
          | None => []
          end
     else []) in
  ensureNetwork (TTYD_INTERNAL_NETWORK cfg) true ;;;
  pull IMAGE ;;;
  createLoop agentContainer (runOptions agentContainer mounts)
             (S MAX_LAYER_RETRIES) 0 false.

Definition checkout_warning (branch : jsstring) : jsstring :=
  #"[session] git checkout " ++ [34%N] ++ branch ++ [34%N] ++ #" failed:".

(** [start] from the second lookup on. *)
Definition start_session (userId sessionId : jsstring)
           (options : option StartOptions) (reset : bool)
  : M StartSessionResult :=
  session <- findUnique {| where_id := sessionId; where_userId := userId;
                           where_status_in := None |} ;;
  match session with
  | None => throw (TRPCError NOT_FOUND #"Session not found.")
  | Some s =>
      if Js.eqb (status s) #"stopped"
      then throw (TRPCError NOT_FOUND #"Session not found.")
      else
        let agentContainer := fst (sessionContainerNames sessionId) in
        running <- isRunning agentContainer ;;
        match running with
        | None => createContainer userId agentContainer options
        | Some r =>
            if reset then restart agentContainer
            else if negb r then start_container agentContainer
            else ret tt
        end ;;;
        sessionRunning <- isRunning agentContainer ;;
        match sessionRunning with
        | Some true =>
            let gitBranch :=
              match options with Some o => gitBranch o | None => None end in
            match gitBranch with
            | Some branch =>
                if truthy branch then
                  try_catch
                    (exec agentContainer
                          [#"git"; #"-C"; #"/workspace"; #"checkout"; branch])
                    (fun error =>
                       console_warn (checkout_warning branch) error)
                else ret tt
            | None => ret tt
            end ;;;
            updated <- update {| where_id := sessionId;
                                 where_userId := userId;
                                 where_status_in := None |}
                              {| data_containerName := agentContainer;
                                 data_status := #"running" |} ;;
            match projectId updated with
            | Some pid =>
                if truthy pid then notifySessionChange pid else ret tt
            | None => ret tt
            end ;;;
            ret {| started_containerName := Some agentContainer |}
        | _ =>
            throw (TRPCError INTERNAL_SERVER_ERROR
                             #"Session container is not running.")
        end
  end.

Definition start (userId sessionId : jsstring)
           (options : option StartOptions) : M StartSessionResult :=
  let reset :=
    match options with
    | Some o => match reset o with Some b => b | None => false end
    | None => false
    end in
  if negb reset then
    existingSession <-
      findUnique {| where_id := sessionId; where_userId := userId;
                    where_status_in := Some [#"starting"; #"running"] |} ;;
    match existingSession with
    | Some s => ret {| started_containerName := containerName s |}
    | None => start_session userId sessionId options reset
    end
  else start_session userId sessionId options reset.

(** ** [sessionService.stop] *)

Definition stop (sessionId : jsstring) : M StopSessionResult :=
  let '(agentContainer, ingressContainer) :=
    sessionContainerNames sessionId in
  safeRemove ingressContainer ;;;
  try_catch (cleanup sessionId) (fun _ => ret tt) ;;;
  try_catch
    (remove agentContainer ;;;
     stillRunning <- isRunning agentContainer ;;
     match stillRunning with
     | Some _ =>
         ret {| removed := false;
                stopped_containerName := agentContainer;
                error :=
                  Some #"Container still exists after removal attempt." |}
     | None =>
         ret {| removed := true;
                stopped_containerName := agentContainer;
                error := None |}
     end)
    (fun error =>
       let stderr := stderr_of error in
       if includes stderr #"No such container" then
         ret {| removed := false;
                stopped_containerName := agentContainer;
                error := None |}
       else
         let message :=
           if instanceofError error then message_of error
           else #"Unexpected error." in
         ret {| removed := false;
                stopped_containerName := agentContainer;
                error := Some message |}).

End Service.

(** ** Vocabulary of the properties *)

(** How the create loop classifies what [run] throws. *)
Definition nameConflict (e : Thrown) : bool :=
  includes (stderr_of e) #"already in use" || includes (stderr_of e) #"Conflict".

Definition layerLocked (e : Thrown) : bool :=
  includes (stderr_of e ++ (if instanceofError e then message_of e else []))
           #"locked".

(** [k] turns that each ran into a layer lock and slept. *)
Definition retries (o : DockerRunOptions) (k : nat) : list Call :=
  concat (repeat [Run o; Sleep 5000] k).

(** The calls of a turn after which the loop is left. *)
Definition last_turn (n net : jsstring) (o : DockerRunOptions)
           (l : list Call) : Prop :=
  l = [Run o]
  \/ l = [Run o; Start n]
  \/ l = [Run o; Start n; SafeRemove n]
  \/ l = [Run o; Start n; SafeRemove n; EnsureNetwork net true]
  \/ l = [Run o; Start n; SafeRemove n; EnsureNetwork net true; Run o].

(** No call that creates, restarts or prepares a container. *)
Definition quiet (l : list Call) : Prop :=
  count is_Run l = 0 /\ count is_Restart l = 0 /\ count is_Pull l = 0
  /\ count is_EnsureNetwork l = 0 /\ count is_Sleep l = 0.

(** What [start] does with the container once the first probe has
    answered [running]. *)
Definition container_action {W} (cfg : Config) (E : @Env W) (P : Platform)
           (userId agentContainer : jsstring) (options : option StartOptions)
           (reset : bool) (running : option bool) : M W Call unit :=
  match running with
  | None => createContainer cfg E P userId agentContainer options
  | Some r =>
      if reset then restart E agentContainer
      else if negb r then start_container E agentContainer
      else ret tt
  end.

(** The mount of the workspace, when there is one. *)
Definition workspace_mount (workspaceMount : option jsstring)
  : list DockerMount :=
  if truthy_opt workspaceMount
  then match workspaceMount with
       | Some m => [ {| source := m; target := #"/workspace"; mode := None |} ]
       | None => []
       end
  else [].

(** The calls [l1] made before a [run] with options [o] include the
    building of the mounts, [ensureNetwork] and [pull], and [o] carries
    the environment that was built and the mounts: those of the agent,
    then the workspace that [resolveWorkspaceMount] returned. *)
Definition prepared {W} (cfg : Config) (E : @Env W) (P : Platform)
           (userId : jsstring) (options : option StartOptions)
           (l1 : list Call) (o : DockerRunOptions) : Prop :=
  (exists w0 workspaceMount w1 lws agentMounts w2 lm,
      resolveWorkspaceMount cfg E P
        (match options with Some o => workspaceSuffix o | None => None end)
        w0 = (Ok workspaceMount, w1, lws)
      /\ buildAgentMounts cfg E P userId w1 = (Ok agentMounts, w2, lm)
      /\ incl (lws ++ lm) l1
      /\ mounts o = agentMounts ++ workspace_mount workspaceMount)
  /\ env o = containerEnv cfg P
  /\ In (EnsureNetwork (TTYD_INTERNAL_NETWORK cfg) true) l1
  /\ In (Pull (TTYD_IMAGE cfg)) l1.

(** The cold start of a session: the session is there and neither
    starting nor running, its container does not exist, and the
    preparation and the first [run] go through. *)
Definition cold_start {W} (cfg : Config) (E : @Env W) (P : Platform)
           (userId sessionId : jsstring) (options : option StartOptions)
           (w : W) : Prop :=
  let n := fst (utils_sessionContainerNames P sessionId) in
  match options with
  | Some o => match reset o with Some b => b | None => false end
  | None => false
  end = false
  /\ exists s w1 w2 w3 wm w4 lws ms w5 lm w6 w7 w8,
      db_terminalSession_findUnique E
        {| where_id := sessionId; where_userId := userId;
           where_status_in := Some [#"starting"; #"running"] |} w
      = (Ok None, w1)
      /\ db_terminalSession_findUnique E
           {| where_id := sessionId; where_userId := userId;
              where_status_in := None |} w1
         = (Ok (Some s), w2)
      /\ Js.eqb (status s) #"stopped" = false
      /\ dockerService_isRunning E n w2 = (Ok None, w3)
      /\ resolveWorkspaceMount cfg E P
           (match options with Some o => workspaceSuffix o | None => None end)
           w3 = (Ok wm, w4, lws)
      /\ buildAgentMounts cfg E P userId w4 = (Ok ms, w5, lm)
      /\ dockerService_ensureNetwork E (TTYD_INTERNAL_NETWORK cfg) true w5
         = (Ok tt, w6)
      /\ dockerService_pull E (TTYD_IMAGE cfg) w6 = (Ok tt, w7)
      /\ dockerService_run E
           (runOptions cfg P n (ms ++ workspace_mount wm)) w7
         = (Ok tt, w8).

(** The [reset] flag [start] works with: [options?.reset ?? false]. *)
Definition reset_of (options : option StartOptions) : bool :=
  match options with
  | Some o => match reset o with Some b => b | None => false end
  | None => false
  end.

(** ** A scripted world

    The world counts the calls to [run] and to [isRunning]; what they
    answer is read off a script, and every other collaborator gives the
    answer the script fixes for it. *)

Record Counters := { runs : nat; probes : nat }.

Record Script := {
  on_findUnique : Where -> option Session;
  on_isRunning : nat -> option bool;
  on_run : nat -> Outcome unit;
  on_start : Outcome unit;
  on_safeRemove : Outcome unit;
  on_remove : Outcome unit;
  on_cleanup : Outcome unit;
  on_stat : Outcome bool
}.

Definition scripted (s : Script) : @Env Counters :=
  {| db_terminalSession_findUnique := fun q w => (Ok (on_findUnique s q), w);
     db_terminalSession_update := fun q d w =>
       (Ok {| id := where_id q; userId := where_userId q;
              status := data_status d;
              containerName := Some (data_containerName d);
              projectId := Some #"p1" |}, w);
     dockerService_isRunning := fun _ w =>
       (Ok (on_isRunning s (probes w)),
        {| runs := runs w; probes := S (probes w) |});
     dockerService_run := fun _ w =>
       (on_run s (runs w), {| runs := S (runs w); probes := probes w |});
     dockerService_start := fun _ w => (on_start s, w);
     dockerService_restart := fun _ w => (Ok tt, w);
     dockerService_remove := fun _ w => (on_remove s, w);
     dockerService_safeRemove := fun _ w => (on_safeRemove s, w);
     dockerService_ensureNetwork := fun _ _ w => (Ok tt, w);
     dockerService_pull := fun _ w => (Ok tt, w);
     dockerService_exec := fun _ _ w => (Ok tt, w);
     ingressService_cleanup := fun _ w => (on_cleanup s, w);
     fs_stat_isDirectory := fun _ w => (on_stat s, w);
     fs_mkdir_recursive := fun _ w => (Ok tt, w);
     fs_access := fun _ w => (Ok tt, w);
     fs_writeFile := fun _ _ w => (Ok tt, w);
     timer := fun _ w => w;
     emit_sessions := fun _ w => (Ok tt, w) |}.

Definition fresh : Counters := {| runs := 0; probes := 0 |}.

(** A POSIX-like platform, enough for paths without [.] and [..]. *)
Definition posix : Platform :=
  {| node_path_resolve := fun parts => join #"/" parts;
     node_path_join := fun parts => join #"/" parts;
     node_path_relative := fun from to => skipn (S (length from)) to;
     node_path_isAbsolute := fun p => startsWith p #"/";
     number_ToString := fun z => lit (NilZero.string_of_int (Z.to_int z));
     utils_escapeShellArg := fun a => #"'" ++ a ++ #"'";
     utils_sessionContainerNames := fun sessionId =>
       (#"oc-sess-" ++ sessionId, #"oc-ingress-" ++ sessionId) |}.

Definition config (workspace token : option jsstring) : Config :=
  {| TTYD_IMAGE := #"opencommander/core";
     TTYD_PORT := 7681;
     TTYD_SCREEN_NAME := #"main";
     TTYD_CMD_env := None;
     AGENT_WORKSPACE_env := workspace;
     TTYD_EGRESS_PROXY_HOST := #"egress";
     TTYD_EGRESS_PROXY_PORT := 3128;
     TTYD_INTERNAL_NETWORK := #"oc-internal";
     GITHUB_TOKEN := token;
     COMMANDER_BASE_PATH := #"/srv/commander";
     DIND_CERTS_VOLUME_env := None;
     DOCKER_HOST_env := None |}.

(** The session [s1] of user [u1], with the given status. *)
Definition session_s1 (st : jsstring) (q : Where) : option Session :=
  let row := {| id := #"s1"; userId := #"u1"; status := st;
                containerName := None; projectId := Some #"p1" |} in
  if Js.eqb (where_id q) #"s1" && Js.eqb (where_userId q) #"u1" then
    match where_status_in q with
    | None => Some row
    | Some allowed => if existsb (Js.eqb st) allowed then Some row else None
    end
  else None.

(** ** Scripts *)

Definition layer_locked_error : Thrown :=
  JsError #"Command failed: docker run"
          (Some #"docker: failed to register layer: layer is locked") None.

Definition name_conflict_error : Thrown :=
  JsError #"Command failed: docker run"
          (Some #"docker: Error response from daemon: Conflict. The container name is already in use.")
          None.

Definition daemon_error : Thrown :=
  JsError #"Command failed: docker rm"
          (Some #"Cannot connect to the Docker daemon") None.

Definition missing_then_running (i : nat) : option bool :=
  match i with 0 => None | S _ => Some true end.

(** A pending session without container; everything goes through. *)
Definition cold : Script :=
  {| on_findUnique := session_s1 #"pending";
     on_isRunning := missing_then_running;
     on_run := fun _ => Ok tt;
     on_start := Ok tt;
     on_safeRemove := Ok tt;
     on_remove := Ok tt;
     on_cleanup := Ok tt;
     on_stat := Ok true |}.

(** A pending session without container; every [run] meets a layer
    lock. *)
Definition always_locked : Script :=
  {| on_findUnique := session_s1 #"pending";
     on_isRunning := missing_then_running;
     on_run := fun _ => Throw layer_locked_error;
     on_start := Ok tt;
     on_safeRemove := Ok tt;
     on_remove := Ok tt;
     on_cleanup := Ok tt;
     on_stat := Ok true |}.

(** A session recorded as running whose container is gone; the first
    [run] meets a layer lock, the second goes through. *)
Definition locked_once : Script :=
  {| on_findUnique := session_s1 #"running";
     on_isRunning := missing_then_running;
     on_run := fun i => match i with
                        | 0 => Throw layer_locked_error
                        | S _ => Ok tt
                        end;
     on_start := Ok tt;
     on_safeRemove := Ok tt;
     on_remove := Ok tt;
     on_cleanup := Ok tt;
     on_stat := Ok true |}.

(** The container daemon cannot be reached when the ingress helper is
    to be removed. *)
Definition daemon_down : Script :=
  {| on_findUnique := session_s1 #"running";
     on_isRunning := fun _ => Some true;
     on_run := fun _ => Ok tt;
     on_start := Ok tt;
     on_safeRemove := Throw daemon_error;
     on_remove := Throw daemon_error;
     on_cleanup := Ok tt;
     on_stat := Ok true |}.

Definition enoent : Thrown :=
  JsError #"ENOENT: no such file or directory" None None.

(** Nothing exists on the disk. *)
Definition empty_disk : Script :=
  {| on_findUnique := session_s1 #"pending";
     on_isRunning := missing_then_running;
     on_run := fun _ => Ok tt;
     on_start := Ok tt;
     on_safeRemove := Ok tt;
     on_remove := Ok tt;
     on_cleanup := Ok tt;
     on_stat := Throw enoent |}.

Definition s1_options : DockerRunOptions :=
  runOptions (config None None) posix #"oc-sess-s1" [].

Definition with_reset : option StartOptions :=
  Some {| reset := Some true; workspaceSuffix := None; gitBranch := None |}.

(** ** Vocabulary of further properties *)

Definition is_FindUnique (c : Call) : bool :=
  match c with FindUnique _ => true | _ => false end.
Definition is_Update (c : Call) : bool :=
  match c with Update _ _ => true | _ => false end.
Definition is_NotifySessionChange (c : Call) : bool :=
  match c with NotifySessionChange _ => true | _ => false end.
Definition is_Remove (c : Call) : bool :=
  match c with Remove _ => true | _ => false end.
Definition is_IngressCleanup (c : Call) : bool :=
  match c with IngressCleanup _ => true | _ => false end.
Definition is_WriteFile (c : Call) : bool :=
  match c with WriteFile _ _ => true | _ => false end.

(** The two lookups of [start]. *)
Definition active_row (sessionId userId : jsstring) : Where :=
  {| where_id := sessionId; where_userId := userId;
     where_status_in := Some [#"starting"; #"running"] |}.

Definition any_row (sessionId userId : jsstring) : Where :=
  {| where_id := sessionId; where_userId := userId;
     where_status_in := None |}.

(** What [start] writes to the row of the session. *)
Definition running_row (agentContainer : jsstring) : UpdateData :=
  {| data_containerName := agentContainer; data_status := #"running" |}.

Definition gitBranch_of (options : option StartOptions) : option jsstring :=
  match options with Some o => gitBranch o | None => None end.

(** [git -C /workspace checkout <branch>] *)
Definition checkout_argv (branch : jsstring) : list jsstring :=
  [#"git"; #"-C"; #"/workspace"; #"checkout"; branch].

(** The calls of the checkout step: none without a branch, else the
    [exec], followed by a warning when it threw. *)
Definition checkout_calls (n : jsstring) (options : option StartOptions)
           (l : list Call) : Prop :=
  l = []
  \/ exists branch,
      gitBranch_of options = Some branch /\ truthy branch = true
      /\ (l = [Exec n (checkout_argv branch)]
          \/ exists e, l = [Exec n (checkout_argv branch);
                            Warn (checkout_warning branch) e]).

(** The notification that follows the update, when the row belongs to a
    project. *)
Definition notify_calls (l : list Call) : Prop :=
  l = [] \/ exists pid, l = [NotifySessionChange pid].

(** The calls that the container action of [start] may make for the
    agent container [n]: it creates, starts and force-removes no other
    container than [n], restarts it only on a reset, prepares only the
    internal network and the configured image, sleeps 5 s at a time, and
    touches the disk only to read and to create. *)
Definition action_may_call (cfg : Config) (reset : bool) (n : jsstring)
           (c : Call) : bool :=
  match c with
  | Run o => Js.eqb (name o) n
  | Start m | SafeRemove m => Js.eqb m n
  | Restart m => reset && Js.eqb m n
  | EnsureNetwork m internal =>
      Js.eqb m (TTYD_INTERNAL_NETWORK cfg) && internal
  | Pull img => Js.eqb img (TTYD_IMAGE cfg)
  | Sleep ms => N.eqb ms 5000
  | Stat _ | Mkdir _ | Access _ | WriteFile _ _ => true
  | _ => false
  end.

(** The calls that [start] may make for the session [sessionId] of
    [userId]: those of the container action, lookups and updates of the
    row of that session, probes of and commands in its container, the
    notification and the warning. *)
Definition start_may_call (cfg : Config) (reset : bool)
           (n sessionId userId : jsstring) (c : Call) : bool :=
  action_may_call cfg reset n c ||
  match c with
  | FindUnique q | Update q _ =>
      Js.eqb (where_id q) sessionId && Js.eqb (where_userId q) userId
  | IsRunning m | Exec m _ => Js.eqb m n
  | NotifySessionChange _ | Warn _ _ => true
  | _ => false
  end.

(** The calls [start] may make up to and including its container
    action. *)
Definition head_may_call (cfg : Config) (reset : bool) (n : jsstring)
           (c : Call) : bool :=
  match c with
  | FindUnique _ | IsRunning _ => true
  | _ => action_may_call cfg reset n c
  end.

Definition is_Exec (c : Call) : bool :=
  match c with Exec _ _ => true | _ => false end.
Definition is_SafeRemove (c : Call) : bool :=
  match c with SafeRemove _ => true | _ => false end.

(** The calls to the file system. *)
Definition is_fs (c : Call) : bool :=
  match c with
  | Stat _ | Mkdir _ | Access _ | WriteFile _ _ => true
  | _ => false
  end.

(** The calls of [start] before the create loop: lookups, the probe,
    the file system, the network and the image. *)
Definition is_preparation (c : Call) : bool :=
  match c with
  | FindUnique _ | IsRunning _ | EnsureNetwork _ _ | Pull _ => true
  | _ => is_fs c
  end.

(** Where the agent mounts go in the container, and which of them are
    read-only. *)
Definition AGENT_MOUNT_TARGETS : list (jsstring * option DockerMountMode) :=
  [ (#"/home/commander/.claude.json", None);
    (#"/home/commander/.claude", None);
    (#"/home/commander/.codex", None);
    (#"/home/commander/.cursor", None);
    (#"/home/commander/.commander", None);
    (#"/certs", Some ReadOnly) ].

Definition mount_point (m : DockerMount) : jsstring * option DockerMountMode :=
  (target m, mode m).

Definition not_running_error : Thrown :=
  TRPCError INTERNAL_SERVER_ERROR #"Session container is not running.".

(** The calls [lt] of [start] after the container action, and how it
    ends: the second probe, which throws or reports something else than
    a running container; or the probe that reports it running, the
    checkout step, the update of the row and the notification. *)
Definition tail_calls {W} (E : @Env W) (n sessionId userId : jsstring)
           (options : option StartOptions) (lt : list Call)
           (r : Outcome StartSessionResult) : Prop :=
  (lt = [IsRunning n]
   /\ exists e,
       r = Throw e
       /\ ((exists w w', dockerService_isRunning E n w = (Throw e, w'))
           \/ (e = not_running_error
               /\ exists w w' p,
                   dockerService_isRunning E n w = (Ok p, w')
                   /\ p <> Some true)))
  \/ exists co no,
      checkout_calls n options co /\ notify_calls no
      /\ lt = [IsRunning n] ++ co
              ++ [Update (any_row sessionId userId) (running_row n)] ++ no
      /\ (exists w w', dockerService_isRunning E n w = (Ok (Some true), w'))
      /\ (r = Ok {| started_containerName := Some n |} \/ exists e, r = Throw e).

(** A pending session whose container exists but is never reported as
    running. *)
Definition never_running : Script :=
  {| on_findUnique := session_s1 #"pending";
     on_isRunning := fun _ => Some false;
     on_run := fun _ => Ok tt;
     on_start := Ok tt;
     on_safeRemove := Ok tt;
     on_remove := Ok tt;
     on_cleanup := Ok tt;
     on_stat := Ok true |}.

(** The session has been stopped. *)
Definition stopped_session : Script :=
  {| on_findUnique := session_s1 #"stopped";
     on_isRunning := fun _ => Some true;
     on_run := fun _ => Ok tt;
     on_start := Ok tt;
     on_safeRemove := Ok tt;
     on_remove := Ok tt;
     on_cleanup := Ok tt;
     on_stat := Ok true |}.

Definition pathspec_error : Thrown :=
  JsError #"Command failed: docker exec"
          (Some #"error: pathspec did not match any file(s) known to git")
          None.

(** The cold start in which every command run in a container fails. *)
Definition checkout_fails : @Env Counters :=
  let E := scripted cold in
  {| db_terminalSession_findUnique := db_terminalSession_findUnique E;
     db_terminalSession_update := db_terminalSession_update E;
     dockerService_isRunning := dockerService_isRunning E;
     dockerService_run := dockerService_run E;
     dockerService_start := dockerService_start E;
     dockerService_restart := dockerService_restart E;
     dockerService_remove := dockerService_remove E;
     dockerService_safeRemove := dockerService_safeRemove E;
     dockerService_ensureNetwork := dockerService_ensureNetwork E;
     dockerService_pull := dockerService_pull E;
     dockerService_exec := fun _ _ w => (Throw pathspec_error, w);
     ingressService_cleanup := ingressService_cleanup E;
     fs_stat_isDirectory := fs_stat_isDirectory E;
     fs_mkdir_recursive := fs_mkdir_recursive E;
     fs_access := fs_access E;
     fs_writeFile := fs_writeFile E;
     timer := timer E;
     emit_sessions := emit_sessions E |}.

(** A pending session whose container name is taken by a container that
    cannot be started: the first [run] meets the conflict, the [start]
    fails, the second [run] goes through. *)
Definition name_taken : Script :=
  {| on_findUnique := session_s1 #"pending";
     on_isRunning := missing_then_running;
     on_run := fun i => match i with
                        | 0 => Throw name_conflict_error
                        | S _ => Ok tt
                        end;
     on_start := Throw daemon_error;
     on_safeRemove := Ok tt;
     on_remove := Ok tt;
     on_cleanup := Ok tt;
     on_stat := Ok true |}.

(** The options of the [run] of a cold start of [s1] for [u1], with the
    workspace root [/srv/workspace]. *)
Definition cold_workspace_options : DockerRunOptions :=
  runOptions (config (Some #"/srv/workspace") None) posix #"oc-sess-s1"
    [ {| source := #"/srv/commander/.state/u1/claude/.claude.json";
         target := #"/home/commander/.claude.json"; mode := None |};
      {| source := #"/srv/commander/.state/u1/claude/.claude";
         target := #"/home/commander/.claude"; mode := None |};
      {| source := #"/srv/commander/.state/u1/codex";
         target := #"/home/commander/.codex"; mode := None |};
      {| source := #"/srv/commander/.state/u1/cursor";
         target := #"/home/commander/.cursor"; mode := None |};
      {| source := #"/srv/commander/agents";
         target := #"/home/commander/.commander"; mode := None |};
      {| source := #"open-commander_open-commander-dind-certs";
         target := #"/certs"; mode := Some ReadOnly |};
      {| source := #"/srv/workspace"; target := #"/workspace";
         mode := None |} ].

Definition on_branch (branch : jsstring) : option StartOptions :=
  Some {| reset := None; workspaceSuffix := None; gitBranch := Some branch |}.

End SessionService.

(* ================================================================== *)
(** * The git workspace service ([git.service.ts]) *)
(* ================================================================== *)

Module GitService.

Record ExecOptions := {
  cwd : option jsstring;
  timeout : option N
}.

Inductive Call :=
| Stat (p : jsstring)
| Rm (p : jsstring)
| Mkdir (p : jsstring)
| ExecAsync (command : jsstring) (o : ExecOptions)
| Log (text : jsstring)
| Warn (text : jsstring) (e : Thrown).

Definition dquote : N := 34.

(** ** The redaction pattern

    [message.replace(/https:\/\/[^@]+@github\.com/g, "https://***@github.com")].
    A match at the head of [s] is [https://], then one or more units other
    than [@], then [@github.com].  The class [[^@]] cannot step over an
    [@], so the run of [[^@]+] must end exactly at the first [@] after
    [https://]: backtracking to a shorter run never helps, and the match,
    when there is one, is unique. *)

Definition at_sign : N := 64.

Fixpoint span_not_at (s : jsstring) : jsstring * jsstring :=
  match s with
  | [] => ([], [])
  | c :: s' =>
      if code_eqb c at_sign then ([], s)
      else let '(r, t) := span_not_at s' in (c :: r, t)
  end.

(** The length of the match at the head of [s], if there is one. *)
Definition match_length (s : jsstring) : option nat :=
  if startsWith s #"https://" then
    let '(r, t) := span_not_at (skipn 8 s) in
    match r with
    | [] => None
    | _ :: _ =>
        if startsWith t #"@github.com" then Some (8 + length r + 11)
        else None
    end
  else None.

Definition replacement : jsstring := #"https://***@github.com".

(** The global replace scans from the left; after a match it resumes
    right behind it.  [skip] is the number of units of the current match
    still to be dropped. *)
Fixpoint replace_go (skip : nat) (s : jsstring) : jsstring :=
  match s with
  | [] => []
  | c :: s' =>
      match skip with
      | S k => replace_go k s'
      | 0 =>
          match match_length s with
          | Some n => replacement ++ replace_go (n - 1) s'
          | None => c :: replace_go 0 s'
          end
      end
  end.

Definition sanitize (message : jsstring) : jsstring := replace_go 0 message.

(** The two environment variables the module reads, and Node's [path]. *)
Record Config := {
  AGENT_WORKSPACE_env : option jsstring;
  GITHUB_TOKEN : option jsstring;
  node_path_resolve : list jsstring -> jsstring;
  node_path_join : list jsstring -> jsstring;
  node_path_dirname : jsstring -> jsstring
}.

Section Service.
Context {W : Type}.

Record Env := {
  fs_stat_isDirectory : jsstring -> W -> Outcome bool * W;
  fs_rm_recursive_force : jsstring -> W -> Outcome unit * W;
  fs_mkdir_recursive : jsstring -> W -> Outcome unit * W;
  execAsync : jsstring -> ExecOptions -> W -> Outcome unit * W
}.

Variable E : Env.
Variable cfg : Config.

Local Abbreviation M := (M W Call).
Local Abbreviation path_resolve := (node_path_resolve cfg).
Local Abbreviation path_join := (node_path_join cfg).
Local Abbreviation path_dirname := (node_path_dirname cfg).

Definition AGENT_WORKSPACE : option jsstring :=
  match AGENT_WORKSPACE_env cfg with
  | Some p => if truthy p then Some (path_resolve [p]) else None
  | None => None
  end.

Definition REPOS_SUBDIR : jsstring := #"repos".

Definition stat_isDirectory (p : jsstring) : M bool :=
  perform (Stat p) (fs_stat_isDirectory E p).
Definition rm (p : jsstring) : M unit :=
  perform (Rm p) (fs_rm_recursive_force E p).
Definition mkdir (p : jsstring) : M unit :=
  perform (Mkdir p) (fs_mkdir_recursive E p).
Definition exec (command : jsstring) (o : ExecOptions) : M unit :=
  perform (ExecAsync command o) (execAsync E command o).
Definition console_log (text : jsstring) : M unit :=
  perform (Log text) (fun w => (Ok tt, w)).
Definition console_warn (text : jsstring) (e : Thrown) : M unit :=
  perform (Warn text e) (fun w => (Ok tt, w)).

Definition parseRepository (repository : jsstring)
  : M (jsstring * jsstring) :=
  match split (trim repository) 47 with
  | [owner; repo] =>
      if truthy owner && truthy repo then ret (owner, repo)
      else throw (newError (#"Invalid repository format: " ++ repository
                             ++ #". Expected 'owner/repo'."))
  | _ => throw (newError (#"Invalid repository format: " ++ repository
                           ++ #". Expected 'owner/repo'."))
  end.

Definition getRepoPath (owner repo : jsstring) : M jsstring :=
  match AGENT_WORKSPACE with
  | Some root =>
      if truthy root then ret (path_join [root; REPOS_SUBDIR; owner; repo])
      else throw (newError #"AGENT_WORKSPACE is not configured")
  | None => throw (newError #"AGENT_WORKSPACE is not configured")
  end.

Definition directoryExists (dirPath : jsstring) : M bool :=
  try_catch (stat_isDirectory dirPath) (fun _ => ret false).

Definition isGitRepo (dirPath : jsstring) : M bool :=
  directoryExists (path_join [dirPath; #".git"]).

Definition clone_command (cloneUrl targetPath : jsstring) : jsstring :=
  #"git clone --depth 1 --single-branch " ++ [dquote] ++ cloneUrl
    ++ [dquote] ++ #" " ++ [dquote] ++ targetPath ++ [dquote].

(** [gitService.clone] *)
Definition clone (cloneUrl targetPath repository : jsstring) : M unit :=
  let parentDir := path_dirname targetPath in
  mkdir parentDir ;;;
  console_log (#"[git.service] Cloning repository: " ++ repository) ;;;
  try_catch
    (exec (clone_command cloneUrl targetPath)
          {| cwd := None; timeout := Some 300000%N |} ;;;
     console_log (#"[git.service] Clone successful: " ++ repository))
    (fun error =>
       let message :=
         match error with
         | JsError m _ _ => m
         | JsValue rendering _ => rendering
         end in
       let sanitizedMessage := sanitize message in
       throw (newError (#"Failed to clone repository: " ++ sanitizedMessage))).

Definition cloneUrl_of (owner repo : jsstring) : jsstring :=
  match GITHUB_TOKEN cfg with
  | Some token =>
      if truthy token
      then #"https://" ++ token ++ #"@github.com/" ++ owner ++ #"/" ++ repo
             ++ #".git"
      else #"https://github.com/" ++ owner ++ #"/" ++ repo ++ #".git"
  | None => #"https://github.com/" ++ owner ++ #"/" ++ repo ++ #".git"
  end.

(** [gitService.cloneOrPull] *)
Definition cloneOrPull (repository : jsstring) : M jsstring :=
  parsed <- parseRepository repository ;;
  let '(owner, repo) := parsed in
  repoPath <- getRepoPath owner repo ;;
  let relativePath := path_join [REPOS_SUBDIR; owner; repo] in
  let cloneUrl := cloneUrl_of owner repo in
  exists_ <- directoryExists repoPath ;;
  (if exists_ then
     git <- isGitRepo repoPath ;;
     if git then
       console_log (#"[git.service] Repository exists, pulling: "
                     ++ repository) ;;;
       try_catch
         (exec #"git fetch --all && git reset --hard origin/HEAD"
               {| cwd := Some repoPath; timeout := None |} ;;;
          console_log (#"[git.service] Pull successful: " ++ repository))
         (fun error =>
            console_warn (#"[git.service] Pull failed, will re-clone: "
                           ++ repository) error ;;;
            rm repoPath ;;;
            clone cloneUrl repoPath repository)
     else
       console_log
         (#"[git.service] Directory exists but not a git repo, removing: "
           ++ repoPath) ;;;
       rm repoPath ;;;
       clone cloneUrl repoPath repository
   else clone cloneUrl repoPath repository) ;;;
  ret relativePath.

End Service.

(** ** Vocabulary of the properties *)

(** No unit of [s] is an [@]. *)
Definition no_at (s : jsstring) : bool :=
  forallb (fun c => negb (code_eqb c at_sign)) s.

(** The head of the URL that carries [token]. *)
Definition authenticated_host (token : jsstring) : jsstring :=
  #"https://" ++ token ++ #"@github.com".

(** ** A world in which [git] fails

    [exec] rejects the way Node does, with the message
    [Command failed: <command>], a line break, and what the child wrote on
    stderr. *)
Fixpoint after_slash (s : jsstring) : jsstring :=
  match s with
  | [] => []
  | c :: s' => if code_eqb c 47 then s' else after_slash s'
  end.

Definition node (token : option jsstring) : Config :=
  {| AGENT_WORKSPACE_env := Some #"/srv/workspace";
     GITHUB_TOKEN := token;
     node_path_resolve := fun parts => join #"/" parts;
     node_path_join := fun parts => join #"/" parts;
     node_path_dirname := fun p => rev (after_slash (rev p)) |}.

Definition git_fails (stderr : jsstring) : @Env unit :=
  {| fs_stat_isDirectory := fun _ w => (Throw (JsError #"ENOENT" None None), w);
     fs_rm_recursive_force := fun _ w => (Ok tt, w);
     fs_mkdir_recursive := fun _ w => (Ok tt, w);
     execAsync := fun command _ w =>
       (Throw (JsError (#"Command failed: " ++ command ++ [10%N] ++ stderr)
                       (Some stderr) None), w) |}.

(** ** Vocabulary of further properties *)

Definition is_Rm (c : Call) : bool :=
  match c with Rm _ => true | _ => false end.
Definition is_ExecAsync (c : Call) : bool :=
  match c with ExecAsync _ _ => true | _ => false end.

Definition slash : N := 47.

Definition invalid_repository (repository : jsstring) : Thrown :=
  newError (#"Invalid repository format: " ++ repository
             ++ #". Expected 'owner/repo'.").

Definition not_configured : Thrown :=
  newError #"AGENT_WORKSPACE is not configured".

Definition fetch_command : jsstring :=
  #"git fetch --all && git reset --hard origin/HEAD".

(** The calls of [clone] on [targetPath], as far as it gets. *)
Definition clone_calls (cfg : Config) (cloneUrl targetPath repository : jsstring)
           (l : list Call) : Prop :=
  let started :=
    [ Mkdir (node_path_dirname cfg targetPath);
      Log (#"[git.service] Cloning repository: " ++ repository);
      ExecAsync (clone_command cloneUrl targetPath)
                {| cwd := None; timeout := Some 300000%N |} ] in
  l = [Mkdir (node_path_dirname cfg targetPath)]
  \/ l = started
  \/ l = started ++ [Log (#"[git.service] Clone successful: " ++ repository)].

(** A world in which the repository is there and [git fetch] fails, while
    [git clone] goes through. *)
Definition stale_repo : @Env unit :=
  {| fs_stat_isDirectory := fun _ w => (Ok true, w);
     fs_rm_recursive_force := fun _ w => (Ok tt, w);
     fs_mkdir_recursive := fun _ w => (Ok tt, w);
     execAsync := fun command _ w =>
       if startsWith command #"git fetch"
       then (Throw (JsError (#"Command failed: " ++ command) None None), w)
       else (Ok tt, w) |}.

(** No workspace root in the environment. *)
Definition no_workspace : Config :=
  {| AGENT_WORKSPACE_env := None;
     GITHUB_TOKEN := None;
     node_path_resolve := fun parts => join #"/" parts;
     node_path_join := fun parts => join #"/" parts;
     node_path_dirname := fun p => rev (after_slash (rev p)) |}.

End GitService.

(* ================================================================== *)
(** * The terminal proxy: [connectToContainerWs] and [/terminal/:sessionId] *)
(* ================================================================== *)

Module TerminalProxy.

(** An open WebSocket, by handle. *)
Definition WebSocket := nat.

Inductive Call :=
| GetAdminUserId
| GetSession (cookie : jsstring)
| FindRunningSession (sessionId userId : jsstring)
| OpenDirect (url : jsstring) (protocols : list jsstring) (timeoutMs : N)
| CreateDockerExecBridge (containerName : jsstring) (containerPort : Z)
| OpenLoopback (url : jsstring) (protocols : list jsstring)
| BridgeCleanup (port : Z)
| Sleep (ms : N)
| OnMessage_bufferClientMessage
| Close (code : N) (reason : jsstring)
| Log (level : jsstring) (text : jsstring).

Definition is_OpenDirect (c : Call) : bool :=
  match c with OpenDirect _ _ _ => true | _ => false end.
Definition is_Sleep (c : Call) : bool :=
  match c with Sleep _ => true | _ => false end.

(** [NEXT_PUBLIC_DISABLE_AUTH === "true"], [env.TTYD_PORT], and the
    rendering of a number in a template literal. *)
Record Config := {
  DISABLE_AUTH : bool;
  TTYD_PORT : Z;
  number_ToString : Z -> jsstring
}.

Section Proxy.
Context {W : Type}.

Record Env := {
  (** [db.user.findFirst] for the first admin, then [admin?.id] *)
  db_user_findFirst_admin : W -> Outcome (option jsstring) * W;
  (** [auth.api.getSession], then [session?.user?.id] *)
  auth_api_getSession : jsstring -> W -> Outcome (option jsstring) * W;
  (** [db.terminalSession.findFirst] for a running session the user may
      reach; the row found carries its nullable [containerName] *)
  db_terminalSession_findFirst :
    jsstring -> jsstring -> W -> Outcome (option (option jsstring)) * W;
  (** [new WebSocket(url, protocols)] raced against a timer of the given
      length: the socket once open, or [null] on error or timeout *)
  ws_open_with_timeout :
    jsstring -> list jsstring -> N -> W -> Outcome (option WebSocket) * W;
  (** [createDockerExecBridge]: the loopback port of the one-shot
      listener that pipes into [docker exec -i <name> nc localhost <port>] *)
  docker_exec_bridge : jsstring -> Z -> W -> Outcome Z * W;
  (** [new WebSocket(url, protocols)] with no timer: open, or [null] on
      error *)
  ws_open : jsstring -> list jsstring -> W -> Outcome (option WebSocket) * W;
  bridge_cleanup : Z -> W -> W;
  timer : N -> W -> W;
  socket_close : N -> jsstring -> W -> W
}.

Variable E : Env.
Variable cfg : Config.

Local Abbreviation M := (M W Call).
Local Abbreviation ToString := (number_ToString cfg).

Definition log (level text : jsstring) : M unit :=
  perform (Log level text) (fun w => (Ok tt, w)).
Definition sleep (ms : N) : M unit :=
  perform (Sleep ms) (fun w => (Ok tt, timer E ms w)).
Definition close (code : N) (reason : jsstring) : M unit :=
  perform (Close code reason) (fun w => (Ok tt, socket_close E code reason w)).

Definition getUserIdFromCookies (cookieHeader : option jsstring)
  : M (option jsstring) :=
  match cookieHeader with
  | None => ret None
  | Some c =>
      if negb (truthy c) then ret None
      else perform (GetSession c) (auth_api_getSession E c)
  end.

Definition resolveTerminalAccess (sessionId userId : jsstring)
  : M (option jsstring) :=
  session <- perform (FindRunningSession sessionId userId)
                     (db_terminalSession_findFirst E sessionId userId) ;;
  ret (match session with Some (Some n) => Some n | _ => None end).

Definition getAdminUserId : M (option jsstring) :=
  perform GetAdminUserId (db_user_findFirst_admin E).

(** ** [connectToContainerWs] *)

Definition direct_url (containerName : jsstring) (ttydPort : Z) : jsstring :=
  #"ws://" ++ containerName ++ #":" ++ ToString ttydPort ++ #"/ws".

Definition loopback_url (port : Z) : jsstring :=
  #"ws://127.0.0.1:" ++ ToString port ++ #"/ws".

Definition tryOnce (containerName : jsstring) (ttydPort : Z)
           (protocols : list jsstring) : M (option WebSocket) :=
  direct <- perform (OpenDirect (direct_url containerName ttydPort)
                                protocols 1500)
                    (ws_open_with_timeout E
                       (direct_url containerName ttydPort) protocols 1500) ;;
  match direct with
  | Some ws => ret (Some ws)
  | None =>
      port <- perform (CreateDockerExecBridge containerName ttydPort)
                      (docker_exec_bridge E containerName ttydPort) ;;
      ws <- perform (OpenLoopback (loopback_url port) protocols)
                    (ws_open E (loopback_url port) protocols) ;;
      match ws with
      | Some ws => ret (Some ws)
      | None =>
          perform (BridgeCleanup port)
                  (fun w => (Ok tt, bridge_cleanup E port w)) ;;;
          ret None
      end
  end.

Definition could_not_connect (containerName : jsstring) (ttydPort : Z)
           (maxAttempts : nat) : Thrown :=
  newError (#"Could not connect to " ++ containerName ++ #":"
             ++ ToString ttydPort ++ #" after " ++ ToString (Z.of_nat maxAttempts)
             ++ #" attempts").

(** [for (let attempt = 1; attempt <= maxAttempts; attempt++) { ... }]
    followed by the final [throw].  [turns] bounds the number of turns;
    the loop is entered with [maxAttempts] of them. *)
Fixpoint connectLoop (containerName : jsstring) (ttydPort : Z)
         (protocols : list jsstring) (maxAttempts : nat) (retryDelayMs : N)
         (turns attempt : nat) : M WebSocket :=
  match turns with
  | 0 => throw (could_not_connect containerName ttydPort maxAttempts)
  | S turns' =>
      if attempt <=? maxAttempts then
        ws <- tryOnce containerName ttydPort protocols ;;
        match ws with
        | Some ws => ret ws
        | None =>
            (if attempt <? maxAttempts then sleep retryDelayMs else ret tt) ;;;
            connectLoop containerName ttydPort protocols maxAttempts
                        retryDelayMs turns' (S attempt)
        end
      else throw (could_not_connect containerName ttydPort maxAttempts)
  end.

Definition connectToContainerWs_with (containerName : jsstring)
           (ttydPort : Z) (protocols : list jsstring)
           (maxAttempts : nat) (retryDelayMs : N) : M WebSocket :=
  connectLoop containerName ttydPort protocols maxAttempts retryDelayMs
              maxAttempts 1.

(** The call with the default [maxAttempts = 10], [retryDelayMs = 500]. *)
Definition connectToContainerWs (containerName : jsstring) (ttydPort : Z)
           (protocols : list jsstring) : M WebSocket :=
  connectToContainerWs_with containerName ttydPort protocols 10 500.

(** ** The [/terminal/:sessionId] handler, up to the upstream connection.
    The result is the upstream socket when the bridge can be set up, and
    [None] when the handler has closed the client socket and returned. *)
Definition terminal_handler (sessionId : jsstring)
           (cookie : option jsstring)
           (sec_websocket_protocol : option jsstring)
  : M (option WebSocket) :=
  log #"info" #"[proxy] ws handler entered" ;;;
  log #"info" #"[proxy] raw cookie header" ;;;
  userId <- (if DISABLE_AUTH cfg then getAdminUserId
             else getUserIdFromCookies cookie) ;;
  log #"info" #"[proxy] auth result" ;;;
  if negb (truthy_opt userId) then
    log #"warn" #"[proxy] closing: unauthorized" ;;;
    close 1008 #"Unauthorized" ;;;
    ret None
  else
    let userId := match userId with Some u => u | None => [] end in
    containerName <- resolveTerminalAccess sessionId userId ;;
    log #"info" #"[proxy] access result" ;;;
    if negb (truthy_opt containerName) then
      log #"warn" #"[proxy] closing: session not found or access denied" ;;;
      close 1008 #"Session not found, not running, or access denied" ;;;
      ret None
    else
      let containerName :=
        match containerName with Some n => n | None => [] end in
      let protocols :=
        match sec_websocket_protocol with
        | Some h => map trim (split h 44)
        | None => [#"tty"]
        end in
      log #"info" #"[proxy] connecting to upstream" ;;;
      perform OnMessage_bufferClientMessage (fun w => (Ok tt, w)) ;;;
      try_catch
        (upstream <- connectToContainerWs containerName (TTYD_PORT cfg) protocols ;;
         log #"info" #"[proxy] upstream connected" ;;;
         ret (Some upstream))
        (fun err =>
           log #"error" #"[proxy] failed to connect to container" ;;;
           close 1011 #"Could not connect to terminal" ;;;
           ret None).

End Proxy.

(** ** Vocabulary of the properties of [connectToContainerWs] *)

Definition direct_attempt (cfg : Config) (containerName : jsstring)
           (ttydPort : Z) (protocols : list jsstring) : Call :=
  OpenDirect (#"ws://" ++ containerName ++ #":"
               ++ number_ToString cfg ttydPort ++ #"/ws") protocols 1500.

Definition loopback_attempt (cfg : Config) (protocols : list jsstring)
           (port : Z) : Call :=
  OpenLoopback (#"ws://127.0.0.1:" ++ number_ToString cfg port ++ #"/ws")
               protocols.

(** The calls of an attempt that came back with [null]: the direct
    connection failed, the tunnel on loopback port [port] was set up, the
    connection through it failed, and the listener was closed. *)
Definition failed_attempt (cfg : Config) (containerName : jsstring)
           (ttydPort : Z) (protocols : list jsstring) (port : Z) : list Call :=
  [ direct_attempt cfg containerName ttydPort protocols;
    CreateDockerExecBridge containerName ttydPort;
    loopback_attempt cfg protocols port;
    BridgeCleanup port ].

(** The calls of any attempt: the direct connection comes first; the
    tunnel is only set up after it. *)
Definition attempt_calls (cfg : Config) (containerName : jsstring)
           (ttydPort : Z) (protocols : list jsstring) (l : list Call) : Prop :=
  l = [direct_attempt cfg containerName ttydPort protocols]
  \/ l = [direct_attempt cfg containerName ttydPort protocols;
          CreateDockerExecBridge containerName ttydPort]
  \/ (exists port,
         l = [direct_attempt cfg containerName ttydPort protocols;
              CreateDockerExecBridge containerName ttydPort;
              loopback_attempt cfg protocols port])
  \/ (exists port,
         l = failed_attempt cfg containerName ttydPort protocols port).

(** Failed attempts, each followed by the pause before the next one. *)
Definition failed_attempts (cfg : Config) (containerName : jsstring)
           (ttydPort : Z) (protocols : list jsstring) (retryDelayMs : N)
           (ports : list Z) : list Call :=
  flat_map (fun port =>
              failed_attempt cfg containerName ttydPort protocols port
              ++ [Sleep retryDelayMs]) ports.

(** Every direct connection and every tunnelled one gives up, and the
    tunnel itself can always be set up. *)
Definition nothing_answers {W} (E : @Env W) : Prop :=
  (forall url protocols t w, exists w1,
        ws_open_with_timeout E url protocols t w = (Ok None, w1))
  /\ (forall n p w, exists port w1,
         docker_exec_bridge E n p w = (Ok port, w1))
  /\ (forall url protocols w, exists w1,
         ws_open E url protocols w = (Ok None, w1)).

Definition is_Close (c : Call) : bool :=
  match c with Close _ _ => true | _ => false end.

(** A world in which no terminal daemon can be reached: direct
    connections time out and connections through the tunnel fail.  The
    world counts the tunnels, and the [i]-th listens on port [40000 + i]. *)
Definition unreachable : @Env nat :=
  {| db_user_findFirst_admin := fun w => (Ok (Some #"admin"), w);
     auth_api_getSession := fun _ w => (Ok (Some #"u1"), w);
     db_terminalSession_findFirst := fun sessionId _ w =>
       (Ok (Some (Some (#"oc-sess-" ++ sessionId))), w);
     ws_open_with_timeout := fun _ _ _ w => (Ok None, w);
     docker_exec_bridge := fun _ _ w => (Ok (40000 + Z.of_nat w)%Z, S w);
     ws_open := fun _ _ w => (Ok None, w);
     bridge_cleanup := fun _ w => w;
     timer := fun _ w => w;
     socket_close := fun _ _ w => w |}.

Definition proxy_config : Config :=
  {| DISABLE_AUTH := false;
     TTYD_PORT := 7681;
     number_ToString := fun z => lit (NilZero.string_of_int (Z.to_int z)) |}.

(** ** The client-to-upstream half of the bridge

    Client frames reach the handler as ["message"] events of the client
    socket, and an event is delivered to the listeners installed at that
    moment.  The state below is what lines 282-321 of the handler act on. *)

Record Frame := { data : list N; isBinary : bool }.

Inductive ReadyState := CONNECTING | OPEN | CLOSING | CLOSED.

Definition is_OPEN (s : ReadyState) : bool :=
  match s with OPEN => true | _ => false end.

Inductive Listener := bufferClientMessage | forwardToUpstream.

Record Bridge := {
  messageListeners : list Listener;
  clientMessageBuffer : list Frame;
  (** [None] while [connectToContainerWs] is still awaited *)
  upstream_readyState : option ReadyState;
  (** the frames handed to [upstream.send], oldest first *)
  upstream_sent : list Frame
}.

(** [clientMessageBuffer.push({ data, isBinary })] *)
Definition push_buffer (f : Frame) (b : Bridge) : Bridge :=
  {| messageListeners := messageListeners b;
     clientMessageBuffer := clientMessageBuffer b ++ [f];
     upstream_readyState := upstream_readyState b;
     upstream_sent := upstream_sent b |}.

(** [if (upstream.readyState === WebSocket.OPEN) upstream.send(data, ...)] *)
Definition send_if_open (f : Frame) (b : Bridge) : Bridge :=
  match upstream_readyState b with
  | Some s =>
      if is_OPEN s then
        {| messageListeners := messageListeners b;
           clientMessageBuffer := clientMessageBuffer b;
           upstream_readyState := upstream_readyState b;
           upstream_sent := upstream_sent b ++ [f] |}
      else b
  | None => b
  end.

Definition call_listener (l : Listener) (f : Frame) (b : Bridge) : Bridge :=
  match l with
  | bufferClientMessage => push_buffer f b
  | forwardToUpstream => send_if_open f b
  end.

(** The client socket emits ["message"]. *)
Definition emit_message (f : Frame) (b : Bridge) : Bridge :=
  fold_left (fun b l => call_listener l f b) (messageListeners b) b.

Definition listener_eqb (a b : Listener) : bool :=
  match a, b with
  | bufferClientMessage, bufferClientMessage => true
  | forwardToUpstream, forwardToUpstream => true
  | _, _ => false
  end.

(** [socket.off("message", l)] removes the most recently added instance. *)
Fixpoint remove_last (l : Listener) (ls : list Listener) : list Listener :=
  match ls with
  | [] => []
  | x :: rest =>
      if listener_eqb x l && negb (existsb (listener_eqb l) rest) then rest
      else x :: remove_last l rest
  end.

(** Lines 282-287: the buffer and its listener. *)
Definition buffering : Bridge :=
  {| messageListeners := [bufferClientMessage];
     clientMessageBuffer := [];
     upstream_readyState := None;
     upstream_sent := [] |}.

(** Lines 307-321, run without interruption once [connectToContainerWs]
    has returned an open socket: drop the buffer listener, send every
    buffered frame, install the forwarding listener. *)
Definition establish (b : Bridge) : Bridge :=
  let b1 := {| messageListeners := remove_last bufferClientMessage
                                               (messageListeners b);
               clientMessageBuffer := clientMessageBuffer b;
               upstream_readyState := Some OPEN;
               upstream_sent := upstream_sent b |} in
  let b2 := fold_left (fun b f => send_if_open f b) (clientMessageBuffer b1) b1 in
  {| messageListeners := messageListeners b2 ++ [forwardToUpstream];
     clientMessageBuffer := clientMessageBuffer b2;
     upstream_readyState := upstream_readyState b2;
     upstream_sent := upstream_sent b2 |}.

Inductive Event :=
| ClientMessage (f : Frame)
| UpstreamConnected
| UpstreamReadyState (s : ReadyState).

Definition step (b : Bridge) (ev : Event) : Bridge :=
  match ev with
  | ClientMessage f => emit_message f b
  | UpstreamConnected =>
      match upstream_readyState b with
      | None => establish b
      | Some _ => b
      end
  | UpstreamReadyState s =>
      match upstream_readyState b with
      | None => b
      | Some _ =>
          {| messageListeners := messageListeners b;
             clientMessageBuffer := clientMessageBuffer b;
             upstream_readyState := Some s;
             upstream_sent := upstream_sent b |}
      end
  end.

Definition run (evs : list Event) : Bridge := fold_left step evs buffering.

(** The frames of the client, in the order they arrive. *)
Fixpoint clientFrames (evs : list Event) : list Frame :=
  match evs with
  | [] => []
  | ClientMessage f :: rest => f :: clientFrames rest
  | _ :: rest => clientFrames rest
  end.

Definition is_UpstreamConnected (ev : Event) : bool :=
  match ev with UpstreamConnected => true | _ => false end.

Definition is_UpstreamReadyState (ev : Event) : bool :=
  match ev with UpstreamReadyState _ => true | _ => false end.

(** The frames that arrive while the upstream, last seen in state [s],
    is open. *)
Fixpoint framesWhileOpen (s : ReadyState) (evs : list Event) : list Frame :=
  match evs with
  | [] => []
  | ClientMessage f :: rest =>
      if is_OPEN s then f :: framesWhileOpen s rest
      else framesWhileOpen s rest
  | UpstreamConnected :: rest => framesWhileOpen s rest
  | UpstreamReadyState s' :: rest => framesWhileOpen s' rest
  end.

(** [l1] is [l2] with some elements left out, the order kept. *)
Inductive Subsequence {A : Type} : list A -> list A -> Prop :=
| sub_nil : Subsequence [] []
| sub_keep x l1 l2 : Subsequence l1 l2 -> Subsequence (x :: l1) (x :: l2)
| sub_drop x l1 l2 : Subsequence l1 l2 -> Subsequence l1 (x :: l2).

Definition handshake : Frame :=
  {| data := [123; 125]%N; isBinary := false |}.
Definition keystroke : Frame :=
  {| data := [48; 108]%N; isBinary := true |}.

(** ** Vocabulary of further properties *)

Definition comma : N := 44.

(** The subprotocols the handler hands to the upstream connection:
    [header?.split(",").map((p) => p.trim()) ?? ["tty"]]. *)
Definition forwarded_protocols (sec_websocket_protocol : option jsstring)
  : list jsstring :=
  match sec_websocket_protocol with
  | Some h => map trim (split h comma)
  | None => [#"tty"]
  end.

Definition is_upstream_attempt (c : Call) : bool :=
  match c with
  | OpenDirect _ _ _ | CreateDockerExecBridge _ _ | OpenLoopback _ _ => true
  | _ => false
  end.

(** How the handler came by the user, from the world [w] it starts in:
    the first admin when authentication is disabled, else the session of
    the cookie.  [w1] is the world after the lookup. *)
Definition authenticated {W} (E : @Env W) (cfg : Config)
           (cookie : option jsstring) (w : W) (userId : jsstring) (w1 : W)
  : Prop :=
  truthy userId = true
  /\ if DISABLE_AUTH cfg
     then db_user_findFirst_admin E w = (Ok (Some userId), w1)
     else exists c, cookie = Some c /\ truthy c = true
                    /\ auth_api_getSession E c w = (Ok (Some userId), w1).

(** The lookup of the running session, made in [w1], returned the
    container [name] and left the world [w2]. *)
Definition granted {W} (E : @Env W) (sessionId userId : jsstring) (w1 : W)
           (name : jsstring) (w2 : W) : Prop :=
  truthy name = true
  /\ db_terminalSession_findFirst E sessionId userId w1
     = (Ok (Some (Some name)), w2).

(** The three ways the handler closes the client socket. *)
Definition handler_close (code : N) (reason : jsstring) : Prop :=
  (code = 1008%N /\ reason = #"Unauthorized")
  \/ (code = 1008%N
      /\ reason = #"Session not found, not running, or access denied")
  \/ (code = 1011%N /\ reason = #"Could not connect to terminal").

(** A world with a running session [s1] and a terminal daemon that
    answers the direct connection. *)
Definition reachable : @Env nat :=
  {| db_user_findFirst_admin := fun w => (Ok (Some #"admin"), w);
     auth_api_getSession := fun _ w => (Ok (Some #"u1"), w);
     db_terminalSession_findFirst := fun sessionId _ w =>
       (Ok (Some (Some (#"oc-sess-" ++ sessionId))), w);
     ws_open_with_timeout := fun _ _ _ w => (Ok (Some 7), w);
     docker_exec_bridge := fun _ _ w => (Ok (40000 + Z.of_nat w)%Z, S w);
     ws_open := fun _ _ w => (Ok None, w);
     bridge_cleanup := fun _ w => w;
     timer := fun _ w => w;
     socket_close := fun _ _ w => w |}.

End TerminalProxy.

(* ================================================================== *)
(** * The presence hook ([use-presence-websocket.ts]) *)
(* ================================================================== *)

Module PresenceHook.

Inductive PresenceStatus := active | viewing | inactive.

Definition MAX_RETRY_DELAY_MS : Z := 30000.
Definition HEARTBEAT_INTERVAL_MS : Z := 15000.
Definition ACTIVE_THRESHOLD_MS : Z := 30000.
Definition VIEWING_THRESHOLD_MS : Z := 2 * 60000.

(** [computeStatus(lastInteractionMs)], with the reading of [Date.now()]
    made a parameter.  Both are integral numbers of milliseconds. *)
Definition computeStatus (now lastInteractionMs : Z) : PresenceStatus :=
  let elapsed := (now - lastInteractionMs)%Z in
  if (elapsed <? ACTIVE_THRESHOLD_MS)%Z then active
  else if (elapsed <? VIEWING_THRESHOLD_MS)%Z then viewing
  else inactive.

(** How far a status is from [active]. *)
Definition rank (s : PresenceStatus) : nat :=
  match s with active => 0 | viewing => 1 | inactive => 2 end.

End PresenceHook.

(* ================================================================== *)
(** * The sessions hook ([use-sessions-websocket.ts]) *)
(* ================================================================== *)

Module SessionsHook.

Inductive RelationType := fork | stack.

Record User := { user_id : jsstring; user_name : option jsstring }.

Record SessionEntry := {
  id : jsstring;
  name : option jsstring;
  status : jsstring;
  containerName : option jsstring;
  createdAt : Z;
  updatedAt : Z;
  userId : jsstring;
  projectId : option jsstring;
  parentId : option jsstring;
  relationType : option RelationType;
  user : User
}.

(** The updater passed to [setSessions], on array values:
    [(prev) => prev.some((s) => s.id === newSession.id) ? prev
               : [...prev, newSession]]. *)
Definition addSession_value (newSession : SessionEntry)
           (prev : list SessionEntry) : list SessionEntry :=
  if existsb (fun s => Js.eqb (id s) (id newSession)) prev then prev
  else prev ++ [newSession].

(** Arrays are objects: the heap maps a reference to the array it holds,
    and a spread allocates a new one. *)
Definition Ref := nat.
Definition Heap := list (list SessionEntry).

Definition deref (h : Heap) (r : Ref) : list SessionEntry := nth r h [].

Definition addSession (newSession : SessionEntry) (prev : Ref) (h : Heap)
  : Ref * Heap :=
  if existsb (fun s => Js.eqb (id s) (id newSession)) (deref h prev)
  then (prev, h)
  else (length h, h ++ [deref h prev ++ [newSession]]).

Definition entry (i : jsstring) : SessionEntry :=
  {| id := i; name := None; status := #"running"; containerName := None;
     createdAt := 0; updatedAt := 0; userId := #"u1"; projectId := None;
     parentId := None; relationType := None;
     user := {| user_id := #"u1"; user_name := None |} |}.

End SessionsHook.

(* ================================================================== *)
(** * The reconnecting effect of the hooks
      ([use-sessions-websocket.ts], [use-presence-websocket.ts]) *)
(* ================================================================== *)

Module ReconnectEffect.

Definition MAX_RETRY_DELAY_MS : Z := 30000.

(** The variables of one run of the effect with a project to connect to,
    and what it has asked of the browser so far. *)
Record State := {
  closed : bool;
  (** the identifier that [setTimeout] returned last, or [null] *)
  retryTimer : option nat;
  retryDelay : Z;
  (** the number of WebSockets that [connect] has created *)
  sockets : nat;
  (** the timers that are set and have neither fired nor been cleared *)
  pending : list nat;
  (** the delays handed to [setTimeout], oldest first *)
  delays : list Z
}.

(** [connect]: [if (closed) return;] then a new WebSocket, which becomes
    the current one. *)
Definition connect (s : State) : State :=
  if closed s then s
  else {| closed := closed s; retryTimer := retryTimer s;
          retryDelay := retryDelay s; sockets := S (sockets s);
          pending := pending s; delays := delays s |}.

(** The body of the effect: the three variables, then [connect()]. *)
Definition mounted : State :=
  connect {| closed := false; retryTimer := None; retryDelay := 1000;
             sockets := 0; pending := []; delays := [] |}.

Fixpoint remove_timer (id : nat) (l : list nat) : list nat :=
  match l with
  | [] => []
  | x :: rest => if Nat.eqb x id then rest else x :: remove_timer id rest
  end.

(** What the browser does to the effect: a socket of the effect opens or
    closes, a timer runs out, React cleans the effect up. *)
Inductive Event :=
| onopen
| onclose
| timeout (id : nat)
| cleanup.

(** [ws.onopen] *)
Definition on_open (s : State) : State :=
  {| closed := closed s; retryTimer := retryTimer s; retryDelay := 1000;
     sockets := sockets s; pending := pending s; delays := delays s |}.

(** [ws.onclose]; the timer set is the first with a fresh identifier,
    which is a positive number. *)
Definition on_close (s : State) : State :=
  if closed s then s
  else
    let id := S (length (delays s)) in
    {| closed := closed s; retryTimer := Some id; retryDelay := retryDelay s;
       sockets := sockets s; pending := pending s ++ [id];
       delays := delays s ++ [retryDelay s] |}.

(** The callback handed to [setTimeout]. *)
Definition on_timeout (s : State) : State :=
  connect {| closed := closed s; retryTimer := retryTimer s;
             retryDelay := Z.min (retryDelay s * 2) MAX_RETRY_DELAY_MS;
             sockets := sockets s; pending := pending s;
             delays := delays s |}.

(** The function the effect returns. *)
Definition on_cleanup (s : State) : State :=
  {| closed := true; retryTimer := retryTimer s; retryDelay := retryDelay s;
     sockets := sockets s;
     pending := match retryTimer s with
                | Some id => remove_timer id (pending s)
                | None => pending s
                end;
     delays := delays s |}.

Definition step (s : State) (ev : Event) : State :=
  match ev with
  | onopen => on_open s
  | onclose => on_close s
  | timeout id =>
      if existsb (Nat.eqb id) (pending s)
      then on_timeout
             {| closed := closed s; retryTimer := retryTimer s;
                retryDelay := retryDelay s; sockets := sockets s;
                pending := remove_timer id (pending s);
                delays := delays s |}
      else s
  | cleanup => on_cleanup s
  end.

Definition run (evs : list Event) : State := fold_left step evs mounted.

(** ** Vocabulary of the properties *)

(** [n] connections in a row that close before they open, each followed
    by the timer that it set. *)
Definition failures (n : nat) : list Event :=
  flat_map (fun i => [onclose; timeout (S i)]) (seq 0 n).

(** The wait before the reconnection that follows [i] failures. *)
Definition backoff (i : nat) : Z :=
  Z.min (1000 * 2 ^ Z.of_nat i) MAX_RETRY_DELAY_MS.

End ReconnectEffect.

(* ================================================================== *)
(** * Facts: recorded calls and the effect monad *)
(* ================================================================== *)

Unset Implicit Arguments.

Lemma count_app {E} (p : E -> bool) (l1 l2 : list E) :
  count p (l1 ++ l2) = count p l1 + count p l2.
Proof. unfold count. rewrite filter_app, length_app. reflexivity. Qed.

Lemma count_nil {E} (p : E -> bool) : count p [] = 0.
Proof. reflexivity. Qed.

Lemma count_cons {E} (p : E -> bool) (c : E) (l : list E) :
  count p (c :: l) = (if p c then 1 else 0) + count p l.
Proof. unfold count. simpl. destruct (p c); reflexivity. Qed.

(** A call satisfying [p] cannot sit inside a prefix that has none. *)
Lemma split_after_quiet {E} (p : E -> bool) (pre rest l1 l2 : list E) (c : E) :
  count p pre = 0 -> p c = true -> pre ++ rest = l1 ++ c :: l2 ->
  exists l1', l1 = pre ++ l1' /\ rest = l1' ++ c :: l2.
Proof.
  revert l1. induction pre as [|x pre IH]; intros l1 Hq Hc Heq.
  - exists l1. split; [reflexivity | exact Heq].
  - rewrite count_cons in Hq.
    destruct l1 as [|y l1]; simpl in Heq; inversion Heq; subst.
    + rewrite Hc in Hq. discriminate.
    + destruct (IH l1) as [l1' [-> ->]]; auto.
      * destruct (p y); [discriminate | exact Hq].
      * exists l1'. split; reflexivity.
Qed.

Section MonadFacts.
Context {W E : Type}.
Local Abbreviation M := (M W E).

Lemma bind_inv {A B} (m : M A) (k : A -> M B) w r w' l :
  bind m k w = (r, w', l) ->
  (exists a w1 l1 l2,
      m w = (Ok a, w1, l1) /\ k a w1 = (r, w', l2) /\ l = l1 ++ l2)
  \/ (exists e, m w = (Throw e, w', l) /\ r = Throw e).
Proof.
  unfold bind. destruct (m w) as [[[a|e] w1] l1].
  - destruct (k a w1) as [[r2 w2] l2] eqn:Hk. intros H. inversion H; subst.
    left. exists a, w1, l1, l2. auto.
  - intros H. inversion H; subst. right. exists e. auto.
Qed.

Lemma try_catch_inv {A} (m : M A) (h : Thrown -> M A) w r w' l :
  try_catch m h w = (r, w', l) ->
  (exists a, m w = (Ok a, w', l) /\ r = Ok a)
  \/ (exists e w1 l1 l2,
         m w = (Throw e, w1, l1) /\ h e w1 = (r, w', l2) /\ l = l1 ++ l2).
Proof.
  unfold try_catch. destruct (m w) as [[[a|e] w1] l1].
  - intros H. inversion H; subst. left. exists a. auto.
  - destruct (h e w1) as [[r2 w2] l2] eqn:Hh. intros H. inversion H; subst.
    right. exists e, w1, l1, l2. auto.
Qed.

Lemma perform_inv {A} (c : E) (op : W -> Outcome A * W) w r w' l :
  perform c op w = (r, w', l) -> op w = (r, w') /\ l = [c].
Proof.
  unfold perform. destruct (op w) as [r1 w1]. intros H. inversion H; auto.
Qed.

Lemma ret_inv {A} (a : A) w r w' (l : list E) :
  (ret a : M A) w = (r, w', l) -> r = Ok a /\ w' = w /\ l = [].
Proof. unfold ret. intros H. inversion H; auto. Qed.

Lemma throw_inv {A} (e : Thrown) w (r : Outcome A) w' (l : list E) :
  (throw e : M A) w = (r, w', l) -> r = Throw e /\ w' = w /\ l = [].
Proof. unfold throw. intros H. inversion H; auto. Qed.

Lemma bind_ok {A B} (m : M A) (k : A -> M B) w a w1 l1 :
  m w = (Ok a, w1, l1) ->
  bind m k w = (let '(r, w2, l2) := k a w1 in (r, w2, l1 ++ l2)).
Proof. intros H. unfold bind. rewrite H. reflexivity. Qed.

Lemma bind_throw {A B} (m : M A) (k : A -> M B) w e w1 l1 :
  m w = (Throw e, w1, l1) -> bind m k w = (Throw e, w1, l1).
Proof. intros H. unfold bind. rewrite H. reflexivity. Qed.

End MonadFacts.

(** Takes a hypothesis on the run of a composite computation apart, down to
    the runs of the calls it is made of. *)
Ltac minv_step :=
  match goal with
  | H : bind _ _ _ = (_, _, _) |- _ =>
      apply bind_inv in H;
      destruct H as [(? & ? & ? & ? & ? & H & ?) | (? & H & ?)]
  | H : try_catch _ _ _ = (_, _, _) |- _ =>
      apply try_catch_inv in H;
      destruct H as [(? & H & ?) | (? & ? & ? & ? & ? & H & ?)]
  | H : perform _ _ _ = (_, _, _) |- _ =>
      apply perform_inv in H; destruct H as [H ?]
  | H : ret _ _ = (_, _, _) |- _ =>
      apply ret_inv in H; destruct H as (? & ? & ?)
  | H : throw _ _ = (_, _, _) |- _ =>
      apply throw_inv in H; destruct H as (? & ? & ?)
  | H : (_, _) = (_, _) |- _ => inversion H; clear H
  | H : Ok _ = Ok _ |- _ => inversion H; clear H
  | H : Throw _ = Throw _ |- _ => inversion H; clear H
  | H : Ok _ = Throw _ |- _ => discriminate H
  | H : Throw _ = Ok _ |- _ => discriminate H
  | H : (if ?b then _ else _) _ = (_, _, _) |- _ => destruct b eqn:?
  | H : (let '(_, _) := ?p in _) _ = (_, _, _) |- _ => destruct p eqn:?
  | H : (match ?x with _ => _ end) _ = (_, _, _) |- _ => destruct x eqn:?
  end.

Ltac minv := repeat (minv_step; subst).

(* ================================================================== *)
(** * Facts: JavaScript strings *)
(* ================================================================== *)

Module JsFacts.

Lemma eqb_eq (s t : jsstring) : Js.eqb s t = true <-> s = t.
Proof.
  revert t. induction s as [|a s IH]; intros [|b t]; simpl; split;
    try discriminate; try reflexivity.
  - intros H. apply andb_true_iff in H. destruct H as [Hab Hst].
    apply N.eqb_eq in Hab. apply IH in Hst. subst. reflexivity.
  - intros H. inversion H; subst. apply andb_true_iff. split.
    + apply N.eqb_refl.
    + apply IH. reflexivity.
Qed.

Lemma eqb_refl (s : jsstring) : Js.eqb s s = true.
Proof. apply eqb_eq. reflexivity. Qed.

Lemma startsWith_spec (s p : jsstring) :
  startsWith s p = true <-> exists t, s = p ++ t.
Proof.
  revert s. induction p as [|a p IH]; intros s; simpl.
  - split; [intros _; exists s; reflexivity | reflexivity].
  - destruct s as [|b s].
    + split; [discriminate | intros [t Ht]; discriminate].
    + rewrite andb_true_iff, IH. unfold code_eqb. rewrite N.eqb_eq. split.
      * intros [-> [t ->]]. exists t. reflexivity.
      * intros [t Ht]. inversion Ht; subst. split; [reflexivity | eauto].
Qed.

Lemma includes_spec (s x : jsstring) :
  includes s x = true <-> exists a b, s = a ++ x ++ b.
Proof.
  induction s as [|c s IH].
  - simpl. rewrite orb_false_r, startsWith_spec. split.
    + intros [t Ht]. exists [], t. exact Ht.
    + intros [a [b H]]. destruct a; [eauto | discriminate].
  - change (includes (c :: s) x)
      with (startsWith (c :: s) x || includes s x).
    rewrite orb_true_iff, startsWith_spec, IH. split.
    + intros [[t Ht] | [a [b H]]].
      * exists [], t. exact Ht.
      * exists (c :: a), b. rewrite H. reflexivity.
    + intros [[|c' a] [b H]].
      * left. exists b. exact H.
      * right. inversion H; subst. eauto.
Qed.

Lemma includes_false_app (s x pre : jsstring) :
  includes (pre ++ s) x = false -> includes s x = false.
Proof.
  intros H. destruct (includes s x) eqn:Hs; [| reflexivity].
  apply includes_spec in Hs. destruct Hs as [a [b ->]].
  assert (includes (pre ++ a ++ x ++ b) x = true) as H'.
  { apply includes_spec. exists (pre ++ a), b. rewrite app_assoc. reflexivity. }
  rewrite H' in H. discriminate.
Qed.

(** [trimStart] drops a prefix. *)
Lemma trimStart_suffix (s : jsstring) : exists p, s = p ++ trimStart s.
Proof.
  induction s as [|c s [p IH]]; simpl.
  - exists []. reflexivity.
  - destruct (isWhiteSpace c).
    + exists (c :: p). simpl. rewrite <- IH. reflexivity.
    + exists []. reflexivity.
Qed.

(** [trimStart] stops at the latest where a unit that is not white space
    stands. *)
Lemma trimStart_app_keep (u v : jsstring) (c : N) :
  isWhiteSpace c = false ->
  exists u', trimStart (u ++ c :: v) = u' ++ c :: v.
Proof.
  intros Hc. induction u as [|a u [u' IH]]; simpl.
  - rewrite Hc. exists []. reflexivity.
  - destruct (isWhiteSpace a).
    + exists u'. exact IH.
    + exists (a :: u). reflexivity.
Qed.

(** A piece that neither begins nor ends with white space survives [trim]. *)
Lemma includes_trim (s x : jsstring) (c d : N) (mid : jsstring) :
  x = c :: mid -> last x c = d ->
  isWhiteSpace c = false -> isWhiteSpace d = false ->
  includes s x = true -> includes (trim s) x = true.
Proof.
  intros Hx Hlast Hc Hd Hin.
  apply includes_spec in Hin. destruct Hin as [a [b ->]].
  apply includes_spec. unfold trim, trimEnd.
  subst x. destruct (@trimStart_app_keep a (mid ++ b) c Hc) as [a' Ha'].
  simpl. simpl in Ha'. rewrite Ha'.
  assert (exists front, c :: mid = front ++ [d]) as [front Hfront].
  { destruct (exists_last (l := c :: mid)) as [front [z Hz]]; [discriminate|].
    exists front. rewrite Hz in Hlast. rewrite last_last in Hlast.
    subst z. exact Hz. }
  replace (a' ++ c :: mid ++ b) with ((a' ++ front) ++ d :: b).
  2:{ rewrite <- app_assoc. change (c :: mid ++ b) with ((c :: mid) ++ b).
      rewrite Hfront. rewrite <- app_assoc. reflexivity. }
  rewrite rev_app_distr. simpl. rewrite <- app_assoc. simpl.
  destruct (@trimStart_app_keep (rev b) (rev (a' ++ front)) d Hd) as [b' Hb'].
  rewrite Hb'. rewrite rev_app_distr. simpl. rewrite rev_involutive.
  exists a', (rev b').
  rewrite <- !app_assoc. simpl.
  change (c :: mid ++ rev b') with ((c :: mid) ++ rev b').
  rewrite Hfront. rewrite <- !app_assoc. reflexivity.
Qed.

End JsFacts.

(* ================================================================== *)
(** * Facts: the session service *)
(* ================================================================== *)

Module SessionServiceFacts.
Import SessionService.

Ltac count_simpl :=
  repeat first [rewrite count_app | rewrite count_cons | rewrite count_nil];
  simpl.

(** Settles goals on counts from the counts known of the pieces. *)
Ltac count_solve :=
  count_simpl;
  repeat match goal with
         | H : count _ _ = _ |- _ => rewrite !H
         end;
  simpl; repeat split; first [reflexivity | lia].

Lemma count_retries (p : Call -> bool) (o : DockerRunOptions) (k : nat) :
  count p (retries o k)
  = k * ((if p (Run o) then 1 else 0) + (if p (Sleep 5000) then 1 else 0)).
Proof.
  induction k as [|k IH]; [reflexivity|].
  unfold retries in *. simpl repeat. simpl concat.
  change (Run o :: Sleep 5000 :: concat (repeat [Run o; Sleep 5000] k))
    with ([Run o; Sleep 5000] ++ concat (repeat [Run o; Sleep 5000] k)).
  rewrite count_app, IH. count_simpl. lia.
Qed.

Lemma retries_S (o : DockerRunOptions) (k : nat) :
  retries o (S k) = [Run o; Sleep 5000] ++ retries o k.
Proof. reflexivity. Qed.

Section Facts.
Context {W : Type}.
Variable cfg : Config.
Variable E : @Env W.
Variable P : Platform.

Local Abbreviation net := (TTYD_INTERNAL_NETWORK cfg).

Ltac unfold_calls H :=
  unfold findUnique, update, isRunning, run, start_container, restart,
    remove, safeRemove, ensureNetwork, pull, exec, cleanup,
    stat_isDirectory, mkdir, access, writeFile, sleep,
    notifySessionChange, console_warn in H.

(** One turn either sleeps and asks for another turn, which it only
    does before the last attempt, or ends the loop. *)
Lemma createAttempt_spec n o a w r w' l :
  createAttempt cfg E n o a w = (r, w', l) ->
  (r = Ok false /\ l = [Run o; Sleep 5000] /\ a < MAX_LAYER_RETRIES
   /\ exists e w1, dockerService_run E o w = (Throw e, w1)
                   /\ nameConflict e = false /\ layerLocked e = true)
  \/ ((r = Ok true \/ exists e, r = Throw e) /\ last_turn n net o l).
Proof.
  unfold createAttempt. intros H. unfold_calls H. minv; simpl;
    unfold last_turn;
    try solve [right; split; [eauto | tauto]].
  left. repeat split; auto.
  - match goal with
    | Hb : (_ && (a <? _)) = true |- _ =>
        apply andb_true_iff in Hb; destruct Hb as [_ Hlt];
        apply Nat.ltb_lt in Hlt; exact Hlt
    end.
  - match goal with
    | Hb : (_ && (a <? _)) = true |- _ =>
        apply andb_true_iff in Hb; destruct Hb as [Hl _]
    end.
    eexists _, _. split; [eassumption|]. split; assumption.
Qed.

(** What a turn does when [run] meets a layer lock. *)
Lemma createAttempt_locked n o a w e w1 :
  dockerService_run E o w = (Throw e, w1) ->
  nameConflict e = false -> layerLocked e = true ->
  createAttempt cfg E n o a w
  = if a <? MAX_LAYER_RETRIES
    then (Ok false, timer E 5000 w1, [Run o; Sleep 5000])
    else (Throw e, w1, [Run o]).
Proof.
  intros Hrun Hc Hl.
  unfold createAttempt, try_catch, bind, run, sleep, perform, throw, ret.
  rewrite Hrun. unfold nameConflict in Hc. rewrite Hc.
  unfold layerLocked in Hl. rewrite Hl. simpl.
  destruct (a <? MAX_LAYER_RETRIES); reflexivity.
Qed.

Lemma createLoop_launched n o t a w :
  createLoop cfg E n o t a true w = (Ok tt, w, []).
Proof.
  destruct t; simpl; [reflexivity|].
  rewrite andb_false_r. reflexivity.
Qed.

(** The bound on the turns is never what stops the loop: with more
    turns allowed it runs the same. *)
Lemma createLoop_turns n o extra :
  forall t a launched w,
    a + t = S MAX_LAYER_RETRIES ->
    createLoop cfg E n o (t + extra) a launched w
    = createLoop cfg E n o t a launched w.
Proof.
  induction t as [|t IH]; intros a launched w Hat.
  - simpl. destruct extra; simpl; [reflexivity|].
    replace (a <=? MAX_LAYER_RETRIES) with false; [reflexivity|].
    symmetry. apply Nat.leb_gt. lia.
  - simpl. destruct ((a <=? MAX_LAYER_RETRIES) && negb launched);
      [|reflexivity].
    unfold bind. destruct (createAttempt cfg E n o a w) as [[[b|e] w1] l1];
      [|reflexivity].
    rewrite IH by lia. reflexivity.
Qed.

(** The calls of the loop: some turns that slept, at most
    [MAX_LAYER_RETRIES] of them, then one turn that ends it. *)
Lemma createLoop_spec n o :
  forall t a w r w' l,
    a + t = S MAX_LAYER_RETRIES -> a <= MAX_LAYER_RETRIES ->
    createLoop cfg E n o t a false w = (r, w', l) ->
    exists k last,
      a + k <= MAX_LAYER_RETRIES /\ l = retries o k ++ last
      /\ last_turn n net o last /\ (r = Ok tt \/ exists e, r = Throw e).
Proof.
  induction t as [|t IH]; intros a w r w' l Hat Ha H.
  - exfalso. lia.
  - simpl in H.
    replace (a <=? MAX_LAYER_RETRIES) with true in H
      by (symmetry; apply Nat.leb_le; exact Ha).
    simpl in H. apply bind_inv in H.
    destruct H as [(b & w1 & l1 & l2 & Hturn & Hrest & ->) | (e & Hturn & ->)].
    + apply createAttempt_spec in Hturn.
      destruct Hturn as [(Hb & -> & Hlt & _) | ([Hb | [e Hb]] & Hlast)].
      * inversion Hb; subst b.
        apply IH in Hrest; [| lia | lia].
        destruct Hrest as (k & last & Hk & -> & Hlast & Hr).
        exists (S k), last. rewrite retries_S.
        split; [lia|]. split; [|split; [exact Hlast | exact Hr]].
        rewrite <- app_assoc. reflexivity.
      * inversion Hb; subst b. rewrite createLoop_launched in Hrest.
        inversion Hrest; subst.
        exists 0, l1. rewrite app_nil_r.
        split; [lia|]. split; [reflexivity|].
        split; [exact Hlast | left; reflexivity].
      * discriminate Hb.
    + apply createAttempt_spec in Hturn.
      destruct Hturn as [(Hb & _) | (_ & Hlast)]; [discriminate Hb|].
      exists 0, l. split; [lia|]. split; [reflexivity|].
      split; [exact Hlast | right; eauto].
Qed.

(** When every [run] meets a layer lock, the loop uses all its turns. *)
Lemma createLoop_all_locked n o :
  (forall w0, exists e w1,
      dockerService_run E o w0 = (Throw e, w1)
      /\ nameConflict e = false /\ layerLocked e = true) ->
  forall t a w,
    a + t = S MAX_LAYER_RETRIES -> a <= MAX_LAYER_RETRIES ->
    calls (createLoop cfg E n o t a false w)
    = retries o (MAX_LAYER_RETRIES - a) ++ [Run o]
    /\ exists e, outcome (createLoop cfg E n o t a false w) = Throw e
                 /\ layerLocked e = true.
Proof.
  intros Hlocked. induction t as [|t IH]; intros a w Hat Ha.
  - exfalso. lia.
  - cbn [createLoop].
    replace (a <=? MAX_LAYER_RETRIES) with true
      by (symmetry; apply Nat.leb_le; exact Ha).
    cbn [andb negb]. destruct (Hlocked w) as (e & w1 & Hrun & Hc & Hl).
    unfold bind. rewrite (createAttempt_locked n o a w e w1 Hrun Hc Hl).
    destruct (a <? MAX_LAYER_RETRIES) eqn:Hlt.
    + apply Nat.ltb_lt in Hlt.
      destruct (IH (S a) (timer E 5000 w1)) as [Hcalls (e' & Hout & Hl')];
        [lia | lia |].
      destruct (createLoop cfg E n o t (S a) false (timer E 5000 w1))
        as [[r2 w2] l2].
      unfold calls, outcome in *. cbn [fst snd] in *. subst l2. split.
      * replace (MAX_LAYER_RETRIES - a) with (S (MAX_LAYER_RETRIES - S a))
          by lia.
        rewrite retries_S, <- app_assoc. reflexivity.
      * exists e'. auto.
    + apply Nat.ltb_ge in Hlt.
      replace (MAX_LAYER_RETRIES - a) with 0 by lia.
      unfold calls, outcome. cbn [fst snd]. split; [reflexivity | eauto].
Qed.

Lemma quiet_nil : quiet [].
Proof. repeat split. Qed.

Ltac quiet_solve :=
  unfold quiet; count_simpl; repeat split; reflexivity.

(** The calls of [start] after its second lookup: the lookup, the
    probe, the container action, and a quiet rest. *)
Lemma start_session_shape userId sessionId options reset w r w' l :
  start_session cfg E P userId sessionId options reset w = (r, w', l) ->
  let q := {| where_id := sessionId; where_userId := userId;
              where_status_in := None |} in
  let n := fst (utils_sessionContainerNames P sessionId) in
  exists rs w1,
    db_terminalSession_findUnique E q w = (rs, w1)
    /\ ((l = [FindUnique q] /\ (exists e, r = Throw e)
         /\ match rs with
            | Ok (Some s) => Js.eqb (status s) #"stopped" = true
            | _ => True
            end)
        \/ exists s rp w2,
            rs = Ok (Some s) /\ Js.eqb (status s) #"stopped" = false
            /\ dockerService_isRunning E n w1 = (rp, w2)
            /\ ((l = [FindUnique q; IsRunning n] /\ exists e, rp = Throw e)
                \/ exists probe rb w3 lb lt,
                    rp = Ok probe
                    /\ container_action cfg E P userId n options reset
                                        probe w2 = (rb, w3, lb)
                    /\ l = [FindUnique q; IsRunning n] ++ lb ++ lt
                    /\ quiet lt
                    /\ (r = Ok {| started_containerName := Some n |}
                        \/ exists e, r = Throw e)
                    /\ (forall e, rb = Throw e -> lt = [] /\ r = Throw e))).
Proof.
  intros H q n. unfold start_session in H.
  fold q n in H.
  change (match ?x with
          | Some r0 => if reset then restart E n
                       else if negb r0 then start_container E n else ret tt
          | None => createContainer cfg E P userId n options
          end) with (container_action cfg E P userId n options reset x) in H.
  unfold findUnique in H.
  apply bind_inv in H.
  destruct H as [(os & w1 & l1 & l2 & Hdb & H & ->) | (e & Hdb & ->)];
    apply perform_inv in Hdb; destruct Hdb as [Hdb ->].
  2:{ eexists _, _. split; [exact Hdb|]. left. eauto. }
  eexists _, _. split; [exact Hdb|].
  destruct os as [s|].
  2:{ apply throw_inv in H. destruct H as (-> & -> & ->). left. eauto. }
  destruct (Js.eqb (status s) #"stopped") eqn:Hst.
  { apply throw_inv in H. destruct H as (-> & -> & ->). left. eauto. }
  right. exists s.
  unfold isRunning at 1 in H.
  apply bind_inv in H.
  destruct H as [(probe & w2 & l3 & l4 & Hp & H & ->) | (e & Hp & ->)];
    apply perform_inv in Hp; destruct Hp as [Hp ->].
  2:{ eexists _, _. split; [reflexivity|]. split; [exact Hst|].
      split; [exact Hp|]. left. eauto. }
  eexists _, _. split; [reflexivity|]. split; [exact Hst|].
  split; [exact Hp|]. right. exists probe.
  apply bind_inv in H.
  destruct H as [(u & w3 & lb & lt & Hb & H & ->) | (e & Hb & ->)].
  2:{ eexists _, _, _, []. split; [reflexivity|]. split; [exact Hb|].
      rewrite app_nil_r. split; [reflexivity|]. split; [apply quiet_nil|].
      split; [right; eauto |].
      intros e' He'. inversion He'; subst. auto. }
  eexists _, _, lb, lt. split; [reflexivity|]. split; [exact Hb|].
  split; [reflexivity|].
  unfold_calls H.
  assert (quiet lt /\ (r = Ok {| started_containerName := Some n |}
                       \/ exists e, r = Throw e)) as [Hq Hr].
  { minv; (split; [quiet_solve | eauto]). }
  split; [exact Hq|]. split; [exact Hr|].
  intros e He. discriminate He.
Qed.

Lemma resolveWorkspaceMount_quiet suffix w r w' l :
  resolveWorkspaceMount cfg E P suffix w = (r, w', l) -> quiet l.
Proof.
  unfold resolveWorkspaceMount. intros H. unfold_calls H.
  minv; quiet_solve.
Qed.

Lemma buildAgentMounts_quiet userId w r w' l :
  buildAgentMounts cfg E P userId w = (r, w', l) -> quiet l.
Proof.
  unfold buildAgentMounts, ensureClaudeState, ensureAgentsConfig.
  intros H. unfold_calls H. minv; quiet_solve.
Qed.

(** The branch for a missing container: either a preparatory step
    throws before any [run], or the preparation is followed by the
    create loop. *)
Lemma createContainer_spec userId n options w r w' l :
  createContainer cfg E P userId n options w = (r, w', l) ->
  (count is_Run l = 0 /\ count is_Restart l = 0 /\ count is_Sleep l = 0
   /\ exists e, r = Throw e)
  \/ exists pre o k last,
      l = pre ++ retries o k ++ last
      /\ k <= MAX_LAYER_RETRIES /\ last_turn n net o last
      /\ count is_Run pre = 0 /\ count is_Restart pre = 0
      /\ count is_Pull pre = 1 /\ count is_EnsureNetwork pre = 1
      /\ count is_Sleep pre = 0
      /\ prepared cfg E P userId options pre o
      /\ (r = Ok tt \/ exists e, r = Throw e).
Proof.
  unfold createContainer. intros H.
  apply bind_inv in H.
  destruct H as [(wm & w1 & lws & l2 & Hws & H & ->) | (e & Hws & ->)].
  all: pose proof (resolveWorkspaceMount_quiet _ _ _ _ _ Hws)
    as (Hw1 & Hw2 & Hw3 & Hw4 & Hw5).
  2:{ left. repeat split; eauto. }
  apply bind_inv in H.
  destruct H as [(ms & w2 & lm & l3 & Hm & H & ->) | (e & Hm & ->)];
    pose proof (buildAgentMounts_quiet _ _ _ _ _ Hm)
    as (Hm1 & Hm2 & Hm3 & Hm4 & Hm5).
  2:{ left. split; [count_solve|]. split; [count_solve|].
      split; [count_solve | eauto]. }
  unfold ensureNetwork at 1 in H. apply bind_inv in H.
  destruct H as [(u1 & w3 & l4 & l5 & Hn & H & ->) | (e & Hn & ->)];
    apply perform_inv in Hn; destruct Hn as [Hn ->].
  2:{ left. split; [count_solve|]. split; [count_solve|].
      split; [count_solve | eauto]. }
  unfold pull at 1 in H. apply bind_inv in H.
  destruct H as [(u2 & w4 & l6 & l7 & Hp & H & ->) | (e & Hp & ->)];
    apply perform_inv in Hp; destruct Hp as [Hp ->].
  2:{ left. split; [count_solve|]. split; [count_solve|].
      split; [count_solve | eauto]. }
  apply createLoop_spec in H; [| reflexivity | unfold MAX_LAYER_RETRIES; lia].
  destruct H as (k & last & Hk & -> & Hlast & Hr).
  right.
  exists (lws ++ lm ++ [EnsureNetwork net true] ++ [Pull (IMAGE cfg)]).
  eexists _, k, last.
  split; [rewrite <- !app_assoc; reflexivity|].
  split; [exact Hk|]. split; [exact Hlast|].
  split; [count_solve|]. split; [count_solve|].
  split; [count_solve|]. split; [count_solve|].
  split; [count_solve|].
  split; [|exact Hr].
  unfold prepared. split; [|split; [reflexivity|split]].
  - exists w, wm, w1, lws, ms, w2, lm. split; [exact Hws|].
    split; [exact Hm|].
    split; [rewrite app_assoc; apply incl_appl, incl_refl|].
    reflexivity.
  - apply in_or_app. right. apply in_or_app. right. simpl. auto.
  - apply in_or_app. right. apply in_or_app. right. simpl. auto.
Qed.

Lemma last_turn_counts n o last :
  last_turn n net o last ->
  1 <= count is_Run last <= 2 /\ count is_Restart last = 0
  /\ count is_Sleep last = 0 /\ count is_Pull last = 0.
Proof.
  unfold last_turn.
  intros [-> | [-> | [-> | [-> | ->]]]]; count_simpl; lia.
Qed.

Lemma count_zero_not_In (p : Call -> bool) (l : list Call) (c : Call) :
  count p l = 0 -> In c l -> p c = false.
Proof.
  induction l as [|x l IH]; intros Hc Hin; [destruct Hin|].
  rewrite count_cons in Hc. destruct Hin as [-> | Hin].
  - destruct (p c); [discriminate | reflexivity].
  - apply IH; [|exact Hin]. destruct (p x); [discriminate | exact Hc].
Qed.

Lemma In_Run_retries o o' k : In (Run o) (retries o' k) -> o = o'.
Proof.
  induction k as [|k IH]; [intros []|].
  rewrite retries_S. simpl. intros [H | [H | H]].
  - inversion H. reflexivity.
  - discriminate H.
  - exact (IH H).
Qed.

Lemma In_Run_last_turn n o o' last :
  last_turn n net o' last -> In (Run o) last -> o = o'.
Proof.
  unfold last_turn.
  intros [-> | [-> | [-> | [-> | ->]]]] Hin; simpl in Hin;
    repeat match goal with
           | H : _ \/ _ |- _ => destruct H as [H | H]
           | H : False |- _ => destruct H
           | H : Run _ = Run _ |- _ => inversion H; reflexivity
           | H : _ = Run _ |- _ => discriminate H
           end.
Qed.

Lemma prepared_mono userId options l1 l1' o :
  prepared cfg E P userId options l1 o -> incl l1 l1' ->
  prepared cfg E P userId options l1' o.
Proof.
  unfold prepared.
  intros [(w0 & wm & w1 & lws & ms & w2 & lm & Hws & Hm & Hincl & Hmounts)
            (He & Hn & Hp)] Hsub.
  split; [|split; [exact He | split; apply Hsub; assumption]].
  exists w0, wm, w1, lws, ms, w2, lm. split; [exact Hws|].
  split; [exact Hm|]. split; [eapply incl_tran; eassumption | exact Hmounts].
Qed.

(** The calls of the whole of [start]: either no [run] at all, or a
    prefix without [run] that holds the preparation, then the create
    loop, then a quiet rest. *)
Lemma start_runs_shape userId sessionId options w r w' l :
  start cfg E P userId sessionId options w = (r, w', l) ->
  let n := fst (utils_sessionContainerNames P sessionId) in
  count is_Run l = 0
  \/ exists pre o k last lt,
      l = pre ++ retries o k ++ last ++ lt
      /\ k <= MAX_LAYER_RETRIES /\ last_turn n net o last
      /\ count is_Run pre = 0 /\ count is_Restart pre = 0
      /\ count is_Pull pre = 1 /\ count is_EnsureNetwork pre = 1
      /\ count is_Sleep pre = 0
      /\ prepared cfg E P userId options pre o /\ quiet lt.
Proof.
  intros H n.
  assert (forall reset w0 r0 w0' ls,
             start_session cfg E P userId sessionId options reset w0
             = (r0, w0', ls) ->
             count is_Run ls = 0
             \/ exists pre o k last lt,
                 ls = pre ++ retries o k ++ last ++ lt
                 /\ k <= MAX_LAYER_RETRIES /\ last_turn n net o last
                 /\ count is_Run pre = 0 /\ count is_Restart pre = 0
                 /\ count is_Pull pre = 1 /\ count is_EnsureNetwork pre = 1
                 /\ count is_Sleep pre = 0
                 /\ prepared cfg E P userId options pre o /\ quiet lt) as Hsession.
  { intros reset w0 r0 w0' ls Hs.
    apply start_session_shape in Hs. fold n in Hs.
    destruct Hs as (rs & w1 & Hdb & [(-> & _) | Hs]); [left; reflexivity|].
    destruct Hs as (s & rp & w2 & -> & Hst & Hp & [(-> & _) | Hs]);
      [left; reflexivity|].
    destruct Hs as (probe & rb & w3 & lb & lt & -> & Hb & -> & Hq & _).
    destruct Hq as (Hq1 & Hq2 & Hq3 & Hq4 & Hq5).
    destruct probe as [b|]; simpl in Hb.
    - left. unfold restart, start_container in Hb. minv; count_solve.
    - apply createContainer_spec in Hb.
      destruct Hb as [(Hb1 & _) | Hb]; [left; count_solve|].
      destruct Hb as (pre & o & k & last & -> & Hk & Hlast & Hc1 & Hc2
                          & Hc3 & Hc4 & Hc5 & Hprep & _).
      right.
      exists ([FindUnique {| where_id := sessionId; where_userId := userId;
                             where_status_in := None |}; IsRunning n] ++ pre).
      exists o, k, last, lt.
      split; [rewrite <- !app_assoc; reflexivity|].
      split; [exact Hk|]. split; [exact Hlast|].
      split; [count_solve|]. split; [count_solve|].
      split; [count_solve|]. split; [count_solve|].
      split; [count_solve|].
      split; [|unfold quiet; auto].
      eapply prepared_mono; [exact Hprep|].
      apply incl_appr, incl_refl. }
  unfold start in H.
  destruct (negb
              match options with
              | Some o => match reset o with Some b => b | None => false end
              | None => false
              end) eqn:Hreset.
  - unfold findUnique at 1 in H. apply bind_inv in H.
    destruct H as [(ex & w1 & l1 & l2 & Hq & H & ->) | (e & Hq & ->)];
      apply perform_inv in Hq; destruct Hq as [Hq ->];
      [|left; reflexivity].
    destruct ex as [s|].
    + apply ret_inv in H. destruct H as (_ & _ & ->). left. reflexivity.
    + apply Hsession in H. destruct H as [H | H]; [left; count_solve|].
      destruct H as (pre & o & k & last & lt & -> & Hk & Hlast & Hc1 & Hc2
                         & Hc3 & Hc4 & Hc5 & Hprep & Hquiet).
      right. eexists (_ :: pre), o, k, last, lt.
      split; [reflexivity|].
      split; [exact Hk|]. split; [exact Hlast|].
      split; [count_solve|]. split; [count_solve|].
      split; [count_solve|]. split; [count_solve|].
      split; [count_solve|]. split; [|exact Hquiet].
      eapply prepared_mono; [exact Hprep|]. apply incl_tl, incl_refl.
  - apply Hsession in H. exact H.
Qed.

Lemma createLoop_first_ok n o t w w1 :
  dockerService_run E o w = (Ok tt, w1) ->
  createLoop cfg E n o (S t) 0 false w = (Ok tt, w1, [Run o]).
Proof.
  intros Hrun. cbn [createLoop Nat.leb andb negb].
  unfold createAttempt, try_catch, bind, run, perform, ret.
  rewrite Hrun. rewrite createLoop_launched. reflexivity.
Qed.

(** C1.  A [start] with [reset: true] on a session that exists
    and is not stopped, once the probe of its container has answered:
    when the container exists, [restart] is called exactly once and
    [run] is not called; when it is missing, [restart] is not called and
    [run] is called at most [MAX_LAYER_RETRIES + 2 = 7] times (six turns
    of the create loop and the second [run] of the conflict recovery),
    and at least once whenever [start] returns normally. *)
Theorem start_reset_calls userId sessionId options w s w1 rp w2 :
  reset_of options = true ->
  db_terminalSession_findUnique E
    {| where_id := sessionId; where_userId := userId;
       where_status_in := None |} w = (Ok (Some s), w1) ->
  Js.eqb (status s) #"stopped" = false ->
  dockerService_isRunning E (fst (utils_sessionContainerNames P sessionId))
                          w1 = (Ok rp, w2) ->
  let x := start cfg E P userId sessionId options w in
  match rp with
  | Some _ => count is_Restart (calls x) = 1 /\ count is_Run (calls x) = 0
  | None =>
      count is_Restart (calls x) = 0
      /\ count is_Run (calls x) <= MAX_LAYER_RETRIES + 2
      /\ (forall res, outcome x = Ok res -> 1 <= count is_Run (calls x))
  end.
Proof.
  intros Hreset Hdb Hst Hprobe x. subst x.
  unfold start. unfold reset_of in Hreset. rewrite Hreset. cbn [negb].
  destruct (start_session cfg E P userId sessionId options true w)
    as [[r w'] l] eqn:H.
  unfold calls, outcome. cbn [fst snd].
  apply start_session_shape in H.
  destruct H as (rs & w1' & Hdb' & H). rewrite Hdb in Hdb'.
  inversion Hdb'; subst rs w1'. clear Hdb'.
  destruct H as [(_ & _ & Hst') | H]; [rewrite Hst in Hst'; discriminate|].
  destruct H as (s0 & rp0 & w2' & Hs & _ & Hp & H).
  inversion Hs; subst s0. clear Hs.
  rewrite Hprobe in Hp. inversion Hp; subst rp0 w2'. clear Hp.
  destruct H as [(_ & e & He) | H]; [discriminate He|].
  destruct H as (probe & rb & w3 & lb & lt & Hpr & Hb & -> & Hq & Hr & Hthrow).
  inversion Hpr; subst probe. clear Hpr.
  destruct Hq as (Hq1 & Hq2 & Hq3 & Hq4 & Hq5).
  destruct rp as [b|]; simpl in Hb.
  - unfold restart in Hb. apply perform_inv in Hb. destruct Hb as [_ ->].
    split; count_solve.
  - apply createContainer_spec in Hb.
    destruct Hb as [(Hb1 & Hb2 & Hb3 & e & ->) | Hb].
    + destruct (Hthrow e eq_refl) as [-> ->].
      split; [count_solve|]. split; [count_solve|].
      intros res Hres. discriminate Hres.
    + destruct Hb as (pre & o & k & last & -> & Hk & Hlast & Hc1 & Hc2
                          & Hc3 & Hc4 & Hc5 & _ & _).
      destruct (last_turn_counts _ _ _ Hlast) as ([Hl1 Hl2] & Hl3 & Hl4 & Hl5).
      pose proof (count_retries is_Run o k) as Hk1.
      pose proof (count_retries is_Restart o k) as Hk2.
      simpl in Hk1, Hk2.
      split; [|split; [|intros res _]].
      * count_simpl. rewrite Hc2, Hk2, Hl3, Hq2. lia.
      * count_simpl. rewrite Hc1, Hk1, Hq1.
        unfold MAX_LAYER_RETRIES in *. lia.
      * count_simpl. rewrite Hc1, Hk1, Hq1. lia.
Qed.

(** Every [run] of [start] comes after the preparation. *)
Lemma start_run_prepared userId sessionId options w l1 o l2 :
  calls (start cfg E P userId sessionId options w) = l1 ++ Run o :: l2 ->
  prepared cfg E P userId options l1 o.
Proof.
  destruct (start cfg E P userId sessionId options w) as [[r w'] l] eqn:H.
  unfold calls. cbn [snd]. intros Hl.
  apply start_runs_shape in H. destruct H as [H | H].
  { exfalso. rewrite Hl in H. rewrite count_app, count_cons in H.
    simpl in H. lia. }
  destruct H as (pre & o' & k & last & lt & -> & _ & Hlast & Hc1 & _ & _
                     & _ & _ & Hprep & Hq).
  destruct (split_after_quiet is_Run pre _ l1 l2 (Run o) Hc1 eq_refl Hl)
    as (l1' & -> & Hrest).
  assert (o = o') as ->.
  { assert (In (Run o) (retries o' k ++ last ++ lt)) as Hin.
    { rewrite Hrest. apply in_or_app. right. left. reflexivity. }
    apply in_app_or in Hin. destruct Hin as [Hin | Hin].
    - eapply In_Run_retries; exact Hin.
    - apply in_app_or in Hin. destruct Hin as [Hin | Hin].
      + eapply In_Run_last_turn; eassumption.
      + destruct Hq as (Hq1 & _).
        pose proof (count_zero_not_In is_Run lt (Run o) Hq1 Hin) as Hf.
        discriminate Hf. }
  eapply prepared_mono; [exact Hprep|]. apply incl_appl, incl_refl.
Qed.



Lemma includes_truthy (t x : jsstring) (c : N) (rest : jsstring) :
  x = c :: rest -> includes t x = true -> truthy t = true.
Proof.
  intros -> H. destruct t; [|reflexivity].
  simpl in H. discriminate H.
Qed.

Lemma forbidden_survives_trim (s : jsstring) :
  includes s #".." = true \/ includes s #"/" = true
  \/ includes s #"\" = true ->
  (includes (trim s) #".." || includes (trim s) #"/"
   || includes (trim s) #"\") = true
  /\ truthy (trim s) = true.
Proof.
  intros [H | [H | H]].
  - apply (JsFacts.includes_trim s #".." 46%N 46%N [46%N]) in H;
      try reflexivity.
    rewrite H. split; [reflexivity|].
    eapply includes_truthy; [|exact H]. reflexivity.
  - apply (JsFacts.includes_trim s #"/" 47%N 47%N []) in H;
      try reflexivity.
    rewrite H, orb_true_r. split; [reflexivity|].
    eapply includes_truthy; [|exact H]. reflexivity.
  - apply (JsFacts.includes_trim s #"\" 92%N 92%N []) in H;
      try reflexivity.
    rewrite H, !orb_true_r. split; [reflexivity|].
    eapply includes_truthy; [|exact H]. reflexivity.
Qed.


(** C5.  What [stop] returns.  An error of [safeRemove] on the
    ingress helper leaves [stop] as it is; the cleanup of the ingress
    configuration never makes [stop] throw.  After that [stop] always
    returns a result: [removed: false] without [error] when the removal
    of the agent container fails with [No such container] in its
    stderr; [removed: false] with an [error] that says the container
    still exists when the removal returns and the probe still finds the
    container; [removed: true] when the probe finds it gone. *)
Theorem stop_result sessionId w :
  let agentContainer := fst (utils_sessionContainerNames P sessionId) in
  let ingressContainer := snd (utils_sessionContainerNames P sessionId) in
  let x := stop E P sessionId w in
  let r1 := dockerService_safeRemove E ingressContainer w in
  match fst r1 with
  | Throw e => outcome x = Throw e /\ calls x = [SafeRemove ingressContainer]
  | Ok _ =>
      let w2 := snd (ingressService_cleanup E sessionId (snd r1)) in
      let r3 := dockerService_remove E agentContainer w2 in
      let failed e :=
        {| removed := false; stopped_containerName := agentContainer;
           error := if includes (stderr_of e) #"No such container"
                    then None
                    else Some (if instanceofError e then message_of e
                               else #"Unexpected error.") |} in
      match fst r3 with
      | Throw e => outcome x = Ok (failed e)
      | Ok _ =>
          match fst (dockerService_isRunning E agentContainer (snd r3)) with
          | Ok (Some _) =>
              outcome x
              = Ok {| removed := false;
                      stopped_containerName := agentContainer;
                      error := Some
                        #"Container still exists after removal attempt." |}
          | Ok None =>
              outcome x
              = Ok {| removed := true;
                      stopped_containerName := agentContainer;
                      error := None |}
          | Throw e => outcome x = Ok (failed e)
          end
      end
  end.
Proof.
  intros agentContainer ingressContainer x r1. subst x r1.
  unfold stop.
  rewrite (surjective_pairing (utils_sessionContainerNames P sessionId)).
  fold agentContainer ingressContainer.
  unfold bind, try_catch, safeRemove, cleanup, remove, isRunning, perform,
    ret, outcome, calls.
  destruct (dockerService_safeRemove E ingressContainer w) as [[u|e] w1];
    cbn [fst snd]; [|split; reflexivity].
  destruct (ingressService_cleanup E sessionId w1) as [[u2|e2] w2];
    cbn [fst snd];
    (destruct (dockerService_remove E agentContainer w2) as [[u3|e3] w3];
     cbn [fst snd];
     [destruct (dockerService_isRunning E agentContainer w3)
        as [[[b|]|e4] w4]; cbn [fst snd]; try reflexivity;
      destruct (includes (stderr_of e4) #"No such container"); reflexivity
     |destruct (includes (stderr_of e3) #"No such container"); reflexivity]).
Qed.

End Facts.

(** ** The theorems at work on scripted worlds *)

Lemma start_reset_calls_witness :
  let x := start (config None None) (scripted cold) posix #"u1" #"s1"
                 with_reset fresh in
  count is_Restart (calls x) = 0
  /\ count is_Run (calls x) <= MAX_LAYER_RETRIES + 2
  /\ (forall res, outcome x = Ok res -> 1 <= count is_Run (calls x)).
Proof.
  exact (start_reset_calls (config None None) (scripted cold) posix
           #"u1" #"s1" with_reset fresh _ _ None _
           eq_refl eq_refl eq_refl eq_refl).
Defined.

(** With [reset: true], a missing container and a first [run] that meets
    a layer lock, [start] calls [run] twice and [restart] not at all. *)
Lemma start_reset_runs_twice :
  let x := start (config None None) (scripted locked_once) posix #"u1" #"s1"
                 with_reset fresh in
  outcome x = Ok {| started_containerName := Some #"oc-sess-s1" |}
  /\ count is_Restart (calls x) = 0 /\ count is_Run (calls x) = 2
  /\ ~ (count is_Restart (calls x) = 1 \/ count is_Run (calls x) = 1).
Proof.
  vm_compute. repeat split. intros [H | H]; discriminate H.
Qed.






(** [stop] throws when [safeRemove] reports an error for the ingress
    helper. *)
Lemma stop_throws :
  let x := stop (scripted daemon_down) posix #"s1" fresh in
  outcome x = Throw daemon_error
  /\ calls x = [SafeRemove #"oc-ingress-s1"].
Proof. vm_compute. split; reflexivity. Qed.

End SessionServiceFacts.

(* ================================================================== *)
(** * Facts: the client hooks *)
(* ================================================================== *)

Module PresenceHookFacts.
Import PresenceHook.

(** C8.  [computeStatus] is [active] exactly below 30 s since the last
    interaction, [viewing] exactly from 30 s up to but not including
    120 s, and [inactive] from 120 s on; 30 s sharp is [viewing] and
    120 s sharp is [inactive]; and the status never moves back towards
    [active] as time passes. *)
Theorem computeStatus_thresholds (now lastInteractionMs : Z) :
  let elapsed := (now - lastInteractionMs)%Z in
  (computeStatus now lastInteractionMs = active <-> (elapsed < 30000)%Z)
  /\ (computeStatus now lastInteractionMs = viewing
      <-> (30000 <= elapsed < 120000)%Z)
  /\ (computeStatus now lastInteractionMs = inactive
      <-> (120000 <= elapsed)%Z)
  /\ computeStatus (lastInteractionMs + 30000) lastInteractionMs = viewing
  /\ computeStatus (lastInteractionMs + 120000) lastInteractionMs = inactive
  /\ (forall later,
         (now <= later)%Z ->
         rank (computeStatus now lastInteractionMs)
         <= rank (computeStatus later lastInteractionMs)).
Proof.
  intros elapsed. subst elapsed.
  unfold computeStatus, ACTIVE_THRESHOLD_MS, VIEWING_THRESHOLD_MS.
  repeat split.
  - destruct (Z.ltb_spec (now - lastInteractionMs) 30000); [lia|].
    destruct (Z.ltb_spec (now - lastInteractionMs) (2 * 60000));
      discriminate.
  - intros H. destruct (Z.ltb_spec (now - lastInteractionMs) 30000);
      [reflexivity | lia].
  - destruct (Z.ltb_spec (now - lastInteractionMs) 30000);
      [discriminate | lia].
  - destruct (Z.ltb_spec (now - lastInteractionMs) 30000); [discriminate|].
    destruct (Z.ltb_spec (now - lastInteractionMs) (2 * 60000));
      [lia | discriminate].
  - intros [H1 H2].
    destruct (Z.ltb_spec (now - lastInteractionMs) 30000); [lia|].
    destruct (Z.ltb_spec (now - lastInteractionMs) (2 * 60000));
      [reflexivity | lia].
  - destruct (Z.ltb_spec (now - lastInteractionMs) 30000); [discriminate|].
    destruct (Z.ltb_spec (now - lastInteractionMs) (2 * 60000));
      [discriminate | lia].
  - intros H. destruct (Z.ltb_spec (now - lastInteractionMs) 30000); [lia|].
    destruct (Z.ltb_spec (now - lastInteractionMs) (2 * 60000));
      [lia | reflexivity].
  - replace (lastInteractionMs + 30000 - lastInteractionMs)%Z with 30000%Z
      by lia.
    reflexivity.
  - replace (lastInteractionMs + 120000 - lastInteractionMs)%Z with 120000%Z
      by lia.
    reflexivity.
  - intros later Hle.
    destruct (Z.ltb_spec (now - lastInteractionMs) 30000);
      destruct (Z.ltb_spec (now - lastInteractionMs) (2 * 60000));
      destruct (Z.ltb_spec (later - lastInteractionMs) 30000);
      destruct (Z.ltb_spec (later - lastInteractionMs) (2 * 60000));
      simpl; lia.
Qed.

Lemma computeStatus_thresholds_witness :
  rank (computeStatus 1029999 1000000) <= rank (computeStatus 1030000 1000000).
Proof.
  apply (computeStatus_thresholds 1029999 1000000). lia.
Defined.

End PresenceHookFacts.

Module SessionsHookFacts.
Import SessionsHook.

Lemma some_id_spec (newSession : SessionEntry) (arr : list SessionEntry) :
  existsb (fun s => Js.eqb (id s) (id newSession)) arr = true
  <-> exists s, In s arr /\ id s = id newSession.
Proof.
  rewrite existsb_exists. split; intros [s [Hin H]]; exists s; split; auto.
  - apply JsFacts.eqb_eq. exact H.
  - apply JsFacts.eqb_eq. exact H.
Qed.

(** C10.  [addSession] leaves the list as it is, the very same array,
    when a session with the id of the new one is already in it, and
    otherwise returns a new array that is the list with the new session
    appended at its end; adding the same session twice is the same as
    adding it once. *)
Theorem addSession_idempotent (newSession : SessionEntry) (prev : Ref)
        (h : Heap) :
  let arr := deref h prev in
  ((exists s, In s arr /\ id s = id newSession) ->
   addSession newSession prev h = (prev, h)
   /\ addSession_value newSession arr = arr)
  /\ ((forall s, In s arr -> id s <> id newSession) ->
      fst (addSession newSession prev h) = length h
      /\ deref (snd (addSession newSession prev h))
               (fst (addSession newSession prev h)) = arr ++ [newSession]
      /\ (forall r, r < length h ->
                    deref (snd (addSession newSession prev h)) r = deref h r)
      /\ addSession_value newSession arr = arr ++ [newSession])
  /\ addSession_value newSession (addSession_value newSession arr)
     = addSession_value newSession arr.
Proof.
  intros arr. unfold addSession, addSession_value. fold arr.
  destruct (existsb (fun s => Js.eqb (id s) (id newSession)) arr) eqn:Hsome.
  - split; [auto|]. split; [|rewrite Hsome; reflexivity].
    intros Hnone. apply some_id_spec in Hsome.
    destruct Hsome as [s [Hin Hid]]. exfalso. exact (Hnone s Hin Hid).
  - split.
    + intros Hex. apply some_id_spec in Hex. rewrite Hex in Hsome.
      discriminate Hsome.
    + split.
      * intros _. cbn [fst snd]. unfold deref.
        split; [reflexivity|]. split; [|split; [|reflexivity]].
        -- rewrite app_nth2 by lia. rewrite Nat.sub_diag. reflexivity.
        -- intros r Hr. apply app_nth1. exact Hr.
      * rewrite existsb_app. simpl. rewrite JsFacts.eqb_refl.
        rewrite orb_true_r. reflexivity.
Qed.

Lemma addSession_idempotent_witness :
  addSession (entry #"s2") 0 [[entry #"s1"; entry #"s2"]]
  = (0, [[entry #"s1"; entry #"s2"]])
  /\ addSession_value (entry #"s2") [entry #"s1"; entry #"s2"]
     = [entry #"s1"; entry #"s2"].
Proof.
  apply (addSession_idempotent (entry #"s2") 0 [[entry #"s1"; entry #"s2"]]).
  exists (entry #"s2"). split; [right; left; reflexivity | reflexivity].
Defined.

End SessionsHookFacts.

(* ================================================================== *)
(** * Facts: the terminal proxy *)
(* ================================================================== *)

Module TerminalProxyFacts.
Import TerminalProxy.

Ltac count_simpl :=
  repeat first [rewrite count_app | rewrite count_cons | rewrite count_nil];
  simpl.

Section Connect.
Context {W : Type}.
Variable E : @Env W.
Variable cfg : Config.

(** An attempt comes back with [null] after the four calls of a failed
    attempt; otherwise it makes the calls of an attempt and ends the loop. *)
Lemma tryOnce_spec name port protocols w r w' l :
  tryOnce E cfg name port protocols w = (r, w', l) ->
  (r = Ok None /\ exists p, l = failed_attempt cfg name port protocols p)
  \/ (((exists ws, r = Ok (Some ws)) \/ exists e, r = Throw e)
      /\ attempt_calls cfg name port protocols l).
Proof.
  unfold tryOnce, direct_url, loopback_url. intros H.
  unfold attempt_calls, failed_attempt, direct_attempt, loopback_attempt.
  minv;
    first
      [ solve [left; split; [reflexivity | eexists; reflexivity]]
      | solve [right; split;
               [ first [left; eexists; reflexivity
                       | right; eexists; reflexivity]
               | first [ left; reflexivity
                       | right; left; reflexivity
                       | right; right; left; eexists; reflexivity
                       | right; right; right; eexists; reflexivity ] ] ] ].
Qed.

Lemma failed_attempts_cons name port protocols d p ports :
  failed_attempts cfg name port protocols d (p :: ports)
  = failed_attempt cfg name port protocols p ++ [Sleep d]
    ++ failed_attempts cfg name port protocols d ports.
Proof. unfold failed_attempts. simpl. reflexivity. Qed.

(** The calls of the loop: failed attempts, each followed by the pause,
    then one last attempt; no more attempts than [maxAttempts]. *)
Lemma connectLoop_spec name port protocols max d :
  forall t a w r w' l,
    a + t = S max -> 1 <= a <= max ->
    connectLoop E cfg name port protocols max d t a w = (r, w', l) ->
    exists ports last,
      a + length ports <= max
      /\ l = failed_attempts cfg name port protocols d ports ++ last
      /\ attempt_calls cfg name port protocols last
      /\ ((exists ws, r = Ok ws)
          \/ (exists e, r = Throw e)).
Proof.
  induction t as [|t IH]; intros a w r w' l Hat Ha H.
  - exfalso. lia.
  - cbn [connectLoop] in H.
    replace (a <=? max) with true in H by (symmetry; apply Nat.leb_le; lia).
    apply bind_inv in H.
    destruct H as [(ows & w1 & l1 & l2 & Htry & H & ->) | (e & Htry & ->)];
      apply tryOnce_spec in Htry.
    + destruct Htry as [(Hnull & p & ->) | ([[ws Hws] | [e He]] & Hcalls)].
      * inversion Hnull; subst ows.
        apply bind_inv in H.
        destruct H as [(u & w2 & l3 & l4 & Hsleep & H & ->) | (e & Hsleep & ->)].
        -- destruct (a <? max) eqn:Hlt.
           ++ apply Nat.ltb_lt in Hlt. unfold sleep in Hsleep.
              apply perform_inv in Hsleep. destruct Hsleep as [_ ->].
              apply IH in H; [| lia | lia].
              destruct H as (ports & last & Hlen & -> & Hlast & Hr).
              exists (p :: ports), last. rewrite failed_attempts_cons.
              split; [simpl; lia|]. split; [|split; assumption].
              rewrite <- !app_assoc. reflexivity.
           ++ apply Nat.ltb_ge in Hlt. apply ret_inv in Hsleep.
              destruct Hsleep as (_ & -> & ->).
              assert (t = 0) as -> by lia. cbn [connectLoop] in H.
              apply throw_inv in H. destruct H as (-> & _ & ->).
              exists [], (failed_attempt cfg name port protocols p).
              split; [simpl; lia|]. split; [rewrite !app_nil_r; reflexivity|].
              split; [unfold attempt_calls; eauto 6 | eauto].
        -- exfalso. destruct (a <? max).
           ++ unfold sleep in Hsleep. apply perform_inv in Hsleep.
              destruct Hsleep as [Hs _]. discriminate Hs.
           ++ apply ret_inv in Hsleep. destruct Hsleep as (Hs & _).
              discriminate Hs.
      * inversion Hws; subst ows. apply ret_inv in H.
        destruct H as (-> & _ & ->).
        exists [], l1. split; [simpl; lia|].
        split; [rewrite app_nil_r; reflexivity|]. split; [exact Hcalls | eauto].
      * discriminate He.
    + destruct Htry as [(Hnull & _) | (_ & Hcalls)]; [discriminate Hnull|].
      exists [], l. split; [simpl; lia|]. split; [reflexivity|].
      split; [exact Hcalls | eauto].
Qed.

Lemma count_failed_attempts (q : Call -> bool) name port protocols d ports :
  (forall p, count q (failed_attempt cfg name port protocols p)
             = count q (failed_attempt cfg name port protocols 0%Z)) ->
  count q (failed_attempts cfg name port protocols d ports)
  = length ports * (count q (failed_attempt cfg name port protocols 0%Z)
                    + if q (Sleep d) then 1 else 0).
Proof.
  intros Hq. induction ports as [|p ports IH]; [reflexivity|].
  rewrite failed_attempts_cons, !count_app, IH, Hq.
  rewrite count_cons, count_nil. simpl length. lia.
Qed.

Lemma attempt_calls_counts name port protocols last :
  attempt_calls cfg name port protocols last ->
  count is_OpenDirect last = 1 /\ count is_Sleep last = 0.
Proof.
  unfold attempt_calls, failed_attempt, direct_attempt, loopback_attempt.
  intros [-> | [-> | [[p ->] | [p ->]]]]; split; reflexivity.
Qed.

(** When nothing answers, an attempt is a failed attempt. *)
Lemma tryOnce_nothing name port protocols w :
  nothing_answers E ->
  exists p w1,
    tryOnce E cfg name port protocols w
    = (Ok None, w1, failed_attempt cfg name port protocols p).
Proof.
  intros (Hdirect & Hbridge & Hloop).
  unfold tryOnce, bind, perform, ret.
  destruct (Hdirect (direct_url cfg name port) protocols 1500%N w)
    as (w1 & ->).
  destruct (Hbridge name port w1) as (p & w2 & ->).
  destruct (Hloop (loopback_url cfg p) protocols w2) as (w3 & ->).
  eexists p, _. reflexivity.
Qed.

Lemma connectLoop_nothing name port protocols max d :
  nothing_answers E ->
  forall t a w,
    a + t = S max -> 1 <= a <= max ->
    outcome (connectLoop E cfg name port protocols max d t a w)
    = Throw (could_not_connect cfg name port max)
    /\ count is_OpenDirect
             (calls (connectLoop E cfg name port protocols max d t a w))
       = S max - a
    /\ count is_Sleep
             (calls (connectLoop E cfg name port protocols max d t a w))
       = max - a.
Proof.
  intros Hnothing. induction t as [|t IH]; intros a w Hat Ha.
  - exfalso. lia.
  - cbn [connectLoop].
    replace (a <=? max) with true by (symmetry; apply Nat.leb_le; lia).
    destruct (tryOnce_nothing name port protocols w Hnothing) as (p & w1 & Htry).
    rewrite (bind_ok _ _ _ _ _ _ Htry).
    destruct (a <? max) eqn:Hlt.
    + apply Nat.ltb_lt in Hlt.
      rewrite (bind_ok (sleep E d) _ w1 tt (timer E d w1) [Sleep d] eq_refl).
      destruct (IH (S a) (timer E d w1)) as (Hout & Hdir & Hsl); [lia | lia |].
      destruct (connectLoop E cfg name port protocols max d t (S a)
                            (timer E d w1)) as [[r2 w2] l2].
      unfold outcome, calls in *. cbn [fst snd] in *.
      split; [exact Hout|].
      unfold failed_attempt, direct_attempt, loopback_attempt.
      set (k1 := S max - a). set (k2 := max - a).
      split; count_simpl; [rewrite Hdir | rewrite Hsl]; subst k1 k2; lia.
    + apply Nat.ltb_ge in Hlt. assert (t = 0) as -> by lia.
      rewrite (bind_ok (ret tt) _ w1 tt w1 [] eq_refl).
      cbn [connectLoop]. unfold throw, outcome, calls.
      cbn [fst snd]. split; [reflexivity|].
      unfold failed_attempt, direct_attempt, loopback_attempt.
      set (k1 := S max - a). set (k2 := max - a).
      split; count_simpl; subst k1 k2; lia.
Qed.

(** The end of the handler: [connectToContainerWs] inside its [try], and
    the [catch] that closes the client socket. *)
Lemma connect_or_close name protocols w r w' lt :
  try_catch
    (upstream <- connectToContainerWs E cfg name (TTYD_PORT cfg) protocols ;;
     log #"info" #"[proxy] upstream connected" ;;;
     ret (Some upstream))
    (fun _ =>
       log #"error" #"[proxy] failed to connect to container" ;;;
       close E 1011 #"Could not connect to terminal" ;;;
       ret None) w = (r, w', lt) ->
  exists rc w2 lc,
    connectToContainerWs E cfg name (TTYD_PORT cfg) protocols w = (rc, w2, lc)
    /\ match rc with
       | Ok upstream =>
           lt = lc ++ [Log #"info" #"[proxy] upstream connected"]
           /\ r = Ok (Some upstream)
       | Throw _ =>
           lt = lc ++ [Log #"error" #"[proxy] failed to connect to container";
                       Close 1011 #"Could not connect to terminal"]
           /\ r = Ok None
       end.
Proof.
  intros H. apply try_catch_inv in H.
  destruct H as [(a & H & ->) | (e & w1 & l1 & l2 & H & Hh & ->)].
  - apply bind_inv in H.
    destruct H as [(ws & w1 & lc & l2 & Hc & H & ->) | (e & _ & He)];
      [| discriminate He].
    unfold log in H. minv. eexists _, _, _. split; [exact Hc|].
    split; reflexivity.
  - apply bind_inv in H.
    destruct H as [(ws & w2 & lc & l3 & Hc & H & Hl) | (e' & Hc & He)].
    + exfalso. unfold log in H. minv.
    + unfold log, close in Hh. minv. eexists _, _, _. split; [exact Hc|].
      split; reflexivity.
Qed.

(** The handler either stops before it tries to reach the container, or
    goes through to the connection and makes no [close] before it. *)
Lemma terminal_handler_reaches sessionId cookie proto w r w' l :
  terminal_handler E cfg sessionId cookie proto w = (r, w', l) ->
  count is_OpenDirect l = 0
  \/ exists before name protocols w1 lt,
      l = before ++ lt
      /\ count is_Close before = 0
      /\ try_catch
           (upstream <- connectToContainerWs E cfg name (TTYD_PORT cfg)
                                             protocols ;;
            log #"info" #"[proxy] upstream connected" ;;;
            ret (Some upstream))
           (fun _ =>
              log #"error" #"[proxy] failed to connect to container" ;;;
              close E 1011 #"Could not connect to terminal" ;;;
              ret None) w1 = (r, w', lt).
Proof.
  unfold terminal_handler. intros H.
  unfold log at 1 2 3 4 5 6 7, close at 1 2, getAdminUserId,
    getUserIdFromCookies, resolveTerminalAccess in H.
  repeat match goal with
         | H : bind _ _ _ = (_, _, _) |- _ =>
             apply bind_inv in H;
             destruct H as [(? & ? & ? & ? & ? & H & ?) | (? & H & ?)]; subst
         | H : perform _ _ _ = (_, _, _) |- _ =>
             apply perform_inv in H; destruct H as [H ?]; subst
         | H : ret _ _ = (_, _, _) |- _ =>
             apply ret_inv in H; destruct H as (? & ? & ?); subst
         | H : (_, _) = (_, _) |- _ => inversion H; clear H; subst
         | H : Ok _ = Throw _ |- _ => discriminate H
         | H : (if ?b then _ else _) _ = (_, _, _) |- _ => destruct b eqn:?
         | H : (match ?x with _ => _ end) _ = (_, _, _) |- _ => destruct x eqn:?
         end;
    try (left; reflexivity);
    right; rewrite ?app_assoc;
    eexists _, _, _, _, _; (split; [reflexivity|]); (split; [reflexivity|]);
    eassumption.
Qed.

Lemma connect_no_close name port protocols w :
  count is_Close (calls (connectToContainerWs E cfg name port protocols w)) = 0.
Proof.
  unfold connectToContainerWs, connectToContainerWs_with.
  destruct (connectLoop E cfg name port protocols 10 500 10 1 w)
    as [[r w'] l] eqn:H.
  apply connectLoop_spec in H; [| reflexivity | lia].
  destruct H as (ports & last & _ & -> & Hlast & _).
  unfold calls. cbn [snd]. rewrite count_app.
  rewrite count_failed_attempts by reflexivity.
  unfold attempt_calls, failed_attempt, direct_attempt, loopback_attempt
    in *.
  destruct Hlast as [-> | [-> | [[p ->] | [p ->]]]]; count_simpl; lia.
Qed.


End Connect.


(** ** The bridge *)

Lemma Subsequence_refl {A} (l : list A) : Subsequence l l.
Proof. induction l; constructor; assumption. Qed.

Lemma framesWhileOpen_sub (s : ReadyState) (evs : list Event) :
  Subsequence (framesWhileOpen s evs) (clientFrames evs).
Proof.
  revert s. induction evs as [|ev evs IH]; intros s; simpl.
  - constructor.
  - destruct ev as [f| |s']; [|apply IH|apply IH].
    destruct (is_OPEN s); [apply sub_keep | apply sub_drop]; apply IH.
Qed.

Lemma framesWhileOpen_steady (evs : list Event) :
  forallb (fun ev => negb (is_UpstreamReadyState ev)) evs = true ->
  framesWhileOpen OPEN evs = clientFrames evs.
Proof.
  induction evs as [|ev evs IH]; simpl; [reflexivity|].
  destruct ev as [f| |s']; simpl; intros H.
  - rewrite IH by exact H. reflexivity.
  - apply IH. exact H.
  - discriminate H.
Qed.

(** While the upstream is awaited every frame goes into the buffer and
    nothing is sent. *)
Lemma buffering_phase (evs : list Event) (b : Bridge) :
  forallb (fun ev => negb (is_UpstreamConnected ev)) evs = true ->
  messageListeners b = [bufferClientMessage] ->
  upstream_readyState b = None ->
  let b' := fold_left step evs b in
  messageListeners b' = [bufferClientMessage]
  /\ upstream_readyState b' = None
  /\ clientMessageBuffer b' = clientMessageBuffer b ++ clientFrames evs
  /\ upstream_sent b' = upstream_sent b.
Proof.
  revert b. induction evs as [|ev evs IH]; intros b Hevs Hl Hu; simpl.
  - rewrite app_nil_r. auto.
  - simpl in Hevs. apply andb_true_iff in Hevs. destruct Hevs as [Hev Hevs].
    destruct ev as [f| |s']; [| discriminate Hev |].
    + assert (step b (ClientMessage f) = push_buffer f b) as Hstep.
      { simpl. unfold emit_message. rewrite Hl. reflexivity. }
      rewrite Hstep.
      destruct (IH (push_buffer f b) Hevs Hl Hu) as (H1 & H2 & H3 & H4).
      split; [exact H1|]. split; [exact H2|]. split; [|exact H4].
      rewrite H3. simpl. rewrite <- app_assoc. reflexivity.
    + assert (step b (UpstreamReadyState s') = b) as Hstep.
      { simpl. rewrite Hu. reflexivity. }
      rewrite Hstep. apply IH; assumption.
Qed.

Lemma flush_open (frames : list Frame) (b : Bridge) :
  upstream_readyState b = Some OPEN ->
  let b' := fold_left (fun b f => send_if_open f b) frames b in
  messageListeners b' = messageListeners b
  /\ clientMessageBuffer b' = clientMessageBuffer b
  /\ upstream_readyState b' = Some OPEN
  /\ upstream_sent b' = upstream_sent b ++ frames.
Proof.
  revert b. induction frames as [|f frames IH]; intros b Hu; simpl.
  - rewrite app_nil_r. auto.
  - assert (upstream_readyState (send_if_open f b) = Some OPEN) as Hu'.
    { unfold send_if_open. rewrite Hu. reflexivity. }
    destruct (IH (send_if_open f b) Hu') as (H1 & H2 & H3 & H4).
    rewrite H1, H2, H3, H4. unfold send_if_open. rewrite Hu. simpl.
    rewrite <- app_assoc. auto.
Qed.

(** Once the bridge is set up, a frame is sent as it arrives, if the
    upstream is open at that moment. *)
Lemma forwarding_phase (evs : list Event) (b : Bridge) (s : ReadyState) :
  messageListeners b = [forwardToUpstream] ->
  upstream_readyState b = Some s ->
  let b' := fold_left step evs b in
  messageListeners b' = [forwardToUpstream]
  /\ clientMessageBuffer b' = clientMessageBuffer b
  /\ upstream_sent b' = upstream_sent b ++ framesWhileOpen s evs.
Proof.
  revert b s. induction evs as [|ev evs IH]; intros b s Hl Hu; simpl.
  - rewrite app_nil_r. auto.
  - destruct ev as [f| |s'].
    + assert (step b (ClientMessage f) = send_if_open f b) as Hstep.
      { simpl. unfold emit_message. rewrite Hl. reflexivity. }
      rewrite Hstep. unfold send_if_open. rewrite Hu.
      destruct (is_OPEN s) eqn:Hopen.
      * match goal with
        | |- context [fold_left step evs ?b0] =>
            destruct (IH b0 s Hl eq_refl) as (H1 & H2 & H3)
        end.
        rewrite H1, H2, H3. simpl. rewrite <- app_assoc. auto.
      * apply IH; assumption.
    + assert (step b UpstreamConnected = b) as Hstep.
      { simpl. rewrite Hu. reflexivity. }
      rewrite Hstep. apply IH; assumption.
    + simpl. rewrite Hu.
      match goal with
      | |- context [fold_left step evs ?b0] =>
          destruct (IH b0 s' Hl eq_refl) as (H1 & H2 & H3)
      end.
      rewrite H1, H2, H3. simpl. auto.
Qed.



End TerminalProxyFacts.

(* ================================================================== *)
(** * Facts: the git workspace service *)
(* ================================================================== *)

Module GitServiceFacts.
Import GitService.

Lemma includes_cons (c : N) (s x : jsstring) :
  includes (c :: s) x = startsWith (c :: s) x || includes s x.
Proof. reflexivity. Qed.

Lemma no_at_app (a b : jsstring) :
  no_at (a ++ b) = no_at a && no_at b.
Proof. unfold no_at. apply forallb_app. Qed.

Lemma span_not_at_app (r t : jsstring) :
  no_at r = true -> span_not_at (r ++ at_sign :: t) = (r, at_sign :: t).
Proof.
  induction r as [|c r IH]; intros Hr.
  - reflexivity.
  - change (no_at (c :: r)) with (negb (code_eqb c at_sign) && no_at r) in Hr.
    apply andb_true_iff in Hr. destruct Hr as [Hc Hr].
    cbn [app span_not_at]. apply negb_true_iff in Hc. rewrite Hc.
    rewrite IH by exact Hr. reflexivity.
Qed.

Lemma span_not_at_spec (s r t : jsstring) :
  span_not_at s = (r, t) -> s = r ++ t /\ no_at r = true.
Proof.
  revert r t. induction s as [|c s IH]; intros r t H; simpl in H.
  - inversion H. auto.
  - destruct (code_eqb c at_sign) eqn:Hc.
    + inversion H. auto.
    + destruct (span_not_at s) as [r' t'] eqn:Hs. inversion H; subst.
      destruct (IH r' t eq_refl) as [-> Hr]. split; [reflexivity|].
      change (no_at (c :: r')) with (negb (code_eqb c at_sign) && no_at r').
      rewrite Hc, Hr. reflexivity.
Qed.

Lemma skipn_8_https (s : jsstring) :
  startsWith s #"https://" = true ->
  s = #"https://" ++ skipn 8 s.
Proof.
  intros H. apply JsFacts.startsWith_spec in H. destruct H as [t ->].
  reflexivity.
Qed.

(** A match at the head of [s] is [https://], a run without [@] that is
    not empty, and [@github.com]. *)
Lemma match_length_some (s : jsstring) (n : nat) :
  match_length s = Some n ->
  exists r rest,
    s = #"https://" ++ r ++ #"@github.com" ++ rest
    /\ r <> [] /\ no_at r = true.
Proof.
  unfold match_length.
  destruct (startsWith s #"https://") eqn:Hh; [|discriminate].
  destruct (span_not_at (skipn 8 s)) as [r t] eqn:Hs.
  destruct r as [|c r]; [discriminate|].
  destruct (startsWith t #"@github.com") eqn:Hg; [|discriminate].
  intros _. apply span_not_at_spec in Hs. destruct Hs as [Hs Hr].
  apply JsFacts.startsWith_spec in Hg. destruct Hg as [rest ->].
  exists (c :: r), rest. split; [|split; [discriminate | exact Hr]].
  rewrite (skipn_8_https s Hh), Hs. reflexivity.
Qed.

Lemma match_length_intro (r rest : jsstring) :
  r <> [] -> no_at r = true ->
  match_length (#"https://" ++ r ++ #"@github.com" ++ rest) <> None.
Proof.
  intros Hne Hr. unfold match_length.
  change (startsWith (#"https://" ++ r ++ #"@github.com" ++ rest) #"https://")
    with true.
  change (skipn 8 (#"https://" ++ r ++ #"@github.com" ++ rest))
    with (r ++ at_sign :: (#"github.com" ++ rest)).
  rewrite span_not_at_app by exact Hr.
  destruct r as [|c r]; [contradiction|].
  change (startsWith (at_sign :: #"github.com" ++ rest) #"@github.com")
    with true.
  discriminate.
Qed.

(** Two strings that agree up to and including their first [@] have the
    same run before it. *)
Lemma no_at_cons (c : N) (l : jsstring) :
  no_at (c :: l) = negb (code_eqb c at_sign) && no_at l.
Proof. reflexivity. Qed.

Lemma same_run_before_at (a l Y g : jsstring) :
  no_at a = true -> no_at l = true ->
  startsWith (a ++ at_sign :: Y) (l ++ at_sign :: g) = true -> l = a.
Proof.
  revert l. induction a as [|x a IH]; intros l Ha Hl H.
  - destruct l as [|c l]; [reflexivity|]. exfalso.
    rewrite no_at_cons in Hl. apply andb_true_iff in Hl. destruct Hl as [Hc _].
    cbn [app startsWith] in H.
    apply andb_true_iff in H. destruct H as [H _].
    rewrite H in Hc. discriminate.
  - rewrite no_at_cons in Ha. apply andb_true_iff in Ha. destruct Ha as [Hx Ha].
    destruct l as [|c l].
    + exfalso. cbn [app startsWith] in H.
      apply andb_true_iff in H. destruct H as [H _].
      unfold code_eqb in H. apply N.eqb_eq in H. subst x.
      unfold code_eqb in Hx. rewrite N.eqb_refl in Hx. discriminate.
    + rewrite no_at_cons in Hl. apply andb_true_iff in Hl.
      destruct Hl as [_ Hl]. cbn [app startsWith] in H.
      apply andb_true_iff in H. destruct H as [Hcx H].
      unfold code_eqb in Hcx. apply N.eqb_eq in Hcx. subst c.
      rewrite (IH l Ha Hl H). reflexivity.
Qed.

Section Redaction.

Variable token : jsstring.
Hypothesis token_not_empty : token <> [].
Hypothesis token_no_at : no_at token = true.
Hypothesis token_not_stars : token <> #"***".

Local Abbreviation O := (authenticated_host token).

(** The replacement does not begin like the URL with the token. *)
Lemma replacement_is_not_the_url (X : jsstring) :
  startsWith (replacement ++ X) O = false.
Proof.
  destruct (startsWith (replacement ++ X) O) eqn:H; [|reflexivity].
  exfalso. apply token_not_stars.
  apply (same_run_before_at #"***" token (#"github.com" ++ X) #"github.com");
    [reflexivity | exact token_no_at |].
  exact H.
Qed.

(** An occurrence of the URL with the token that ends inside a replacement:
    what stands before the replacement then begins with [https://] and has
    no [@]. *)
Lemma straddle (p q X : jsstring) :
  p <> [] -> q <> [] -> p ++ q = O ->
  startsWith (replacement ++ X) q = true ->
  exists t, p = #"https://" ++ t /\ no_at t = true.
Proof.
  intros Hp Hq Hpq Hsw. unfold authenticated_host in Hpq.
  rewrite app_assoc in Hpq.
  apply app_eq_app in Hpq. destruct Hpq as [l [[Hpl Hg] | [Hht Hql]]].
  - (* [q] is an end of [@github.com] *)
    exfalso.
    repeat (destruct l as [|? l];
            [ simpl in Hg; subst q; simpl in Hsw; discriminate Hsw
            | simpl in Hg; inversion Hg; subst; clear Hg;
              try match goal with Heq : _ = ?l0 ++ q |- _ =>
                    rename Heq into Hg
                  end ]).
    all: try (destruct l; discriminate).
    all: try (apply Hq; destruct l; [symmetry; assumption | discriminate]).
  - (* [q] ends with all of [@github.com] *)
    subst q.
    assert (no_at l = true) as Hl.
    { assert (no_at (p ++ l) = true) as Hpl.
      { rewrite <- Hht. rewrite no_at_app, token_no_at. reflexivity. }
      rewrite no_at_app in Hpl. apply andb_true_iff in Hpl. tauto. }
    assert (l = #"https://***") as ->.
    { apply (same_run_before_at #"https://***" l (#"github.com" ++ X)
                                #"github.com"); [reflexivity | exact Hl |].
      exact Hsw. }
    apply app_eq_app in Hht. destruct Hht as [l2 [[Hh Hs] | [Hph Ht]]].
    + (* [p] is a beginning of [https://] *)
      repeat (destruct p as [|? p];
              [ first [ contradiction
                      | simpl in Hh; subst l2; simpl in Hs; discriminate Hs ]
              | simpl in Hh; inversion Hh; subst; clear Hh;
                try match goal with Heq : _ = p ++ l2 |- _ =>
                      rename Heq into Hh
                    end ]).
      all: try (destruct p; discriminate).
      all: try match goal with
               | Hx : [] = ?p0 ++ ?l0 |- _ =>
                   symmetry in Hx; apply app_eq_nil in Hx;
                   destruct Hx as [-> ->]
               end.
      all: exists []; split; reflexivity.
    + exists l2. split; [exact Hph|].
      rewrite Ht, no_at_app in token_no_at.
      apply andb_true_iff in token_no_at. tauto.
Qed.

(** Where the scan copies units, it cannot copy the URL with the token:
    a match would have started where the URL starts. *)
Lemma copy_is_not_the_url :
  forall s p q,
    p ++ q = O -> q <> [] -> p <> [] ->
    match_length (p ++ s) = None ->
    startsWith (replace_go 0 s) q = false.
Proof.
  induction s as [|c s IH]; intros p q Hpq Hq Hp Hnone.
  - destruct q; [contradiction | reflexivity].
  - cbn [replace_go]. destruct (match_length (c :: s)) as [n|] eqn:Hm.
    + destruct (startsWith (replacement ++ replace_go (n - 1) s) q) eqn:Hsw;
        [|reflexivity].
      exfalso.
      destruct (straddle p q _ Hp Hq Hpq Hsw) as (t & -> & Ht).
      apply match_length_some in Hm. destruct Hm as (r & rest & Hs & Hr & Hnr).
      rewrite Hs in Hnone.
      apply (match_length_intro (t ++ #"https://" ++ r) rest).
      * destruct t; discriminate.
      * rewrite !no_at_app, Ht, Hnr. reflexivity.
      * rewrite <- Hnone. rewrite <- !app_assoc. reflexivity.
    + destruct q as [|d q]; [contradiction|].
      cbn [startsWith]. destruct (code_eqb d c) eqn:Hdc; [|reflexivity].
      cbn [andb]. unfold code_eqb in Hdc. apply N.eqb_eq in Hdc. subst d.
      destruct q as [|d q].
      * exfalso.
        apply (match_length_intro token s token_not_empty token_no_at).
        rewrite <- Hnone. f_equal.
        replace (p ++ c :: s) with ((p ++ [c]) ++ s)
          by (rewrite <- app_assoc; reflexivity).
        rewrite Hpq. unfold authenticated_host. rewrite <- !app_assoc.
        reflexivity.
      * apply (IH (p ++ [c]) (d :: q)).
        -- rewrite <- app_assoc. exact Hpq.
        -- discriminate.
        -- destruct p; discriminate.
        -- rewrite <- app_assoc. exact Hnone.
Qed.

Lemma scan_is_not_the_url (s : jsstring) :
  match_length s = None -> startsWith (replace_go 0 s) O = false.
Proof.
  intros Hnone. destruct s as [|c s]; [reflexivity|].
  cbn [replace_go]. rewrite Hnone.
  change O with (104%N :: (#"ttps://" ++ token ++ #"@github.com")).
  cbn [startsWith]. destruct (code_eqb 104 c) eqn:Hc; [|reflexivity].
  cbn [andb]. unfold code_eqb in Hc. apply N.eqb_eq in Hc. subst c.
  apply (copy_is_not_the_url s [104%N]).
  - reflexivity.
  - discriminate.
  - discriminate.
  - exact Hnone.
Qed.

(** The URL with the token does not occur in what the replacement
    returns. *)
Lemma replace_go_redacts :
  forall s k, includes (replace_go k s) O = false.
Proof.
  induction s as [|c s IH]; intros k.
  - destruct k; reflexivity.
  - destruct k as [|k]; [|exact (IH k)].
    cbn [replace_go]. destruct (match_length (c :: s)) as [n|] eqn:Hm.
    + pose proof (replacement_is_not_the_url (replace_go (n - 1) s)) as H0.
      unfold replacement in *. cbn [lit list_ascii_of_string map app] in *.
      repeat rewrite includes_cons. rewrite H0, IH. reflexivity.
    + rewrite includes_cons, IH, orb_false_r.
      pose proof (scan_is_not_the_url (c :: s) Hm) as H0.
      cbn [replace_go] in H0. rewrite Hm in H0. exact H0.
Qed.

Lemma thrown_message_redacts (m : jsstring) :
  includes (#"Failed to clone repository: " ++ sanitize m) O = false.
Proof.
  unfold sanitize.
  cbn [lit list_ascii_of_string map app].
  repeat rewrite includes_cons. rewrite replace_go_redacts. reflexivity.
Qed.

End Redaction.

Section Service.
Context {W : Type}.
Variable E : @Env W.
Variable cfg : Config.

Ltac unfold_calls H :=
  unfold stat_isDirectory, rm, mkdir, exec, console_log, console_warn in H.

Ltac split_In H :=
  repeat match type of H with
         | In _ (_ ++ _) => apply in_app_or in H; destruct H as [H | H]
         | In _ (_ :: _) => destruct H as [H | H]
         | In _ [] => destruct H
         | ExecAsync _ _ = ExecAsync _ _ => inversion H; subst; clear H
         | _ = ExecAsync _ _ => discriminate H
         end.

(** The only command [clone] runs is [git clone] on the URL it is given. *)
Lemma clone_execs cloneUrl targetPath repository w r w' l c o :
  clone E cfg cloneUrl targetPath repository w = (r, w', l) ->
  In (ExecAsync c o) l -> c = clone_command cloneUrl targetPath.
Proof.
  unfold clone. intros H Hin. unfold_calls H.
  minv; split_In Hin; reflexivity.
Qed.

(** What [clone] throws is the error of [mkdir], or the sanitized message
    of the failed command. *)
Lemma clone_throws cloneUrl targetPath repository w e w' l :
  clone E cfg cloneUrl targetPath repository w = (Throw e, w', l) ->
  (exists w1, fs_mkdir_recursive E (node_path_dirname cfg targetPath) w
              = (Throw e, w1))
  \/ exists m, e = newError (#"Failed to clone repository: " ++ sanitize m).
Proof.
  unfold clone. intros H. unfold_calls H.
  minv; first [solve [left; eauto] | right; eexists; reflexivity].
Qed.

(** The commands [cloneOrPull] runs: the fetch in a repository that is
    there, or [git clone] on the URL that [cloneUrl_of] builds. *)
Lemma cloneOrPull_execs repository w c o :
  In (ExecAsync c o) (calls (cloneOrPull E cfg repository w)) ->
  c = #"git fetch --all && git reset --hard origin/HEAD"
  \/ exists owner repo targetPath,
      c = clone_command (cloneUrl_of cfg owner repo) targetPath.
Proof.
  destruct (cloneOrPull E cfg repository w) as [[r w'] l] eqn:H.
  unfold calls. cbn [snd]. intros Hin.
  unfold cloneOrPull, parseRepository, getRepoPath, isGitRepo,
    directoryExists in H.
  unfold_calls H.
  minv; split_In Hin;
    try (left; reflexivity);
    try match goal with
        | Hc : clone _ _ _ _ _ _ = _ |- _ =>
            right; eexists _, _, _; exact (clone_execs _ _ _ _ _ _ _ _ _ Hc Hin)
        end.
Qed.


End Service.



End GitServiceFacts.

(* ================================================================== *)
(** * Facts: the life cycle of a session *)
(* ================================================================== *)

Module SessionLifecycleFacts.
Import SessionService.
Import SessionServiceFacts.

Section Lifecycle.
Context {W : Type}.
Variable cfg : Config.
Variable E : @Env W.
Variable P : Platform.

Local Abbreviation net := (TTYD_INTERNAL_NETWORK cfg).

Ltac unfold_calls H :=
  unfold findUnique, update, isRunning, run, start_container, restart,
    remove, safeRemove, ensureNetwork, pull, exec, cleanup,
    stat_isDirectory, mkdir, access, writeFile, sleep,
    notifySessionChange, console_warn in H.

Ltac checkout_pick :=
  first [ left; reflexivity
        | right; eexists; split; [reflexivity|]; split; [eassumption|];
          first [left; reflexivity | right; eexists; reflexivity] ].

Ltac notify_pick := first [left; reflexivity | right; eexists; reflexivity].

Ltac tail_rest :=
  split; [checkout_pick|]; split; [notify_pick|]; split; [reflexivity|];
  split; [eauto | eauto].

Ltac tail_solve :=
  first [ solve [eexists [], []; tail_rest]
        | solve [eexists [], [_]; tail_rest]
        | solve [eexists [_], []; tail_rest]
        | solve [eexists [_], [_]; tail_rest]
        | solve [eexists [_; _], []; tail_rest]
        | solve [eexists [_; _], [_]; tail_rest] ].

(** The calls of [start] from its second lookup on, step by step. *)
Lemma start_session_trace userId sessionId options reset w r w' l :
  start_session cfg E P userId sessionId options reset w = (r, w', l) ->
  let q := any_row sessionId userId in
  let n := fst (utils_sessionContainerNames P sessionId) in
  (l = [FindUnique q] /\ exists e, r = Throw e)
  \/ (l = [FindUnique q; IsRunning n] /\ exists e, r = Throw e)
  \/ exists probe w2 rb w3 lb,
      container_action cfg E P userId n options reset probe w2 = (rb, w3, lb)
      /\ (exists w1, dockerService_isRunning E n w1 = (Ok probe, w2))
      /\ ((exists e, rb = Throw e /\ r = Throw e
                     /\ l = [FindUnique q; IsRunning n] ++ lb)
          \/ exists lt,
              rb = Ok tt /\ l = [FindUnique q; IsRunning n] ++ lb ++ lt
              /\ tail_calls E n sessionId userId options lt r).
Proof.
  intros H q n. unfold start_session in H.
  fold (any_row sessionId userId) in H. fold q n in H.
  change (match ?x with
          | Some r0 => if reset then restart E n
                       else if negb r0 then start_container E n else ret tt
          | None => createContainer cfg E P userId n options
          end) with (container_action cfg E P userId n options reset x) in H.
  unfold findUnique in H.
  apply bind_inv in H.
  destruct H as [(os & w1 & l1 & l2 & Hdb & H & ->) | (e & Hdb & ->)];
    apply perform_inv in Hdb; destruct Hdb as [Hdb ->].
  2:{ left. eauto. }
  destruct os as [s|].
  2:{ apply throw_inv in H. destruct H as (-> & -> & ->). left. eauto. }
  destruct (Js.eqb (status s) #"stopped") eqn:Hst.
  { apply throw_inv in H. destruct H as (-> & -> & ->). left. eauto. }
  unfold isRunning at 1 in H.
  apply bind_inv in H.
  destruct H as [(probe & w2 & l3 & l4 & Hp & H & ->) | (e & Hp & ->)];
    apply perform_inv in Hp; destruct Hp as [Hp ->].
  2:{ right. left. eauto. }
  right. right. exists probe, w2.
  apply bind_inv in H.
  destruct H as [(u & w3 & lb & lt & Hb & H & ->) | (e & Hb & ->)].
  2:{ eexists _, _, _. split; [exact Hb|]. split; [eauto|].
      left. eauto. }
  destruct u. eexists _, _, lb. split; [exact Hb|]. split; [eauto|].
  right. exists lt. split; [reflexivity|]. split; [reflexivity|].
  unfold tail_calls, checkout_calls, notify_calls, gitBranch_of,
    not_running_error, running_row.
  unfold isRunning at 1 in H. apply bind_inv in H.
  destruct H as [(p2 & w4 & l5 & l6 & Hp2 & H & ->) | (e & Hp2 & ->)];
    apply perform_inv in Hp2; destruct Hp2 as [Hp2 ->].
  2:{ left. split; [reflexivity|]. exists e. split; [reflexivity|].
      left. eauto. }
  destruct p2 as [[|]|].
  2,3: apply throw_inv in H; destruct H as (-> & -> & ->);
       left; split; [reflexivity|]; eexists; split; [reflexivity|];
       right; split; [reflexivity|]; eexists _, _, _;
       (split; [exact Hp2 | discriminate]).
  right. unfold_calls H.
  minv; cbn [app]; tail_solve.
Qed.

(** [start], from its first lookup on. *)
Lemma start_trace userId sessionId options w r w' l :
  start cfg E P userId sessionId options w = (r, w', l) ->
  let qa := active_row sessionId userId in
  (reset_of options = false /\ l = [FindUnique qa]
   /\ ((exists s, db_terminalSession_findUnique E qa w = (Ok (Some s), w')
                  /\ r = Ok {| started_containerName := containerName s |})
       \/ exists e, r = Throw e))
  \/ exists pre w0 l',
      l = pre ++ l'
      /\ start_session cfg E P userId sessionId options (reset_of options) w0
         = (r, w', l')
      /\ ((pre = [] /\ reset_of options = true /\ w0 = w)
          \/ (pre = [FindUnique qa] /\ reset_of options = false
              /\ db_terminalSession_findUnique E qa w = (Ok None, w0))).
Proof.
  intros H qa. unfold start in H. fold (reset_of options) in H.
  fold (active_row sessionId userId) in H. fold qa in H.
  destruct (reset_of options) eqn:Hreset; cbn [negb] in H.
  - right. exists [], w, l. split; [reflexivity|]. split; [exact H|].
    left. auto.
  - unfold findUnique at 1 in H. apply bind_inv in H.
    destruct H as [(os & w1 & l1 & l2 & Hdb & H & ->) | (e & Hdb & ->)];
      apply perform_inv in Hdb; destruct Hdb as [Hdb ->].
    2:{ left. split; [reflexivity|]. split; [reflexivity|]. right. eauto. }
    destruct os as [s|].
    + apply ret_inv in H. destruct H as (-> & -> & ->).
      left. split; [reflexivity|]. split; [reflexivity|]. left.
      exists s. split; [exact Hdb | reflexivity].
    + right. exists [FindUnique qa], w1, l2. split; [reflexivity|].
      split; [exact H|]. right. auto.
Qed.

(** The branch for a missing container, step by step: the resolution
    of the workspace, the building of the mounts, the network, the image,
    and the create loop on the options made of what was built. *)
Lemma createContainer_trace userId n options w r w' l :
  createContainer cfg E P userId n options w = (r, w', l) ->
  exists lws lm,
    (exists rw w1,
        resolveWorkspaceMount cfg E P
          (match options with Some o => workspaceSuffix o | None => None end)
          w = (rw, w1, lws))
    /\ (lm = [] \/ exists w1 rm w2,
                     buildAgentMounts cfg E P userId w1 = (rm, w2, lm))
    /\ ((l = lws ++ lm /\ exists e, r = Throw e)
        \/ (l = lws ++ lm ++ [EnsureNetwork net true] /\ exists e, r = Throw e)
        \/ (l = lws ++ lm ++ [EnsureNetwork net true; Pull (TTYD_IMAGE cfg)]
            /\ exists e, r = Throw e)
        \/ exists ms k last,
            l = lws ++ lm ++ [EnsureNetwork net true; Pull (TTYD_IMAGE cfg)]
                ++ retries (runOptions cfg P n ms) k ++ last
            /\ k <= MAX_LAYER_RETRIES
            /\ last_turn n net (runOptions cfg P n ms) last
            /\ (r = Ok tt \/ exists e, r = Throw e)
            /\ (exists w4,
                   createLoop cfg E n (runOptions cfg P n ms)
                              (S MAX_LAYER_RETRIES) 0 false w4
                   = (r, w', retries (runOptions cfg P n ms) k ++ last))
            /\ exists wm am w1 w2,
                buildAgentMounts cfg E P userId w1 = (Ok am, w2, lm)
                /\ ms = am ++ workspace_mount wm).
Proof.
  unfold createContainer. intros H.
  apply bind_inv in H.
  destruct H as [(wm & w1 & lws & l2 & Hws & H & ->) | (e & Hws & ->)].
  2:{ exists l, []. split; [eauto|]. split; [auto|]. left.
      rewrite app_nil_r. eauto. }
  apply bind_inv in H.
  destruct H as [(ms & w2 & lm & l3 & Hm & H & ->) | (e & Hm & ->)].
  2:{ exists lws, l2. split; [eauto|]. split; [right; eauto|]. left. eauto. }
  exists lws, lm. split; [eauto|]. split; [right; eauto|].
  unfold ensureNetwork at 1 in H. apply bind_inv in H.
  destruct H as [(u1 & w3 & l4 & l5 & Hn & H & ->) | (e & Hn & ->)];
    apply perform_inv in Hn; destruct Hn as [Hn ->].
  2:{ right. left. eauto. }
  unfold pull at 1 in H. apply bind_inv in H.
  destruct H as [(u2 & w4 & l6 & l7 & Hp & H & ->) | (e & Hp & ->)];
    apply perform_inv in Hp; destruct Hp as [Hp ->].
  2:{ right. right. left. eauto. }
  pose proof H as Hloop.
  apply createLoop_spec in H; [| reflexivity | unfold MAX_LAYER_RETRIES; lia].
  destruct H as (k & last & Hk & -> & Hlast & Hr).
  right. right. right. eexists _, k, last.
  split; [reflexivity|]. split; [exact Hk|]. split; [exact Hlast|].
  split; [exact Hr|]. split; [exists w4; exact Hloop|].
  exists wm, ms, w1, w2. split; [exact Hm | reflexivity].
Qed.

Lemma forallb_retries (p : Call -> bool) o k :
  p (Run o) = true -> p (Sleep 5000) = true -> forallb p (retries o k) = true.
Proof.
  intros Hr Hs. induction k as [|k IH]; [reflexivity|].
  rewrite retries_S. simpl. rewrite Hr, Hs. exact IH.
Qed.

Lemma forallb_last_turn (p : Call -> bool) n o last :
  last_turn n net o last ->
  p (Run o) = true -> p (Start n) = true -> p (SafeRemove n) = true ->
  p (EnsureNetwork net true) = true ->
  forallb p last = true.
Proof.
  unfold last_turn.
  intros [-> | [-> | [-> | [-> | ->]]]] Hr Hs Hd He; simpl;
    rewrite ?Hr, ?Hs, ?Hd, ?He; reflexivity.
Qed.

Lemma resolveWorkspaceMount_may_call reset n suffix w r w' l :
  resolveWorkspaceMount cfg E P suffix w = (r, w', l) ->
  forallb (action_may_call cfg reset n) l = true.
Proof.
  unfold resolveWorkspaceMount. intros H. unfold_calls H.
  minv; reflexivity.
Qed.

Lemma buildAgentMounts_may_call reset n userId w r w' l :
  buildAgentMounts cfg E P userId w = (r, w', l) ->
  forallb (action_may_call cfg reset n) l = true.
Proof.
  unfold buildAgentMounts, ensureClaudeState, ensureAgentsConfig.
  intros H. unfold_calls H. minv; reflexivity.
Qed.

Lemma createContainer_may_call reset userId n options w r w' l :
  createContainer cfg E P userId n options w = (r, w', l) ->
  forallb (action_may_call cfg reset n) l = true.
Proof.
  intros H. apply createContainer_trace in H.
  destruct H as (lws & lm & (rw & w1 & Hws) & Hm & H).
  apply (resolveWorkspaceMount_may_call reset n) in Hws.
  assert (forallb (action_may_call cfg reset n) lm = true) as Hlm.
  { destruct Hm as [-> | (w2 & rm & w3 & Hm)]; [reflexivity|].
    eapply buildAgentMounts_may_call. exact Hm. }
  assert (action_may_call cfg reset n (EnsureNetwork net true) = true) as Hn.
  { simpl. rewrite JsFacts.eqb_refl. reflexivity. }
  assert (action_may_call cfg reset n (Pull (TTYD_IMAGE cfg)) = true) as Hp.
  { simpl. apply JsFacts.eqb_refl. }
  destruct H as [(-> & _) | [(-> & _) | [(-> & _) | H]]].
  - rewrite forallb_app, Hws, Hlm. reflexivity.
  - rewrite !forallb_app, Hws, Hlm. cbn [forallb]. rewrite Hn. reflexivity.
  - rewrite !forallb_app, Hws, Hlm. cbn [forallb]. rewrite Hn, Hp.
    reflexivity.
  - destruct H as (ms & k & last & -> & _ & Hlast & _ & _ & _).
    rewrite !forallb_app, Hws, Hlm. cbn [forallb]. rewrite Hn, Hp.
    rewrite forallb_retries;
      [| simpl; apply JsFacts.eqb_refl | reflexivity].
    cbn [andb].
    eapply forallb_last_turn; [exact Hlast | simpl ..];
      try apply JsFacts.eqb_refl. exact Hn.
Qed.

Lemma container_action_may_call reset userId n options probe w r w' l :
  container_action cfg E P userId n options reset probe w = (r, w', l) ->
  forallb (action_may_call cfg reset n) l = true.
Proof.
  unfold container_action. intros H. destruct probe as [b|].
  - destruct reset.
    + unfold restart in H. apply perform_inv in H. destruct H as [_ ->].
      simpl. rewrite JsFacts.eqb_refl. reflexivity.
    + destruct (negb b).
      * unfold start_container in H. apply perform_inv in H.
        destruct H as [_ ->]. simpl. rewrite JsFacts.eqb_refl. reflexivity.
      * apply ret_inv in H. destruct H as (_ & _ & ->). reflexivity.
  - eapply createContainer_may_call. exact H.
Qed.

Lemma action_in_start reset n sessionId userId l :
  forallb (action_may_call cfg reset n) l = true ->
  forallb (start_may_call cfg reset n sessionId userId) l = true.
Proof.
  intros H. apply forallb_forall. intros c Hc.
  rewrite forallb_forall in H. unfold start_may_call.
  rewrite (H c Hc). reflexivity.
Qed.

Lemma tail_may_call reset n sessionId userId options lt r :
  tail_calls E n sessionId userId options lt r ->
  forallb (start_may_call cfg reset n sessionId userId) lt = true.
Proof.
  unfold tail_calls, checkout_calls, notify_calls.
  intros [(-> & _) | (co & no & Hco & Hno & -> & _)].
  - cbn [forallb start_may_call action_may_call orb].
    rewrite JsFacts.eqb_refl. reflexivity.
  - destruct Hco as [-> | (branch & _ & _ & [-> | (e & ->)])];
      destruct Hno as [-> | (pid & ->)];
      cbn [app forallb start_may_call action_may_call orb any_row
           where_id where_userId];
      rewrite ?JsFacts.eqb_refl; reflexivity.
Qed.

(** X1.  Whatever happens, [start] for a session reads and writes no
    other row than that of the session for the user, and creates, starts,
    probes, force-removes and runs commands in no other container than
    the agent container of the session.  It restarts the container only
    on a reset, never calls [remove] nor the cleanup of the ingress
    configuration, prepares no other network than the internal one
    (asked for as internal) and pulls no other image than the
    configured one, and every pause it makes is one of 5000 ms. *)
Theorem start_confined userId sessionId options w :
  let n := fst (utils_sessionContainerNames P sessionId) in
  forallb (start_may_call cfg (reset_of options) n sessionId userId)
          (calls (start cfg E P userId sessionId options w)) = true.
Proof.
  intros n.
  destruct (start cfg E P userId sessionId options w) as [[r w'] l] eqn:H.
  unfold calls. cbn [snd].
  assert (forall q, In q [active_row sessionId userId; any_row sessionId userId] ->
                    start_may_call cfg (reset_of options) n sessionId userId
                                   (FindUnique q) = true) as Hq.
  { intros q [<- | [<- | []]];
      cbn [start_may_call action_may_call orb active_row any_row
           where_id where_userId];
      rewrite !JsFacts.eqb_refl; reflexivity. }
  assert (start_may_call cfg (reset_of options) n sessionId userId
                         (IsRunning n) = true) as Hprobe.
  { cbn [start_may_call action_may_call orb]. apply JsFacts.eqb_refl. }
  apply start_trace in H.
  destruct H as [(_ & -> & _) | (pre & w0 & l' & -> & H & Hpre)].
  { cbn [forallb]. rewrite Hq by (simpl; auto). reflexivity. }
  assert (forallb (start_may_call cfg (reset_of options) n sessionId userId)
                  pre = true) as Hp.
  { destruct Hpre as [(-> & _) | (-> & _)]; [reflexivity|].
    cbn [forallb]. rewrite Hq by (simpl; auto). reflexivity. }
  rewrite forallb_app, Hp. cbn [andb]. clear Hp Hpre.
  apply start_session_trace in H. fold n in H.
  destruct H as [(-> & _) | [(-> & _) | H]].
  - cbn [forallb]. rewrite Hq by (simpl; auto). reflexivity.
  - cbn [forallb]. rewrite Hq, Hprobe by (simpl; auto). reflexivity.
  - destruct H as (probe & w2 & rb & w3 & lb & Hb & _ & H).
    apply container_action_may_call in Hb.
    apply (action_in_start _ _ sessionId userId) in Hb.
    destruct H as [(e & _ & _ & ->) | (lt & _ & -> & Ht)].
    + rewrite forallb_app, Hb. cbn [forallb].
      rewrite Hq, Hprobe by (simpl; auto). reflexivity.
    + apply (tail_may_call (reset_of options)) in Ht.
      rewrite !forallb_app, Hb, Ht. cbn [forallb].
      rewrite Hq, Hprobe by (simpl; auto). reflexivity.
Qed.

(** X2.  When the lookup of the session finds no row for the user, or a
    row that is [stopped], [start] throws NOT_FOUND with the message
    [Session not found.] and has made no other call than its lookups:
    nothing is asked of the container driver and nothing is written. *)
Theorem start_unknown_session userId sessionId options w w0 found w1 :
  (if reset_of options then w0 = w
   else db_terminalSession_findUnique E (active_row sessionId userId) w
        = (Ok None, w0)) ->
  db_terminalSession_findUnique E (any_row sessionId userId) w0
  = (Ok found, w1) ->
  (forall s, found = Some s -> Js.eqb (status s) #"stopped" = true) ->
  let x := start cfg E P userId sessionId options w in
  outcome x = Throw (TRPCError NOT_FOUND #"Session not found.")
  /\ calls x
     = (if reset_of options then []
        else [FindUnique (active_row sessionId userId)])
       ++ [FindUnique (any_row sessionId userId)]
  /\ world x = w1.
Proof.
  intros Hfirst Hsecond Hfound x. subst x.
  assert (start_session cfg E P userId sessionId options (reset_of options) w0
          = (Throw (TRPCError NOT_FOUND #"Session not found."), w1,
             [FindUnique (any_row sessionId userId)])) as Hs.
  { unfold start_session. fold (any_row sessionId userId).
    unfold findUnique, bind, perform. rewrite Hsecond.
    destruct found as [s|]; [|reflexivity].
    rewrite (Hfound s eq_refl). reflexivity. }
  assert (start cfg E P userId sessionId options w
          = (Throw (TRPCError NOT_FOUND #"Session not found."), w1,
             (if reset_of options then []
              else [FindUnique (active_row sessionId userId)])
             ++ [FindUnique (any_row sessionId userId)])) as ->.
  { unfold start. fold (reset_of options) (active_row sessionId userId).
    destruct (reset_of options); cbn [negb].
    - subst w0. exact Hs.
    - unfold findUnique at 1. unfold bind at 1. unfold perform at 1.
      rewrite Hfirst, Hs. reflexivity. }
  repeat split.
Qed.

Lemma action_in_head reset n l :
  forallb (action_may_call cfg reset n) l = true ->
  forallb (head_may_call cfg reset n) l = true.
Proof.
  intros H. apply forallb_forall. intros c Hc.
  rewrite forallb_forall in H. specialize (H c Hc).
  destruct c; try exact H; reflexivity.
Qed.

(** Calls of a kind that a list rules out are not in it. *)
Lemma count_excluded (p q : Call -> bool) (l : list Call) :
  forallb q l = true -> (forall c, q c = true -> p c = false) ->
  count p l = 0.
Proof.
  intros H Hpq. induction l as [|c l IH]; [reflexivity|].
  simpl in H. apply andb_true_iff in H. destruct H as [Hc Hl].
  rewrite count_cons, (Hpq c Hc), (IH Hl). reflexivity.
Qed.

(** [start] either returns at its first lookup, or makes the calls of its
    head, up to the container action, and then those of its tail. *)
Lemma start_head_tail userId sessionId options w r w' l :
  start cfg E P userId sessionId options w = (r, w', l) ->
  let n := fst (utils_sessionContainerNames P sessionId) in
  let qa := active_row sessionId userId in
  (reset_of options = false /\ l = [FindUnique qa]
   /\ ((exists s, db_terminalSession_findUnique E qa w = (Ok (Some s), w')
                  /\ r = Ok {| started_containerName := containerName s |})
       \/ exists e, r = Throw e))
  \/ exists head lt,
      l = head ++ lt
      /\ forallb (head_may_call cfg (reset_of options) n) head = true
      /\ ((lt = [] /\ exists e, r = Throw e)
          \/ tail_calls E n sessionId userId options lt r).
Proof.
  intros H n qa. apply start_trace in H. fold qa in H.
  destruct H as [H | (pre & w0 & l' & -> & H & Hpre)]; [left; exact H|].
  right.
  assert (forallb (head_may_call cfg (reset_of options) n) pre = true) as Hp.
  { destruct Hpre as [(-> & _) | (-> & _)]; reflexivity. }
  apply start_session_trace in H. fold n in H.
  destruct H as [(-> & He) | [(-> & He) | H]].
  - eexists _, []. rewrite app_nil_r. split; [reflexivity|].
    split; [|left; auto]. rewrite forallb_app, Hp. reflexivity.
  - eexists _, []. rewrite app_nil_r. split; [reflexivity|].
    split; [|left; auto]. rewrite forallb_app, Hp. reflexivity.
  - destruct H as (probe & w2 & rb & w3 & lb & Hb & _ & H).
    apply container_action_may_call in Hb. apply action_in_head in Hb.
    destruct H as [(e & _ & -> & ->) | (lt & _ & -> & Ht)].
    + eexists _, []. rewrite app_nil_r. split; [reflexivity|].
      split; [|left; eauto]. rewrite !forallb_app, Hp, Hb. reflexivity.
    + exists (pre ++ [FindUnique (any_row sessionId userId); IsRunning n]
                  ++ lb), lt.
      split; [rewrite <- !app_assoc; reflexivity|].
      split; [|right; exact Ht].
      rewrite !forallb_app, Hp, Hb. reflexivity.
Qed.

(** X3.  [start] marks the row of the session as running at most once,
    and then with the name of the agent container; it notifies the
    project of the session at most once, and never without that update.
    The update needs a probe that answers that the agent container is
    running: with a Docker service whose probe never gives that answer
    for it, in no state, [start] makes no update. *)
Theorem start_update_guarded userId sessionId options w :
  let n := fst (utils_sessionContainerNames P sessionId) in
  let x := start cfg E P userId sessionId options w in
  count is_Update (calls x) <= 1
  /\ count is_NotifySessionChange (calls x) <= count is_Update (calls x)
  /\ (1 <= count is_Update (calls x) ->
      In (Update (any_row sessionId userId) (running_row n)) (calls x)
      /\ exists w1 w2,
          dockerService_isRunning E n w1 = (Ok (Some true), w2)).
Proof.
  intros n x. subst x.
  destruct (start cfg E P userId sessionId options w) as [[r w'] l] eqn:H.
  unfold calls. cbn [snd].
  apply start_head_tail in H. fold n in H.
  destruct H as [(_ & -> & _) | (head & lt & -> & Hh & H)].
  { count_simpl. split; [lia|]. split; [lia|]. intros F. inversion F. }
  assert (count is_Update head = 0) as Hu.
  { apply (count_excluded _ _ _ Hh). intros [] Hc; try reflexivity;
      discriminate Hc. }
  assert (count is_NotifySessionChange head = 0) as Hn.
  { apply (count_excluded _ _ _ Hh). intros [] Hc; try reflexivity;
      discriminate Hc. }
  rewrite !count_app, Hu, Hn.
  destruct H as [(-> & _) | H].
  { count_simpl. split; [lia|]. split; [lia|]. intros F. inversion F. }
  unfold tail_calls, checkout_calls, notify_calls in H.
  destruct H as [(-> & _) | (co & no & Hco & Hno & -> & Hprobe & _)].
  { count_simpl. split; [lia|]. split; [lia|]. intros F. inversion F. }
  assert (count is_Update co = 0 /\ count is_NotifySessionChange co = 0)
    as [Hc1 Hc2].
  { destruct Hco as [-> | (branch & _ & _ & [-> | (e & ->)])];
      split; reflexivity. }
  assert (count is_Update no = 0 /\ count is_NotifySessionChange no <= 1)
    as [Hn1 Hn2].
  { destruct Hno as [-> | (pid & ->)]; split; count_simpl; lia. }
  rewrite !count_app, Hc1, Hc2, Hn1. count_simpl.
  split; [lia|]. split; [lia|]. intros _. split; [|exact Hprobe].
  apply in_or_app. right. right. apply in_or_app. right.
  left. reflexivity.
Qed.


(** Finds where a call sits in a list that is known element by element:
    [H] says that [l ++ c :: _] is that list. *)
Ltac locate H l :=
  destruct l as [|? l]; cbn [app] in H;
  [ try discriminate H
  | first [ discriminate H
          | let Hh := fresh "Hh" in injection H as Hh H; locate H l ] ].

(** X5.  The only command [start] ever runs in a container is
    [git -C /workspace checkout <branch>], in the agent container of the
    session, for the branch asked for, and at most once.  Whether it
    succeeds or throws, the update of the row to [running] follows: a
    failed checkout is logged and does not fail the start. *)
Theorem checkout_best_effort userId sessionId options w l1 m argv l2 :
  let n := fst (utils_sessionContainerNames P sessionId) in
  calls (start cfg E P userId sessionId options w) = l1 ++ Exec m argv :: l2 ->
  m = n
  /\ count is_Exec l1 = 0 /\ count is_Exec l2 = 0
  /\ exists branch warned no,
      gitBranch_of options = Some branch /\ truthy branch = true
      /\ argv = checkout_argv branch
      /\ l2 = warned
              ++ Update (any_row sessionId userId) (running_row n) :: no
      /\ (warned = []
          \/ exists e, warned = [Warn (checkout_warning branch) e])
      /\ notify_calls no.
Proof.
  intros n.
  destruct (start cfg E P userId sessionId options w) as [[r w'] l] eqn:H.
  unfold calls. cbn [snd]. intros Hl.
  apply start_head_tail in H. fold n in H.
  destruct H as [(_ & -> & _) | (head & lt & -> & Hh & H)].
  { exfalso. symmetry in Hl. locate Hl l1. }
  assert (count is_Exec head = 0) as He.
  { apply (count_excluded _ _ _ Hh). intros [] Hc; try reflexivity;
      discriminate Hc. }
  destruct (split_after_quiet is_Exec head lt l1 l2 (Exec m argv) He eq_refl Hl)
    as (l1' & -> & Hlt).
  rewrite count_app, He. clear Hl Hh.
  destruct H as [(-> & _) | H].
  { exfalso. locate Hlt l1'. }
  unfold tail_calls in H.
  destruct H as [(-> & _) | (co & no & Hco & Hno & -> & _ & _)].
  { exfalso. locate Hlt l1'. }
  unfold checkout_calls in Hco.
  destruct Hco as [-> | (branch & Hb & Ht & [-> | (e & ->)])];
    destruct Hno as [-> | (pid & ->)]; cbn [app] in Hlt;
    locate Hlt l1'; inversion Hlt; subst;
    (split; [reflexivity|]); (split; [reflexivity|]);
    (split; [reflexivity|]); exists branch.
  all: unfold notify_calls.
  - exists [], []. repeat (split; [first [assumption | reflexivity]|]).
    split; left; reflexivity.
  - exists [], [NotifySessionChange pid].
    repeat (split; [first [assumption | reflexivity]|]).
    split; [left; reflexivity | right; eexists; reflexivity].
  - eexists [_], []. repeat (split; [first [assumption | reflexivity]|]).
    split; [right; eexists; reflexivity | left; reflexivity].
  - eexists [_], [NotifySessionChange pid].
    repeat (split; [first [assumption | reflexivity]|]).
    split; right; eexists; reflexivity.
Qed.

(** A turn of the create loop force-removes the container only when
    [run] has thrown a name conflict and the [start] of the container
    that holds the name has thrown too. *)
Lemma createAttempt_recovery n o a w r w' l m :
  createAttempt cfg E n o a w = (r, w', l) -> In (SafeRemove m) l ->
  exists e w1 e' w2,
    dockerService_run E o w = (Throw e, w1) /\ nameConflict e = true
    /\ dockerService_start E n w1 = (Throw e', w2).
Proof.
  unfold createAttempt. intros H Hin. unfold_calls H.
  minv; simpl in Hin;
    repeat match goal with
           | H : _ \/ _ |- _ => destruct H
           | H : False |- _ => destruct H
           | H : _ = SafeRemove _ |- _ => try discriminate H; clear H
           end;
    eexists _, _, _, _;
    (split; [eassumption|]); (split; [unfold nameConflict; eassumption|]);
    eassumption.
Qed.

Lemma createLoop_recovery n o m :
  forall t a launched w r w' l,
    createLoop cfg E n o t a launched w = (r, w', l) -> In (SafeRemove m) l ->
    exists w0 e w1 e' w2,
      dockerService_run E o w0 = (Throw e, w1) /\ nameConflict e = true
      /\ dockerService_start E n w1 = (Throw e', w2).
Proof.
  induction t as [|t IH]; intros a launched w r w' l H Hin.
  - apply ret_inv in H. destruct H as (_ & _ & ->). destruct Hin.
  - cbn [createLoop] in H.
    destruct ((a <=? MAX_LAYER_RETRIES) && negb launched).
    2:{ apply ret_inv in H. destruct H as (_ & _ & ->). destruct Hin. }
    apply bind_inv in H.
    destruct H as [(b & w1 & l1 & l2 & Hturn & Hrest & ->) | (e & Hturn & ->)].
    + apply in_app_or in Hin. destruct Hin as [Hin | Hin].
      * exists w. eapply createAttempt_recovery; eassumption.
      * eapply IH; eassumption.
    + exists w. eapply createAttempt_recovery; eassumption.
Qed.

Lemma resolveWorkspaceMount_fs suffix w r w' l :
  resolveWorkspaceMount cfg E P suffix w = (r, w', l) ->
  forallb is_fs l = true.
Proof.
  unfold resolveWorkspaceMount. intros H. unfold_calls H.
  minv; reflexivity.
Qed.

Lemma buildAgentMounts_fs userId w r w' l :
  buildAgentMounts cfg E P userId w = (r, w', l) ->
  forallb is_fs l = true.
Proof.
  unfold buildAgentMounts, ensureClaudeState, ensureAgentsConfig.
  intros H. unfold_calls H. minv; reflexivity.
Qed.

Lemma tail_no_container_change n sessionId userId options lt r :
  tail_calls E n sessionId userId options lt r ->
  count is_SafeRemove lt = 0 /\ count is_Run lt = 0.
Proof.
  unfold tail_calls, checkout_calls, notify_calls.
  intros [(-> & _) | (co & no & Hco & Hno & -> & _)]; [split; reflexivity|].
  destruct Hco as [-> | (branch & _ & _ & [-> | (e & ->)])];
    destruct Hno as [-> | (pid & ->)]; split; reflexivity.
Qed.

(** The whole of [start], around its create loop: either it never gets
    there, or it makes preparatory calls, then the calls of the loop on the
    options built from the mounts, then those of its tail. *)
Lemma start_loop_shape userId sessionId options w r w' l :
  start cfg E P userId sessionId options w = (r, w', l) ->
  let n := fst (utils_sessionContainerNames P sessionId) in
  (count is_SafeRemove l = 0 /\ count is_Run l = 0)
  \/ exists pre ms k last lt,
      l = pre ++ retries (runOptions cfg P n ms) k ++ last ++ lt
      /\ forallb is_preparation pre = true
      /\ last_turn n net (runOptions cfg P n ms) last
      /\ count is_SafeRemove lt = 0 /\ count is_Run lt = 0
      /\ (exists w4 r4 w5,
             createLoop cfg E n (runOptions cfg P n ms)
                        (S MAX_LAYER_RETRIES) 0 false w4
             = (r4, w5, retries (runOptions cfg P n ms) k ++ last))
      /\ exists wm am w1 w2 lm,
          buildAgentMounts cfg E P userId w1 = (Ok am, w2, lm)
          /\ ms = am ++ workspace_mount wm.
Proof.
  intros H n. apply start_trace in H.
  destruct H as [(_ & -> & _) | (pre & w0 & l' & -> & H & Hpre)];
    [left; split; reflexivity|].
  assert (forallb is_preparation pre = true
          /\ count is_SafeRemove pre = 0 /\ count is_Run pre = 0)
    as (Hp1 & Hp2 & Hp3).
  { destruct Hpre as [(-> & _) | (-> & _)]; repeat split. }
  apply start_session_trace in H. fold n in H.
  destruct H as [(-> & _) | [(-> & _) | H]].
  1,2: left; rewrite !count_app, Hp2, Hp3; split; reflexivity.
  destruct H as (probe & w2 & rb & w3 & lb & Hb & _ & H).
  assert (exists lt, l' = [FindUnique (any_row sessionId userId); IsRunning n]
                          ++ lb ++ lt
                     /\ count is_SafeRemove lt = 0 /\ count is_Run lt = 0)
    as (lt & -> & Ht1 & Ht2).
  { destruct H as [(e & _ & _ & ->) | (lt & _ & -> & Ht)].
    - exists []. rewrite app_nil_r. repeat split.
    - exists lt. split; [reflexivity|].
      eapply tail_no_container_change. exact Ht. }
  clear H. destruct probe as [b|]; cbn [container_action] in Hb.
  { left. unfold restart, start_container in Hb.
    minv; rewrite !count_app, Hp2, Hp3, Ht1, Ht2; split; reflexivity. }
  apply createContainer_trace in Hb.
  destruct Hb as (lws & lm & (rw & w1 & Hws) & Hm & Hb).
  apply resolveWorkspaceMount_fs in Hws.
  assert (forallb is_fs lm = true) as Hlm.
  { destruct Hm as [-> | (w4 & rm & w5 & Hm)]; [reflexivity|].
    eapply buildAgentMounts_fs. exact Hm. }
  assert (forall p : Call -> bool,
             (forall c, is_fs c = true -> p c = false) ->
             count p lws = 0 /\ count p lm = 0) as Hfs.
  { intros p Hp. split; eapply count_excluded; eassumption. }
  destruct (Hfs is_SafeRemove) as [Hs1 Hs2];
    [intros [] Hc; try reflexivity; discriminate Hc|].
  destruct (Hfs is_Run) as [Hr1 Hr2];
    [intros [] Hc; try reflexivity; discriminate Hc|].
  destruct Hb as [(-> & _) | [(-> & _) | [(-> & _) | Hb]]].
  1,2,3: left; rewrite !count_app, Hp2, Hp3, Hs1, Hs2, Hr1, Hr2, Ht1, Ht2;
         split; reflexivity.
  destruct Hb as (ms & k & last & -> & _ & Hlast & _ & Hloop & Hms).
  right.
  exists (pre ++ [FindUnique (any_row sessionId userId); IsRunning n]
              ++ lws ++ lm ++ [EnsureNetwork net true; Pull (TTYD_IMAGE cfg)]).
  exists ms, k, last, lt.
  split; [rewrite <- !app_assoc; reflexivity|].
  split.
  { rewrite !forallb_app, Hp1. cbn [forallb is_preparation andb].
    assert (forall l0, forallb is_fs l0 = true ->
                       forallb is_preparation l0 = true) as Hmono.
    { intros l0 H0. apply forallb_forall. intros c Hc.
      rewrite forallb_forall in H0. specialize (H0 c Hc).
      destruct c; try discriminate H0; reflexivity. }
    rewrite (Hmono _ Hws), (Hmono _ Hlm). reflexivity. }
  split; [exact Hlast|]. split; [exact Ht1|]. split; [exact Ht2|].
  split.
  { destruct Hloop as (w4 & Hloop). eauto. }
  destruct Hms as (wm & am & w4 & w5 & Hbuild & ->).
  exists wm, am, w4, w5, lm. split; [exact Hbuild | reflexivity].
Qed.

(** X6.  [start] force-removes a container at most once, and only the
    agent container of the session, as the third step of the recovery
    from a name conflict: right after a [run] and a [start] of that
    container.  It needs a [run] that throws a name conflict and, in the
    state that this [run] leaves, a [start] of the container that throws
    as well: with a Docker service that has no such pair of answers,
    [start] force-removes nothing. *)
Theorem force_remove_in_recovery_only userId sessionId options w m :
  let n := fst (utils_sessionContainerNames P sessionId) in
  let x := start cfg E P userId sessionId options w in
  In (SafeRemove m) (calls x) ->
  m = n
  /\ count is_SafeRemove (calls x) = 1
  /\ (exists before o after,
         calls x = before ++ Run o :: Start n :: SafeRemove n :: after)
  /\ exists w0 o e w1 e' w2,
      dockerService_run E o w0 = (Throw e, w1) /\ nameConflict e = true
      /\ dockerService_start E n w1 = (Throw e', w2).
Proof.
  intros n x. subst x.
  destruct (start cfg E P userId sessionId options w) as [[r w'] l] eqn:H.
  unfold calls. cbn [snd]. intros Hin.
  apply start_loop_shape in H. fold n in H.
  destruct H as [(H0 & _) | H].
  { pose proof (count_zero_not_In is_SafeRemove l (SafeRemove m) H0 Hin) as F.
    discriminate F. }
  destruct H as (pre & ms & k & last & lt & -> & Hpre & Hlast & Hlt & _
                     & (w4 & r4 & w5 & Hloop) & _).
  set (o := runOptions cfg P n ms) in *.
  assert (count is_SafeRemove pre = 0) as Hp.
  { apply (count_excluded _ _ _ Hpre). intros [] Hc; try reflexivity;
      discriminate Hc. }
  pose proof (count_retries is_SafeRemove o k) as Hk.
  cbn [is_SafeRemove] in Hk. rewrite Nat.mul_0_r in Hk.
  assert (In (SafeRemove m) last) as Hl.
  { apply in_app_or in Hin. destruct Hin as [Hin | Hin].
    { pose proof (count_zero_not_In _ _ _ Hp Hin) as F. discriminate F. }
    apply in_app_or in Hin. destruct Hin as [Hin | Hin].
    { pose proof (count_zero_not_In _ _ _ Hk Hin) as F. discriminate F. }
    apply in_app_or in Hin. destruct Hin as [Hin | Hin]; [exact Hin|].
    pose proof (count_zero_not_In _ _ _ Hlt Hin) as F. discriminate F. }
  assert (m = n /\ count is_SafeRemove last = 1
          /\ exists rest, last = Run o :: Start n :: SafeRemove n :: rest)
    as (-> & Hc & rest & Hrest).
  { unfold last_turn in Hlast.
    destruct Hlast as [-> | [-> | [-> | [-> | ->]]]]; simpl in Hl;
      repeat match goal with
             | H : _ \/ _ |- _ => destruct H
             | H : False |- _ => destruct H
             | H : _ = SafeRemove _ |- _ =>
                 first [discriminate H | inversion H; clear H]
             end;
      (split; [reflexivity|]); (split; [reflexivity|]);
      eexists; reflexivity. }
  split; [reflexivity|]. split.
  { rewrite !count_app, Hp, Hk, Hc, Hlt. reflexivity. }
  split.
  { exists (pre ++ retries o k), o, (rest ++ lt). rewrite Hrest.
    rewrite <- !app_assoc. reflexivity. }
  destruct (createLoop_recovery n o n _ _ _ _ _ _ _ Hloop)
    as (w0 & e & w1 & e' & w2 & Hrec);
    [apply in_or_app; right; exact Hl|].
  exists w0, o, e, w1, e', w2. exact Hrec.
Qed.

Lemma buildAgentMounts_targets userId w am w' l :
  buildAgentMounts cfg E P userId w = (Ok am, w', l) ->
  map mount_point am = AGENT_MOUNT_TARGETS.
Proof.
  unfold buildAgentMounts, ensureClaudeState, ensureAgentsConfig.
  intros H. unfold_calls H. minv; reflexivity.
Qed.

(** X7.  Every container that [start] creates is created under the name
    of the agent container of the session, from the configured image, on
    the internal network, with the agent mounts at their fixed places
    ([/certs] read-only, the others without a mode) followed by at most one
    more mount, the workspace at [/workspace]. *)
Theorem run_options_invariant userId sessionId options w o :
  let n := fst (utils_sessionContainerNames P sessionId) in
  In (Run o) (calls (start cfg E P userId sessionId options w)) ->
  name o = n /\ image o = TTYD_IMAGE cfg
  /\ network o = TTYD_INTERNAL_NETWORK cfg
  /\ (map mount_point (mounts o) = AGENT_MOUNT_TARGETS
      \/ map mount_point (mounts o)
         = AGENT_MOUNT_TARGETS ++ [(#"/workspace", None)]).
Proof.
  intros n.
  destruct (start cfg E P userId sessionId options w) as [[r w'] l] eqn:H.
  unfold calls. cbn [snd]. intros Hin.
  apply start_loop_shape in H. fold n in H.
  destruct H as [(_ & H0) | H].
  { pose proof (count_zero_not_In is_Run l (Run o) H0 Hin) as F.
    discriminate F. }
  destruct H as (pre & ms & k & last & lt & -> & Hpre & Hlast & _ & Hlt
                     & _ & (wm & am & w1 & w2 & lm & Hbuild & ->)).
  assert (count is_Run pre = 0) as Hp.
  { apply (count_excluded _ _ _ Hpre). intros [] Hc; try reflexivity;
      discriminate Hc. }
  assert (o = runOptions cfg P n (am ++ workspace_mount wm)) as ->.
  { apply in_app_or in Hin. destruct Hin as [Hin | Hin].
    { pose proof (count_zero_not_In _ _ _ Hp Hin) as F. discriminate F. }
    apply in_app_or in Hin. destruct Hin as [Hin | Hin].
    { eapply In_Run_retries. exact Hin. }
    apply in_app_or in Hin. destruct Hin as [Hin | Hin].
    { eapply In_Run_last_turn; eassumption. }
    pose proof (count_zero_not_In _ _ _ Hlt Hin) as F. discriminate F. }
  split; [reflexivity|]. split; [reflexivity|]. split; [reflexivity|].
  cbn [mounts runOptions]. rewrite map_app.
  rewrite (buildAgentMounts_targets _ _ _ _ _ Hbuild).
  unfold workspace_mount. destruct wm as [[|c d]|]; cbn [truthy_opt truthy map].
  - left. apply app_nil_r.
  - right. reflexivity.
  - left. apply app_nil_r.
Qed.

(** X8.  Building the agent mounts creates the [.claude] directory of the
    user first and stops there when that fails.  It then looks for the
    user's [.claude.json]: a file that can be accessed is left as it is,
    and when the access fails, for whatever reason, the file is written
    once, with the content [{}] and a line feed.  No other file is ever
    written. *)
Theorem claude_json_seeded_once userId w :
  let statePath := COMMANDER_BASE_PATH cfg ++ #"/.state" in
  let claudeBase := node_path_resolve P [statePath; userId; #"claude"] in
  let claudeJson := node_path_join P [claudeBase; #".claude.json"] in
  let claudeDir := node_path_join P [claudeBase; #".claude"] in
  let x := buildAgentMounts cfg E P userId w in
  match fs_mkdir_recursive E claudeDir w with
  | (Throw e, _) => outcome x = Throw e /\ calls x = [Mkdir claudeDir]
  | (Ok _, w1) =>
      match fs_access E claudeJson w1 with
      | (Ok _, _) =>
          firstn 2 (calls x) = [Mkdir claudeDir; Access claudeJson]
          /\ count is_WriteFile (calls x) = 0
      | (Throw _, _) =>
          firstn 3 (calls x)
          = [Mkdir claudeDir; Access claudeJson;
             WriteFile claudeJson (#"{}" ++ [10%N])]
          /\ count is_WriteFile (calls x) = 1
      end
  end.
Proof.
  intros statePath claudeBase claudeJson claudeDir x. subst x.
  unfold buildAgentMounts, ensureClaudeState, ensureAgentsConfig.
  cbv zeta.
  change (COMMANDER_BASE_PATH cfg ++ #"/.state") with statePath.
  change (node_path_resolve P [statePath; userId; #"claude"]) with claudeBase.
  change (node_path_join P [claudeBase; #".claude.json"]) with claudeJson.
  change (node_path_join P [claudeBase; #".claude"]) with claudeDir.
  unfold bind, try_catch, mkdir, access, writeFile, perform, ret, outcome,
    calls.
  destruct (fs_mkdir_recursive E claudeDir w) as [[u|e] w1]; cbn [fst snd];
    [|split; reflexivity].
  destruct (fs_access E claudeJson w1) as [[u2|e2] w2]; cbn [fst snd].
  - destruct (fs_mkdir_recursive E (COMMANDER_BASE_PATH cfg ++ #"/agents") w2)
      as [[u3|e3] w3]; cbn [fst snd app]; split; reflexivity.
  - destruct (fs_writeFile E claudeJson (#"{}" ++ [10%N]) w2)
      as [[u3|e3] w3]; cbn [fst snd app]; [|split; reflexivity].
    destruct (fs_mkdir_recursive E (COMMANDER_BASE_PATH cfg ++ #"/agents") w3)
      as [[u4|e4] w4]; cbn [fst snd app]; split; reflexivity.
Qed.


End Lifecycle.

Lemma start_unknown_session_witness :
  let x := start (config None None) (scripted stopped_session) posix
                 #"u1" #"s1" None fresh in
  outcome x = Throw (TRPCError NOT_FOUND #"Session not found.")
  /\ calls x = [FindUnique (active_row #"s1" #"u1");
                FindUnique (any_row #"s1" #"u1")]
  /\ world x = fresh.
Proof.
  apply (start_unknown_session (config None None) (scripted stopped_session)
           posix #"u1" #"s1" None fresh fresh
           (session_s1 #"stopped" (any_row #"s1" #"u1")) fresh).
  - reflexivity.
  - reflexivity.
  - intros s Hs. vm_compute in Hs. inversion Hs. reflexivity.
Defined.

Lemma start_update_guarded_witness :
  let x := start (config None None) (scripted cold) posix #"u1" #"s1" None
                 fresh in
  In (Update (any_row #"s1" #"u1") (running_row #"oc-sess-s1")) (calls x).
Proof.
  refine (proj1 (proj2 (proj2
            (start_update_guarded (config None None) (scripted cold) posix
                                  #"u1" #"s1" None fresh)) _)).
  vm_compute. apply le_n.
Defined.


(** A checkout that fails: the warning, the update and the notification
    follow. *)
Lemma checkout_best_effort_witness :
  let x := start (config None None) checkout_fails posix #"u1" #"s1"
                 (on_branch #"main") fresh in
  #"oc-sess-s1" = #"oc-sess-s1"
  /\ count is_Exec (firstn 10 (calls x)) = 0
  /\ count is_Exec (skipn 11 (calls x)) = 0
  /\ exists branch warned no,
      gitBranch_of (on_branch #"main") = Some branch
      /\ truthy branch = true
      /\ checkout_argv #"main" = checkout_argv branch
      /\ skipn 11 (calls x)
         = warned
           ++ Update (any_row #"s1" #"u1") (running_row #"oc-sess-s1") :: no
      /\ (warned = []
          \/ exists e, warned = [Warn (checkout_warning branch) e])
      /\ notify_calls no.
Proof.
  intros x.
  exact (checkout_best_effort (config None None) checkout_fails posix
           #"u1" #"s1" (on_branch #"main") fresh
           (firstn 10 (calls x)) #"oc-sess-s1" (checkout_argv #"main")
           (skipn 11 (calls x)) eq_refl).
Defined.

Lemma force_remove_in_recovery_only_witness :
  let x := start (config None None) (scripted name_taken) posix #"u1" #"s1"
                 None fresh in
  #"oc-sess-s1" = #"oc-sess-s1"
  /\ count is_SafeRemove (calls x) = 1
  /\ (exists before o after,
         calls x = before ++ Run o :: Start #"oc-sess-s1"
                          :: SafeRemove #"oc-sess-s1" :: after)
  /\ exists w0 o e w1 e' w2,
      dockerService_run (scripted name_taken) o w0 = (Throw e, w1)
      /\ nameConflict e = true
      /\ dockerService_start (scripted name_taken) #"oc-sess-s1" w1
         = (Throw e', w2).
Proof.
  refine (force_remove_in_recovery_only (config None None)
            (scripted name_taken) posix #"u1" #"s1" None fresh
            #"oc-sess-s1" _).
  vm_compute. repeat first [left; reflexivity | right].
Defined.

Lemma run_options_invariant_witness :
  let o := cold_workspace_options in
  name o = #"oc-sess-s1" /\ image o = #"opencommander/core"
  /\ network o = #"oc-internal"
  /\ (map mount_point (mounts o) = AGENT_MOUNT_TARGETS
      \/ map mount_point (mounts o)
         = AGENT_MOUNT_TARGETS ++ [(#"/workspace", None)]).
Proof.
  refine (run_options_invariant (config (Some #"/srv/workspace") None)
            (scripted cold) posix #"u1" #"s1" None fresh
            cold_workspace_options _).
  vm_compute. repeat first [left; reflexivity | right].
Defined.

End SessionLifecycleFacts.

(* ================================================================== *)
(** * Facts: splitting and joining strings *)
(* ================================================================== *)

Module JsSplitFacts.

Lemma code_eqb_eq (a b : N) : code_eqb a b = true <-> a = b.
Proof. unfold code_eqb. apply N.eqb_eq. Qed.

Lemma split_go_nonempty (c : N) (s cur : jsstring) : split_go c cur s <> [].
Proof.
  revert cur. induction s as [|a s IH]; intros cur; simpl.
  - discriminate.
  - destruct (code_eqb a c); [discriminate | apply IH].
Qed.

(** Joining the pieces with the separator gives the string back. *)
Lemma split_go_join (c : N) (s cur : jsstring) :
  join [c] (split_go c cur s) = rev cur ++ s.
Proof.
  revert cur. induction s as [|a s IH]; intros cur; simpl.
  - rewrite app_nil_r. reflexivity.
  - destruct (code_eqb a c) eqn:Hac.
    + apply code_eqb_eq in Hac. subst a.
      specialize (IH []). cbn [rev app] in IH.
      destruct (split_go c [] s) as [|y ys] eqn:Hs.
      * exfalso. exact (split_go_nonempty c s [] Hs).
      * change (join [c] (rev cur :: y :: ys))
          with (rev cur ++ [c] ++ join [c] (y :: ys)).
        rewrite IH. reflexivity.
    + rewrite IH. simpl. rewrite <- app_assoc. reflexivity.
Qed.

Lemma join_split (s : jsstring) (c : N) : join [c] (split s c) = s.
Proof. unfold split. rewrite split_go_join. reflexivity. Qed.

(** No piece holds the separator. *)
Lemma split_go_pieces (c : N) (s cur : jsstring) :
  ~ In c cur -> Forall (fun p => ~ In c p) (split_go c cur s).
Proof.
  revert cur. induction s as [|a s IH]; intros cur Hcur; simpl.
  - constructor; [|constructor]. intros Hin. apply in_rev in Hin. auto.
  - destruct (code_eqb a c) eqn:Hac.
    + constructor.
      * intros Hin. apply in_rev in Hin. auto.
      * apply IH. intros [].
    + apply IH. intros [Hin | Hin]; [|auto].
      subst a. unfold code_eqb in Hac. rewrite N.eqb_refl in Hac.
      discriminate Hac.
Qed.

Lemma split_pieces (s : jsstring) (c : N) :
  Forall (fun p => ~ In c p) (split s c).
Proof. apply split_go_pieces. intros []. Qed.

Lemma split_go_no_sep (c : N) (s cur : jsstring) :
  ~ In c s -> split_go c cur s = [rev cur ++ s].
Proof.
  revert cur. induction s as [|a s IH]; intros cur Hs; simpl.
  - rewrite app_nil_r. reflexivity.
  - destruct (code_eqb a c) eqn:Hac.
    + apply code_eqb_eq in Hac. subst a. exfalso. apply Hs. left. reflexivity.
    + rewrite IH by (intros Hin; apply Hs; right; exact Hin).
      simpl. rewrite <- app_assoc. reflexivity.
Qed.

Lemma split_go_app (c : N) (a b cur : jsstring) :
  ~ In c a ->
  split_go c cur (a ++ c :: b) = (rev cur ++ a) :: split_go c [] b.
Proof.
  revert cur. induction a as [|x a IH]; intros cur Ha; simpl.
  - unfold code_eqb. rewrite N.eqb_refl, app_nil_r. reflexivity.
  - destruct (code_eqb x c) eqn:Hxc.
    + apply code_eqb_eq in Hxc. subst x. exfalso. apply Ha. left. reflexivity.
    + rewrite IH by (intros Hin; apply Ha; right; exact Hin).
      simpl. rewrite <- app_assoc. reflexivity.
Qed.

(** A string splits in two exactly when it holds the separator once. *)
Lemma split_two (s a b : jsstring) (c : N) :
  split s c = [a; b] <-> s = a ++ c :: b /\ ~ In c a /\ ~ In c b.
Proof.
  split.
  - intros H. pose proof (join_split s c) as Hj.
    pose proof (split_pieces s c) as Hp. rewrite H in Hj, Hp.
    simpl in Hj. inversion Hp as [|? ? Ha Hp']. inversion Hp' as [|? ? Hb _].
    subst. auto.
  - intros (-> & Ha & Hb). unfold split.
    rewrite split_go_app by exact Ha.
    rewrite split_go_no_sep by exact Hb. reflexivity.
Qed.

Lemma split_length (s : jsstring) (c : N) :
  length (split s c) = S (count_occ N.eq_dec s c).
Proof.
  unfold split. generalize (@nil N) as cur.
  induction s as [|a s IH]; intros cur; simpl; [reflexivity|].
  unfold code_eqb. destruct (N.eq_dec a c) as [->|Hne].
  - rewrite N.eqb_refl. simpl. rewrite IH. reflexivity.
  - apply N.eqb_neq in Hne. rewrite Hne. apply IH.
Qed.

End JsSplitFacts.

(* ================================================================== *)
(** * Facts: the git workspace service, beyond the redaction *)
(* ================================================================== *)

Module GitWorkspaceFacts.
Import GitService.

Section Workspace.
Context {W : Type}.
Variable E : @Env W.
Variable cfg : Config.

Ltac unfold_calls H :=
  unfold stat_isDirectory, rm, mkdir, exec, console_log, console_warn in H.

(** X10.  [parseRepository] touches nothing.  It accepts a string exactly
    when, once trimmed, it is a non-empty owner, one slash and a
    non-empty name, neither of which holds a slash, and returns the two
    as they stand: joined by a slash they give the trimmed string back.
    Everything else is refused with an error that quotes the string as it
    was given. *)
Theorem parseRepository_accepts (repository : jsstring) (w : W) :
  let x := parseRepository repository w in
  calls x = [] /\ world x = w
  /\ (forall owner repo,
         outcome x = Ok (owner, repo)
         <-> trim repository = owner ++ slash :: repo
             /\ owner <> [] /\ repo <> []
             /\ ~ In slash owner /\ ~ In slash repo)
  /\ (forall e, outcome x = Throw e -> e = invalid_repository repository).
Proof.
  intros x. subst x. unfold parseRepository, invalid_repository.
  assert (forall a b, truthy a && truthy b = true <-> a <> [] /\ b <> [])
    as Htruthy.
  { intros [|? ?] [|? ?]; simpl; split; try discriminate; try tauto;
      intros _; split; discriminate. }
  destruct (split (trim repository) 47) as [|a [|b [|c rest]]] eqn:Hs.
  - exfalso. exact (JsSplitFacts.split_go_nonempty _ _ _ Hs).
  - split; [reflexivity|]. split; [reflexivity|]. split.
    + intros owner repo. split; [intros H; discriminate H|].
      intros (Ht & _ & _ & Ho & Hr).
      assert (split (trim repository) 47 = [owner; repo]) as Hs'.
      { apply JsSplitFacts.split_two. auto. }
      rewrite Hs in Hs'. discriminate Hs'.
    + intros e H. inversion H. reflexivity.
  - apply JsSplitFacts.split_two in Hs. destruct Hs as (Ht & Ha & Hb).
    destruct (truthy a && truthy b) eqn:Hab.
    + apply Htruthy in Hab. destruct Hab as [Hna Hnb].
      split; [reflexivity|]. split; [reflexivity|]. split.
      * intros owner repo. split.
        -- intros H. inversion H. subst. auto.
        -- intros (Ht' & _ & _ & Ho & Hr).
           assert (split (trim repository) 47 = [owner; repo]) as H1
             by (apply JsSplitFacts.split_two; auto).
           assert (split (trim repository) 47 = [a; b]) as H2
             by (apply JsSplitFacts.split_two; auto).
           rewrite H1 in H2. inversion H2. reflexivity.
      * intros e H. discriminate H.
    + split; [reflexivity|]. split; [reflexivity|]. split.
      * intros owner repo. split; [intros H; discriminate H|].
        intros (Ht' & Hno & Hnr & Ho & Hr).
        assert (split (trim repository) 47 = [owner; repo]) as H1
          by (apply JsSplitFacts.split_two; auto).
        assert (split (trim repository) 47 = [a; b]) as H2
          by (apply JsSplitFacts.split_two; auto).
        rewrite H1 in H2. inversion H2. subst.
        assert (truthy a && truthy b = true) as F by (apply Htruthy; auto).
        rewrite F in Hab. discriminate Hab.
      * intros e H. inversion H. reflexivity.
  - split; [reflexivity|]. split; [reflexivity|]. split.
    + intros owner repo. split; [intros H; discriminate H|].
      intros (Ht & _ & _ & Ho & Hr).
      assert (split (trim repository) 47 = [owner; repo]) as Hs'.
      { apply JsSplitFacts.split_two. auto. }
      rewrite Hs in Hs'. discriminate Hs'.
    + intros e H. inversion H. reflexivity.
Qed.

(** [clone], as far as it gets: it returns exactly when the [git clone]
    command returned. *)
Lemma clone_trace cloneUrl targetPath repository w r w' l :
  clone E cfg cloneUrl targetPath repository w = (r, w', l) ->
  clone_calls cfg cloneUrl targetPath repository l
  /\ (l <> [])
  /\ ((exists e, r = Throw e)
      \/ (r = Ok tt
          /\ In (ExecAsync (clone_command cloneUrl targetPath)
                           {| cwd := None; timeout := Some 300000%N |}) l
          /\ exists w0 w1,
              execAsync E (clone_command cloneUrl targetPath)
                        {| cwd := None; timeout := Some 300000%N |} w0
              = (Ok tt, w1))).
Proof.
  unfold clone, clone_calls. intros H. unfold_calls H.
  minv; cbn [app];
    (split; [auto|]); (split; [discriminate|]);
    first [ left; eexists; reflexivity
          | right; split; [reflexivity|];
            split; [simpl; auto|];
            match goal with
            | Hx : execAsync E _ _ _ = (Ok ?u, _) |- _ => destruct u
            end; eauto ].
Qed.

Lemma parseRepository_pure repository (w : W) r w' l :
  parseRepository repository w = (r, w', l) ->
  w' = w /\ l = []
  /\ ((exists owner repo, r = Ok (owner, repo))
      \/ r = Throw (invalid_repository repository)).
Proof.
  unfold parseRepository, invalid_repository. intros H.
  minv; repeat split; eauto.
Qed.

Lemma getRepoPath_pure owner repo (w : W) r w' l :
  getRepoPath cfg owner repo w = (r, w', l) ->
  w' = w /\ l = []
  /\ ((exists root, AGENT_WORKSPACE cfg = Some root /\ truthy root = true
                    /\ r = Ok (node_path_join cfg
                                  [root; REPOS_SUBDIR; owner; repo]))
      \/ r = Throw not_configured).
Proof.
  unfold getRepoPath, not_configured. intros H.
  minv; repeat split; eauto.
Qed.

Lemma directoryExists_spec p w r w' l :
  directoryExists E p w = (r, w', l) ->
  l = [Stat p] /\ exists b, r = Ok b.
Proof.
  unfold directoryExists. intros H. unfold_calls H.
  minv; split; eauto.
Qed.

(** [cloneOrPull], route by route. *)
Lemma cloneOrPull_trace repository w r w' l :
  cloneOrPull E cfg repository w = (r, w', l) ->
  (l = [] /\ (r = Throw (invalid_repository repository)
              \/ r = Throw not_configured))
  \/ exists owner repo root,
      parseRepository repository w = (Ok (owner, repo), w, [])
      /\ AGENT_WORKSPACE cfg = Some root /\ truthy root = true
      /\ let p := node_path_join cfg [root; REPOS_SUBDIR; owner; repo] in
         let git := node_path_join cfg [p; #".git"] in
         let url := cloneUrl_of cfg owner repo in
         let rel := node_path_join cfg [REPOS_SUBDIR; owner; repo] in
         let pull := [ Stat p; Stat git;
                       Log (#"[git.service] Repository exists, pulling: "
                              ++ repository);
                       ExecAsync fetch_command
                                 {| cwd := Some p; timeout := None |} ] in
         (r = Ok rel \/ exists e, r = Throw e)
         /\ ((exists lc, l = Stat p :: lc
                         /\ clone_calls cfg url p repository lc)
             \/ (l = pull ++ [Log (#"[git.service] Pull successful: "
                                     ++ repository)]
                 /\ r = Ok rel
                 /\ exists w0 w1,
                     execAsync E fetch_command
                               {| cwd := Some p; timeout := None |} w0
                     = (Ok tt, w1))
             \/ (exists e lc,
                    l = pull
                        ++ [Warn (#"[git.service] Pull failed, will re-clone: "
                                    ++ repository) e; Rm p] ++ lc
                    /\ (lc = [] \/ clone_calls cfg url p repository lc)
                    /\ exists w0 w1,
                        execAsync E fetch_command
                                  {| cwd := Some p; timeout := None |} w0
                        = (Throw e, w1))
             \/ (exists lc,
                    l = [ Stat p; Stat git;
                          Log (#"[git.service] Directory exists but not a git repo, removing: "
                                 ++ p);
                          Rm p ] ++ lc
                    /\ (lc = [] \/ clone_calls cfg url p repository lc)))
         /\ (r = Ok rel ->
             exists c o w0 w1,
               In (ExecAsync c o) l /\ execAsync E c o w0 = (Ok tt, w1)).
Proof.
  intros H. unfold cloneOrPull in H.
  apply bind_inv in H.
  destruct H as [(parsed & w1 & l1 & l2 & Hparse & H & ->) | (e & Hparse & ->)];
    pose proof Hparse as Hparse0;
    apply parseRepository_pure in Hparse; destruct Hparse as (-> & -> & Hp).
  2:{ left. split; [reflexivity|]. left.
      destruct Hp as [(? & ? & Hp) | Hp]; [discriminate Hp|].
      inversion Hp. reflexivity. }
  destruct parsed as [owner repo]. cbn [app].
  apply bind_inv in H.
  destruct H as [(p & w2 & l3 & l4 & Hpath & H & ->) | (e & Hpath & ->)];
    apply getRepoPath_pure in Hpath; destruct Hpath as (-> & -> & Hg).
  2:{ left. split; [reflexivity|]. right.
      destruct Hg as [(? & _ & _ & Hg) | Hg]; [discriminate Hg|].
      inversion Hg. reflexivity. }
  destruct Hg as [(root & Hroot & Htruthy & Hg) | Hg]; [|discriminate Hg].
  inversion Hg. subst p. clear Hg. cbn [app].
  right. exists owner, repo, root.
  split; [exact Hparse0|]. split; [exact Hroot|]. split; [exact Htruthy|].
  cbv zeta.
  set (p := node_path_join cfg [root; REPOS_SUBDIR; owner; repo]) in *.
  set (git := node_path_join cfg [p; #".git"]) in *.
  set (url := cloneUrl_of cfg owner repo) in *.
  set (rel := node_path_join cfg [REPOS_SUBDIR; owner; repo]) in *.
  apply bind_inv in H.
  destruct H as [(ex & w3 & ls & l5 & Hs & H & ->) | (e & Hs & ->)];
    apply directoryExists_spec in Hs; destruct Hs as (-> & b0 & Hs);
    [|discriminate Hs].
  clear Hs.
  assert (exists rb lb,
             l5 = lb
             /\ ((rb = Ok tt /\ r = Ok rel) \/ exists e, rb = Throw e /\ r = Throw e)
             /\ (if ex
                 then (git0 <- isGitRepo E cfg p;;
                       (if git0
                        then
                          console_log
                            (#"[git.service] Repository exists, pulling: "
                               ++ repository);;;
                          try_catch
                            (exec E fetch_command
                                  {| cwd := Some p; timeout := None |};;;
                             console_log (#"[git.service] Pull successful: "
                                             ++ repository))
                            (fun error : Thrown =>
                               console_warn
                                 (#"[git.service] Pull failed, will re-clone: "
                                    ++ repository) error;;;
                               rm E p;;; clone E cfg url p repository)
                        else
                          console_log
                            (#"[git.service] Directory exists but not a git repo, removing: "
                               ++ p);;;
                          rm E p;;; clone E cfg url p repository))
                 else clone E cfg url p repository) w3 = (rb, w', lb))
    as (rb & lb & -> & Hr & Hb).
  { apply bind_inv in H.
    destruct H as [(u & w4 & lb & l6 & Hb & H & ->) | (e & Hb & ->)].
    - apply ret_inv in H. destruct H as (-> & -> & ->). destruct u.
      exists (Ok tt), lb. rewrite app_nil_r. split; [reflexivity|].
      split; [left; auto | exact Hb].
    - exists (Throw e), l5. split; [reflexivity|].
      split; [right; eauto | exact Hb]. }
  clear H.
  split.
  { destruct Hr as [(_ & ->) | (e & _ & ->)]; [left; reflexivity|right; eauto]. }
  destruct ex.
  - unfold isGitRepo in Hb. apply bind_inv in Hb.
    destruct Hb as [(g & w4 & lg & l6 & Hg & Hb & ->) | (e & Hg & ->)];
      apply directoryExists_spec in Hg; destruct Hg as (Hlg & b1 & Hg);
      [|discriminate Hg].
    subst lg. clear Hg. fold git in Hb |- *.
    destruct g; unfold_calls Hb; minv;
      repeat match goal with
             | Hc : clone _ _ _ _ _ _ = _ |- _ =>
                 apply clone_trace in Hc; destruct Hc as (? & ? & ?)
             | u : unit |- _ => destruct u
             end;
      cbn [app];
      (destruct Hr as [(Hrb & ->) | (e0 & Hrb & ->)];
       [try discriminate Hrb | try discriminate Hrb]);
      (split;
       [ first
           [ solve [right; left; split; [reflexivity|];
                    split; [reflexivity|]; eauto]
           | solve [right; right; left; eexists _, _;
                    split; [reflexivity|];
                    split; [first [left; reflexivity | right; assumption]|];
                    eauto]
           | solve [right; right; right; eexists;
                    split; [reflexivity|];
                    first [left; reflexivity | right; assumption]] ]
       | intros Hok; try discriminate Hok;
         first
           [ solve [eexists _, _, _, _; split; [|eassumption];
                    simpl; auto 10]
           | match goal with
             | Hres : (exists e, _ = Throw e) \/ _ |- _ =>
                 destruct Hres as [(e1 & He1) | (_ & Hin & w0 & w1 & Hx)];
                 [ first [discriminate He1 | inversion Hrb; subst;
                                              discriminate He1]
                 | eexists _, _, w0, w1; split; [|exact Hx];
                   simpl; auto 10 ]
             end ] ]).
  - apply clone_trace in Hb. destruct Hb as (Hc & Hne & Hres).
    split; [left; exists lb; split; [reflexivity | exact Hc]|].
    intros Hok.
    destruct Hr as [(-> & _) | (e & _ & He)];
      [|rewrite He in Hok; discriminate Hok].
    destruct Hres as [(e & He) | (_ & Hin & w0 & w1 & Hx)];
      [discriminate He|].
    eexists _, _, w0, w1. split; [|exact Hx]. right. exact Hin.
Qed.

(** X11.  [cloneOrPull] checks before it acts: a repository string that
    [parseRepository] refuses is answered with that refusal, and a valid
    one with [AGENT_WORKSPACE is not configured] when no workspace root is
    set, in this order and without a single call to the file system or to
    [git].  In every other case its first call is the look at the
    directory of the repository. *)
Theorem cloneOrPull_validates_first repository w :
  let x := cloneOrPull E cfg repository w in
  (forall e, outcome (parseRepository repository w) = Throw e ->
             outcome x = Throw e /\ calls x = [])
  /\ (forall parsed,
         outcome (parseRepository repository w) = Ok parsed ->
         AGENT_WORKSPACE cfg = None ->
         outcome x = Throw not_configured /\ calls x = [])
  /\ (calls x <> [] ->
      exists owner repo root rest,
        outcome (parseRepository repository w) = Ok (owner, repo)
        /\ AGENT_WORKSPACE cfg = Some root
        /\ calls x
           = Stat (node_path_join cfg [root; REPOS_SUBDIR; owner; repo])
               :: rest).
Proof.
  intros x. subst x. split; [|split].
  - intros e He. unfold cloneOrPull, bind.
    destruct (parseRepository repository w) as [[rp w1] l1] eqn:Hp.
    unfold outcome in He. cbn [fst] in He. subst rp.
    apply parseRepository_pure in Hp. destruct Hp as (-> & -> & _).
    split; reflexivity.
  - intros parsed Hok Hnone. unfold cloneOrPull, bind.
    destruct (parseRepository repository w) as [[rp w1] l1] eqn:Hp.
    unfold outcome in Hok. cbn [fst] in Hok. subst rp.
    apply parseRepository_pure in Hp. destruct Hp as (-> & -> & _).
    destruct parsed as [owner repo].
    unfold getRepoPath. rewrite Hnone. split; reflexivity.
  - intros Hne.
    destruct (cloneOrPull E cfg repository w) as [[r w'] l] eqn:H.
    unfold calls in *. cbn [snd] in *.
    apply cloneOrPull_trace in H.
    destruct H as [(-> & _) | H]; [exfalso; apply Hne; reflexivity|].
    destruct H as (owner & repo & root & Hp & Hroot & _ & H).
    cbv zeta in H. destruct H as (_ & H & _).
    exists owner, repo, root. rewrite Hp.
    destruct H as [(lc & -> & _) | [(-> & _) | [(e & lc & -> & _)
                                               | (lc & -> & _)]]];
      eexists; (split; [reflexivity|]); (split; [exact Hroot|]); reflexivity.
Qed.

(** X12.  [cloneOrPull] removes at most one path, the directory of the
    repository under the workspace root, and only after it has looked at
    it and at its [.git]; after the removal it does nothing but clone
    into that directory.  Unless what is there has been logged as not
    being a git repository, the removal needs a [git fetch] in that
    directory that throws: where [git fetch] there throws in no state,
    only such a logged directory is removed. *)
Theorem cloneOrPull_removal repository w p :
  let x := cloneOrPull E cfg repository w in
  In (Rm p) (calls x) ->
  exists owner repo root,
    outcome (parseRepository repository w) = Ok (owner, repo)
    /\ AGENT_WORKSPACE cfg = Some root
    /\ p = node_path_join cfg [root; REPOS_SUBDIR; owner; repo]
    /\ count is_Rm (calls x) = 1
    /\ (exists before after,
           calls x = Stat p :: Stat (node_path_join cfg [p; #".git"])
                       :: before ++ Rm p :: after
           /\ (after = []
               \/ clone_calls cfg (cloneUrl_of cfg owner repo) p repository
                              after))
    /\ ((exists e w0 w1,
            execAsync E fetch_command {| cwd := Some p; timeout := None |} w0
            = (Throw e, w1))
        \/ In (Log (#"[git.service] Directory exists but not a git repo, removing: "
                      ++ p)) (calls x)).
Proof.
  intros x. subst x.
  destruct (cloneOrPull E cfg repository w) as [[r w'] l] eqn:H.
  unfold calls. cbn [snd]. intros Hin.
  apply cloneOrPull_trace in H.
  destruct H as [(-> & _) | H]; [destruct Hin|].
  destruct H as (owner & repo & root & Hp & Hroot & _ & H).
  cbv zeta in H. destruct H as (_ & H & _).
  exists owner, repo, root. rewrite Hp.
  set (q := node_path_join cfg [root; REPOS_SUBDIR; owner; repo]) in *.
  assert (forall lc, clone_calls cfg (cloneUrl_of cfg owner repo) q repository lc ->
                     count is_Rm lc = 0 /\ ~ In (Rm p) lc) as Hclone.
  { unfold clone_calls. intros lc [-> | [-> | ->]]; split; try reflexivity;
      simpl; intros Hf;
      repeat match goal with
             | H : _ \/ _ |- _ => destruct H
             | H : False |- _ => destruct H
             | H : _ = Rm _ |- _ => discriminate H
             end. }
  assert (forall lc, lc = [] \/ clone_calls cfg (cloneUrl_of cfg owner repo)
                                            q repository lc ->
                     count is_Rm lc = 0 /\ ~ In (Rm p) lc) as Hrest.
  { intros lc [-> | Hc]; [split; [reflexivity | intros []]|].
    apply Hclone. exact Hc. }
  destruct H as [(lc & -> & Hc) | [(-> & _) | [(e & lc & -> & Hc & Hx)
                                              | (lc & -> & Hc)]]].
  - exfalso. destruct (Hclone lc Hc) as [_ Hn].
    destruct Hin as [Hin | Hin]; [discriminate Hin | exact (Hn Hin)].
  - exfalso. simpl in Hin.
    repeat match goal with
           | H : _ \/ _ |- _ => destruct H
           | H : False |- _ => destruct H
           | H : _ = Rm _ |- _ => discriminate H
           end.
  - destruct (Hrest lc Hc) as [Hcount Hn].
    assert (p = q) as ->.
    { cbn [app] in Hin.
      repeat (destruct Hin as [Hin | Hin];
              [first [discriminate Hin | inversion Hin; reflexivity]|]).
      exfalso. exact (Hn Hin). }
    split; [reflexivity|]. split; [exact Hroot|]. split; [reflexivity|].
    split.
    { cbn [app]. rewrite !count_cons, Hcount. reflexivity. }
    split; [|left; destruct Hx as (w0 & w1 & Hx); eauto].
    eexists [_; _; _], lc. split; [reflexivity | exact Hc].
  - destruct (Hrest lc Hc) as [Hcount Hn].
    assert (p = q) as ->.
    { cbn [app] in Hin.
      repeat (destruct Hin as [Hin | Hin];
              [first [discriminate Hin | inversion Hin; reflexivity]|]).
      exfalso. exact (Hn Hin). }
    split; [reflexivity|]. split; [exact Hroot|]. split; [reflexivity|].
    split.
    { cbn [app]. rewrite !count_cons, Hcount. reflexivity. }
    split; [|right; simpl; auto].
    eexists [_], lc. split; [reflexivity | exact Hc].
Qed.

(** X13.  When [cloneOrPull] returns, what it returns is the path of the
    repository relative to the workspace, [repos/<owner>/<repo>] as
    [path.join] renders it, whichever route was taken, and among its
    calls is a [git] command that the shell runs without error in some
    state: where none of the commands ever succeeds, [cloneOrPull] does
    not return, it throws. *)
Theorem cloneOrPull_result repository w res :
  let x := cloneOrPull E cfg repository w in
  outcome x = Ok res ->
  exists owner repo,
    outcome (parseRepository repository w) = Ok (owner, repo)
    /\ res = node_path_join cfg [REPOS_SUBDIR; owner; repo]
    /\ exists c o w0 w1,
        In (ExecAsync c o) (calls x) /\ execAsync E c o w0 = (Ok tt, w1).
Proof.
  intros x. subst x.
  destruct (cloneOrPull E cfg repository w) as [[r w'] l] eqn:H.
  unfold calls, outcome. cbn [fst snd]. intros ->.
  apply cloneOrPull_trace in H.
  destruct H as [(_ & [H | H]) | H]; try discriminate H.
  destruct H as (owner & repo & root & Hp & _ & _ & H).
  cbv zeta in H. destruct H as (Hr & _ & Hok).
  exists owner, repo. rewrite Hp. split; [reflexivity|].
  destruct Hr as [Hr | (e & He)]; [|discriminate He].
  inversion Hr as [Hres]. split; [reflexivity|].
  apply Hok. rewrite Hres. reflexivity.
Qed.

End Workspace.

Lemma match_needs_host (s : jsstring) (n : nat) :
  match_length s = Some n -> includes s #"@github.com" = true.
Proof.
  intros H. apply GitServiceFacts.match_length_some in H.
  destruct H as (r & rest & -> & _).
  apply JsFacts.includes_spec. exists (#"https://" ++ r), rest.
  rewrite <- app_assoc. reflexivity.
Qed.

(** X14.  The redaction changes nothing else: a message that does not
    contain [@github.com] comes out of it as it went in. *)
Theorem sanitize_leaves_other_messages (message : jsstring) :
  includes message #"@github.com" = false -> sanitize message = message.
Proof.
  unfold sanitize. induction message as [|c s IH]; intros H; [reflexivity|].
  cbn [replace_go].
  destruct (match_length (c :: s)) as [n|] eqn:Hm.
  - apply match_needs_host in Hm. rewrite Hm in H. discriminate H.
  - rewrite IH; [reflexivity|].
    apply (JsFacts.includes_false_app s #"@github.com" [c]). exact H.
Qed.

Lemma sanitize_leaves_other_messages_witness :
  sanitize #"fatal: unable to access: Could not resolve host"
  = #"fatal: unable to access: Could not resolve host".
Proof.
  apply sanitize_leaves_other_messages. reflexivity.
Defined.

Lemma cloneOrPull_removal_witness :
  count is_Rm (calls (cloneOrPull stale_repo (node None) #"octo/app" tt)) = 1.
Proof.
  destruct (cloneOrPull_removal stale_repo (node None) #"octo/app" tt
              #"/srv/workspace/repos/octo/app")
    as (owner & repo & root & _ & _ & _ & Hcount & _).
  - vm_compute. repeat first [left; reflexivity | right].
  - exact Hcount.
Defined.

Lemma cloneOrPull_result_witness :
  exists c o w0 w1,
    In (ExecAsync c o) (calls (cloneOrPull stale_repo (node None) #"octo/app" tt))
    /\ execAsync stale_repo c o w0 = (Ok tt, w1).
Proof.
  destruct (cloneOrPull_result stale_repo (node None) #"octo/app" tt
              #"repos/octo/app" eq_refl)
    as (owner & repo & _ & _ & H).
  exact H.
Defined.

End GitWorkspaceFacts.

(* ================================================================== *)
(** * Facts: trimming strings *)
(* ================================================================== *)

Module JsTrimFacts.

Lemma trimStart_idem (s : jsstring) : trimStart (trimStart s) = trimStart s.
Proof.
  induction s as [|c s IH]; [reflexivity|]. simpl.
  destruct (isWhiteSpace c) eqn:Hc; [exact IH|]. simpl. rewrite Hc.
  reflexivity.
Qed.

Lemma trimStart_head (s : jsstring) :
  trimStart s = []
  \/ exists c t, trimStart s = c :: t /\ isWhiteSpace c = false.
Proof.
  induction s as [|c s IH]; [left; reflexivity|]. simpl.
  destruct (isWhiteSpace c) eqn:Hc; [exact IH|]. right. eauto.
Qed.

Lemma trimEnd_cons_keep (c : N) (t : jsstring) :
  isWhiteSpace c = false -> exists t', trimEnd (c :: t) = c :: t'.
Proof.
  intros Hc. unfold trimEnd. simpl.
  destruct (JsFacts.trimStart_app_keep (rev t) [] c Hc) as [u Hu].
  rewrite Hu, rev_app_distr. simpl. eauto.
Qed.

Lemma trimEnd_idem (s : jsstring) : trimEnd (trimEnd s) = trimEnd s.
Proof.
  unfold trimEnd. rewrite rev_involutive, trimStart_idem. reflexivity.
Qed.

(** Trimming what is trimmed changes nothing. *)
Lemma trim_idem (s : jsstring) : trim (trim s) = trim s.
Proof.
  unfold trim.
  assert (trimStart (trimEnd (trimStart s)) = trimEnd (trimStart s)) as ->.
  { destruct (trimStart_head s) as [-> | (c & t & -> & Hc)]; [reflexivity|].
    destruct (trimEnd_cons_keep c t Hc) as [t' ->]. simpl. rewrite Hc.
    reflexivity. }
  apply trimEnd_idem.
Qed.

Lemma trimStart_In (x : N) (s : jsstring) : In x (trimStart s) -> In x s.
Proof.
  destruct (JsFacts.trimStart_suffix s) as [p Hp]. intros H.
  rewrite Hp. apply in_or_app. right. exact H.
Qed.

(** Trimming adds no unit. *)
Lemma trim_In (x : N) (s : jsstring) : In x (trim s) -> In x s.
Proof.
  unfold trim, trimEnd. intros H. apply in_rev in H.
  apply trimStart_In in H. apply in_rev in H. apply trimStart_In in H.
  exact H.
Qed.

End JsTrimFacts.

(* ================================================================== *)
(** * Facts: the terminal handler, from the upgrade to the bridge *)
(* ================================================================== *)

Module TerminalHandlerFacts.
Import TerminalProxy.
Import TerminalProxyFacts.

Section Handler.
Context {W : Type}.
Variable E : @Env W.
Variable cfg : Config.

Ltac closes_last :=
  first [ eexists [_; _; _; _]; split; [reflexivity|]; split; reflexivity
        | eexists [_; _; _; _; _]; split; [reflexivity|]; split; reflexivity
        | eexists [_; _; _; _; _; _]; split; [reflexivity|];
          split; reflexivity
        | eexists [_; _; _; _; _; _; _]; split; [reflexivity|];
          split; reflexivity
        | eexists [_; _; _; _; _; _; _; _]; split; [reflexivity|];
          split; reflexivity ].

Ltac reach :=
  split;
  [ split;
    [ | first [ eassumption
              | eexists; split; [reflexivity|]; split; [reflexivity|];
                eassumption ] ];
    reflexivity
  | split;
    [ split; [ | eassumption ]; reflexivity
    | split; [reflexivity|]; split; [reflexivity|]; split; [reflexivity|];
      split;
      [ first [ eexists [_; _; _; _; _; _]; reflexivity
              | eexists [_; _; _; _; _; _; _]; reflexivity ]
      | eassumption ] ] ].

(** The handler, step by step: it gives up at the authentication or at
    the access check, each time with a [close] as its last call, or a
    collaborator throws, or it goes on to the connection. *)
Lemma terminal_handler_trace sessionId cookie proto w r w' l :
  terminal_handler E cfg sessionId cookie proto w = (r, w', l) ->
  (count is_upstream_attempt l = 0
   /\ ((exists before,
           l = before ++ [Close 1008 #"Unauthorized"]
           /\ count is_Close before = 0 /\ r = Ok None)
       \/ (exists before,
              l = before
                  ++ [Close 1008
                        #"Session not found, not running, or access denied"]
              /\ count is_Close before = 0 /\ r = Ok None)
       \/ (count is_Close l = 0 /\ exists e, r = Throw e)))
  \/ exists userId wa name before w1 lt,
      authenticated E cfg cookie w userId wa
      /\ granted E sessionId userId wa name w1
      /\ l = before ++ lt
      /\ count is_Close before = 0 /\ count is_upstream_attempt before = 0
      /\ (exists b0, before = b0 ++ [OnMessage_bufferClientMessage])
      /\ try_catch
           (upstream <- connectToContainerWs E cfg name (TTYD_PORT cfg)
                                             (forwarded_protocols proto) ;;
            log #"info" #"[proxy] upstream connected" ;;;
            ret (Some upstream))
           (fun _ =>
              log #"error" #"[proxy] failed to connect to container" ;;;
              close E 1011 #"Could not connect to terminal" ;;;
              ret None) w1 = (r, w', lt).
Proof.
  unfold terminal_handler. intros H.
  change (match proto with
          | Some h => map trim (split h 44)
          | None => [#"tty"]
          end) with (forwarded_protocols proto) in H.
  unfold log at 1 2 3 4 5 6 7, close at 1 2, getAdminUserId,
    getUserIdFromCookies, resolveTerminalAccess in H.
  unfold authenticated, granted.
  repeat match goal with
         | H : bind _ _ _ = (_, _, _) |- _ =>
             apply bind_inv in H;
             destruct H as [(? & ? & ? & ? & ? & H & ?) | (? & H & ?)]; subst
         | H : perform _ _ _ = (_, _, _) |- _ =>
             apply perform_inv in H; destruct H as [H ?]; subst
         | H : ret _ _ = (_, _, _) |- _ =>
             apply ret_inv in H; destruct H as (? & ? & ?); subst
         | H : (_, _) = (_, _) |- _ => inversion H; clear H; subst
         | H : Ok _ = Throw _ |- _ => discriminate H
         | H : (if ?b then _ else _) _ = (_, _, _) |- _ => destruct b eqn:?
         | H : (match ?x with _ => _ end) _ = (_, _, _) |- _ => destruct x eqn:?
         end.
  all: repeat match goal with
              | H : negb (truthy_opt ?x) = _ |- _ =>
                  is_var x; destruct x as [[|? ?]|]; cbn in H;
                  try discriminate H; clear H
              | H : negb (truthy_opt (match ?x with _ => _ end)) = _ |- _ =>
                  is_var x; destruct x as [[[|? ?]|]|]; cbn in H;
                  try discriminate H; clear H
              | H : negb (truthy ?x) = _ |- _ =>
                  is_var x; destruct x as [|? ?]; cbn in H;
                  try discriminate H; clear H
              end.
  all: repeat match goal with
              | H : Ok _ = Ok (match ?x with _ => _ end) |- _ =>
                  destruct x as [[?|]|]; inversion H; subst; clear H
              end.
  all: try match goal with
           | H : Ok _ = Ok _ |- _ => discriminate H
           end.
  all: cbn [app].
  all: first
         [ left; split; [reflexivity|];
           first [ left; closes_last
                 | right; left; closes_last
                 | right; right; split; [reflexivity | eexists; reflexivity] ]
         | right;
           first [ eexists _, _, _, [_; _; _; _; _; _; _], _, _; reach
                 | eexists _, _, _, [_; _; _; _; _; _; _; _], _, _; reach ] ].
Qed.

Lemma count_zero_In (p : Call -> bool) (l : list Call) (c : Call) :
  count p l = 0 -> In c l -> p c = false.
Proof.
  induction l as [|x l IH]; intros H Hin; [destruct Hin|].
  rewrite count_cons in H. destruct Hin as [-> | Hin].
  - destruct (p c); [discriminate H | reflexivity].
  - apply IH; [|exact Hin]. destruct (p x); [discriminate H | exact H].
Qed.

(** What the connection loop asks of the network. *)
Lemma upstream_attempt_forms name port protocols c :
  is_upstream_attempt c = true ->
  (forall l, attempt_calls cfg name port protocols l -> In c l ->
             c = direct_attempt cfg name port protocols
             \/ c = CreateDockerExecBridge name port
             \/ exists p, c = loopback_attempt cfg protocols p)
  /\ (forall d ports,
         In c (failed_attempts cfg name port protocols d ports) ->
         c = direct_attempt cfg name port protocols
         \/ c = CreateDockerExecBridge name port
         \/ exists p, c = loopback_attempt cfg protocols p).
Proof.
  intros Hc.
  assert (forall p, In c (failed_attempt cfg name port protocols p) ->
                    c = direct_attempt cfg name port protocols
                    \/ c = CreateDockerExecBridge name port
                    \/ exists p, c = loopback_attempt cfg protocols p) as Hf.
  { intros p Hin. unfold failed_attempt in Hin. simpl in Hin.
    destruct Hin as [<- | [<- | [<- | [<- | []]]]]; eauto.
    discriminate Hc. }
  split.
  - intros l Hl Hin. unfold attempt_calls in Hl.
    destruct Hl as [-> | [-> | [[p ->] | [p ->]]]];
      try (apply (Hf p); exact Hin); simpl in Hin;
      repeat match goal with
             | H : _ \/ _ |- _ => destruct H as [<- | H]
             | H : False |- _ => destruct H
             end; eauto.
  - intros d ports Hin. unfold failed_attempts in Hin.
    apply in_flat_map in Hin. destruct Hin as (p & _ & Hin).
    apply in_app_or in Hin. destruct Hin as [Hin | Hin]; [exact (Hf p Hin)|].
    destruct Hin as [<- | []]. discriminate Hc.
Qed.

(** X15.  The handler reaches out to the container only for a user it
    has authenticated and a running session that the access check has
    returned for that user: the user is the one that the lookup of the
    first admin (when authentication is disabled) or of the session of
    the cookie returned at the start of the handler, and the container
    is the one that the lookup of the running session returned for that
    user right after.  Every direct connection the handler opens goes to
    [ws://<name>:<TTYD_PORT>/ws] for that container name, with a timer of
    1500 ms, every tunnel is for that container, and the subprotocols it
    offers are those of the client's header, split at the commas and
    trimmed, or [tty] when there is no header.  By then the listener that
    buffers the client's messages has been installed. *)
Theorem upstream_after_access_only sessionId cookie proto w c :
  let h := terminal_handler E cfg sessionId cookie proto w in
  In c (calls h) -> is_upstream_attempt c = true ->
  exists userId w1 name w2,
    authenticated E cfg cookie w userId w1
    /\ granted E sessionId userId w1 name w2
    /\ (c = OpenDirect (direct_url cfg name (TTYD_PORT cfg))
                       (forwarded_protocols proto) 1500
        \/ c = CreateDockerExecBridge name (TTYD_PORT cfg)
        \/ exists port,
            c = OpenLoopback (loopback_url cfg port)
                             (forwarded_protocols proto))
    /\ exists before after,
        calls h = before ++ OnMessage_bufferClientMessage :: after
        /\ count is_upstream_attempt before = 0 /\ In c after.
Proof.
  intros h. subst h.
  destruct (terminal_handler E cfg sessionId cookie proto w)
    as [[r w'] l] eqn:H.
  unfold calls. cbn [snd]. intros Hin Hc.
  apply terminal_handler_trace in H.
  destruct H as [(H0 & _) | H].
  { rewrite (count_zero_In _ _ _ H0 Hin) in Hc. discriminate Hc. }
  destruct H as (userId & wa & name & before & w1 & lt & Hauth & Hgr & -> & _
                        & Hb & (b0 & ->) & H).
  exists userId, wa, name, w1. split; [exact Hauth|]. split; [exact Hgr|].
  assert (In c lt) as Hlt.
  { apply in_app_or in Hin. destruct Hin as [Hin | Hin]; [|exact Hin].
    rewrite (count_zero_In _ _ _ Hb Hin) in Hc. discriminate Hc. }
  split.
  - apply connect_or_close in H. destruct H as (rc & w2 & lc & Hconn & H).
    assert (In c lc) as Hlc.
    { destruct rc as [ups|e]; destruct H as [-> _];
        apply in_app_or in Hlt; destruct Hlt as [Hlt | Hlt]; try exact Hlt;
        simpl in Hlt;
        repeat match goal with
               | H : _ \/ _ |- _ => destruct H as [<- | H]
               | H : False |- _ => destruct H
               end; discriminate Hc. }
    unfold connectToContainerWs, connectToContainerWs_with in Hconn.
    apply connectLoop_spec in Hconn; [| reflexivity | lia].
    destruct Hconn as (ports & last & _ & -> & Hlast & _).
    destruct (upstream_attempt_forms name (TTYD_PORT cfg)
                (forwarded_protocols proto) c Hc) as [Ha Hf].
    apply in_app_or in Hlc. destruct Hlc as [Hlc | Hlc].
    + exact (Hf _ _ Hlc).
    + exact (Ha _ Hlast Hlc).
  - exists b0, lt. rewrite <- app_assoc. split; [reflexivity|].
    split; [|exact Hlt].
    rewrite count_app in Hb. lia.
Qed.

(** X16.  The handler closes the client socket at most once, as the last
    thing it does, and in no other way than with 1008 [Unauthorized],
    with 1008 [Session not found, not running, or access denied], or with
    1011 [Could not connect to terminal].  It returns without an upstream
    socket exactly when it has closed the client socket; when it hands
    over an upstream socket, or when a collaborator throws, it has closed
    nothing. *)
Theorem handler_closes_once sessionId cookie proto w :
  let h := terminal_handler E cfg sessionId cookie proto w in
  count is_Close (calls h) <= 1
  /\ (forall code reason,
         In (Close code reason) (calls h) ->
         handler_close code reason
         /\ outcome h = Ok None
         /\ exists before, calls h = before ++ [Close code reason])
  /\ (outcome h = Ok None -> count is_Close (calls h) = 1).
Proof.
  intros h. subst h.
  destruct (terminal_handler E cfg sessionId cookie proto w)
    as [[r w'] l] eqn:H.
  unfold calls, outcome. cbn [fst snd].
  apply terminal_handler_trace in H.
  assert (forall before code reason code' reason',
             count is_Close before = 0 ->
             In (Close code' reason') (before ++ [Close code reason]) ->
             code' = code /\ reason' = reason) as Hlast.
  { intros before code reason code' reason' Hb Hin.
    apply in_app_or in Hin. destruct Hin as [Hin | [Hin | []]].
    - pose proof (count_zero_In _ _ _ Hb Hin) as F. discriminate F.
    - inversion Hin. auto. }
  unfold handler_close.
  destruct H as [(_ & [H | [H | H]]) | H].
  - destruct H as (before & -> & Hb & ->).
    rewrite count_app, Hb. unfold count at 1 2. cbn [filter is_Close length].
    split; [lia|]. split; [|reflexivity].
    intros code reason Hin.
    destruct (Hlast _ _ _ _ _ Hb Hin) as [-> ->].
    split; [auto|]. split; [reflexivity | eauto].
  - destruct H as (before & -> & Hb & ->).
    rewrite count_app, Hb. unfold count at 1 2. cbn [filter is_Close length].
    split; [lia|]. split; [|reflexivity].
    intros code reason Hin.
    destruct (Hlast _ _ _ _ _ Hb Hin) as [-> ->].
    split; [auto|]. split; [reflexivity | eauto].
  - destruct H as (H0 & e & ->). rewrite H0. split; [lia|]. split.
    + intros code reason Hin.
      pose proof (count_zero_In _ _ _ H0 Hin) as F. discriminate F.
    + intros F. discriminate F.
  - destruct H as (userId & wa & name & before & w1 & lt & _ & _ & -> & Hb
                          & _ & _ & H).
    apply connect_or_close in H. destruct H as (rc & w2 & lc & Hconn & H).
    pose proof (connect_no_close E cfg name (TTYD_PORT cfg)
                                 (forwarded_protocols proto) w1) as Hn.
    rewrite Hconn in Hn. unfold calls in Hn. cbn [snd] in Hn.
    destruct rc as [ups|e]; destruct H as [-> ->].
    + assert (count is_Close
                (before ++ lc ++ [Log #"info" #"[proxy] upstream connected"])
              = 0) as H0.
      { rewrite !count_app, Hb, Hn. reflexivity. }
      rewrite H0. split; [lia|]. split.
      * intros code reason Hin.
        pose proof (count_zero_In _ _ _ H0 Hin) as F. discriminate F.
      * intros F. discriminate F.
    + change (lc ++ [Log #"error" #"[proxy] failed to connect to container";
                     Close 1011 #"Could not connect to terminal"])
        with (lc ++ [Log #"error" #"[proxy] failed to connect to container"]
                 ++ [Close 1011 #"Could not connect to terminal"]).
      rewrite !app_assoc.
      assert (count is_Close
                ((before ++ lc)
                   ++ [Log #"error" #"[proxy] failed to connect to container"])
              = 0) as H0.
      { rewrite !count_app, Hb, Hn. reflexivity. }
      rewrite count_app, H0. unfold count at 1 2.
      cbn [filter is_Close length]. split; [lia|]. split; [|reflexivity].
      intros code reason Hin.
      destruct (Hlast _ _ _ _ _ H0 Hin) as [-> ->].
      split; [auto|]. split; [reflexivity | eauto].
Qed.

End Handler.

(** Splitting what was joined gives the pieces back. *)
Lemma split_join_pieces (c : N) (xs : list jsstring) :
  xs <> [] -> Forall (fun p => ~ In c p) xs -> split (join [c] xs) c = xs.
Proof.
  intros Hne Hall. induction Hall as [|x xs Hx Hall IH]; [contradiction|].
  destruct xs as [|y rest].
  - simpl. unfold split. rewrite JsSplitFacts.split_go_no_sep by exact Hx.
    reflexivity.
  - change (join [c] (x :: y :: rest)) with (x ++ c :: join [c] (y :: rest)).
    unfold split in *. rewrite JsSplitFacts.split_go_app by exact Hx.
    rewrite IH by discriminate. reflexivity.
Qed.

Lemma map_trimmed (xs : list jsstring) :
  Forall (fun p => trim p = p) xs -> map trim xs = xs.
Proof.
  induction 1 as [|x xs Hx _ IH]; [reflexivity|]. simpl.
  rewrite Hx, IH. reflexivity.
Qed.


Lemma upstream_after_access_only_witness :
  exists userId w1 name w2,
    authenticated reachable proxy_config (Some #"session=abc") 0%nat userId w1
    /\ granted reachable #"s1" userId w1 name w2.
Proof.
  destruct (upstream_after_access_only reachable proxy_config #"s1"
              (Some #"session=abc") None 0%nat
              (OpenDirect #"ws://oc-sess-s1:7681/ws" [#"tty"] 1500))
    as (userId & w1 & name & w2 & Ha & Hg & _).
  - vm_compute. repeat first [left; reflexivity | right].
  - reflexivity.
  - exists userId, w1, name, w2. split; assumption.
Defined.

End TerminalHandlerFacts.

(* ================================================================== *)
(** * Facts: the reconnecting effect of the hooks *)
(* ================================================================== *)

Module ReconnectEffectFacts.
Import ReconnectEffect.

Local Open Scope Z_scope.

Lemma run_app (a b : list Event) : run (a ++ b) = fold_left step b (run a).
Proof. unfold run. apply fold_left_app. Qed.

(** X18.  The delay between reconnections stays between one second and
    thirty: whatever the browser does to the effect, the delay it holds
    and every delay it has ever handed to [setTimeout] are at least 1000
    and at most 30000 ms. *)
Theorem retry_delay_bounds (evs : list Event) :
  1000 <= retryDelay (run evs) <= MAX_RETRY_DELAY_MS
  /\ Forall (fun d => 1000 <= d <= MAX_RETRY_DELAY_MS) (delays (run evs)).
Proof.
  unfold run.
  assert (1000 <= retryDelay mounted <= MAX_RETRY_DELAY_MS
          /\ Forall (fun d => 1000 <= d <= MAX_RETRY_DELAY_MS)
                    (delays mounted)) as Hinit.
  { unfold MAX_RETRY_DELAY_MS. simpl. split; [lia | constructor]. }
  revert Hinit. generalize mounted as s.
  induction evs as [|ev evs IH]; intros s Hs; [exact Hs|].
  simpl. apply IH. destruct Hs as [Hd Hall].
  unfold MAX_RETRY_DELAY_MS in *.
  destruct ev as [| |id|]; simpl.
  - split; [lia | exact Hall].
  - unfold on_close. destruct (closed s); simpl; [auto|].
    split; [exact Hd|]. apply Forall_app. split; [exact Hall|].
    constructor; [exact Hd | constructor].
  - destruct (existsb (Nat.eqb id) (pending s)); [|auto].
    unfold on_timeout, connect, MAX_RETRY_DELAY_MS. simpl.
    destruct (closed s); simpl; (split; [lia | exact Hall]).
  - auto.
Qed.

(** Once cleaned up, the effect stays as it is, but for the delay it
    holds and the timers that run out. *)
Lemma closed_is_final (evs : list Event) :
  forall s, closed s = true ->
            closed (fold_left step evs s) = true
            /\ sockets (fold_left step evs s) = sockets s
            /\ delays (fold_left step evs s) = delays s.
Proof.
  induction evs as [|ev evs IH]; intros s Hs; [auto|].
  simpl.
  assert (closed (step s ev) = true /\ sockets (step s ev) = sockets s
          /\ delays (step s ev) = delays s) as (H1 & H2 & H3).
  { destruct ev as [| |id|]; simpl.
    - auto.
    - unfold on_close. rewrite Hs. auto.
    - destruct (existsb (Nat.eqb id) (pending s)); [|auto].
      unfold on_timeout, connect. simpl. rewrite Hs. simpl. auto.
    - auto. }
  destruct (IH _ H1) as (H4 & H5 & H6).
  rewrite H4, H5, H6, H2, H3. auto.
Qed.

(** X19.  The cleanup of the effect is final: whatever happens after it,
    sockets that close late or timers that were set and still run out,
    the effect creates no further WebSocket and sets no further timer. *)
Theorem nothing_after_cleanup (before after : list Event) :
  let s := run (before ++ cleanup :: after) in
  closed s = true
  /\ sockets s = sockets (run before)
  /\ delays s = delays (run before).
Proof.
  intros s. subst s. rewrite run_app. simpl.
  apply (closed_is_final after (on_cleanup (run before))). reflexivity.
Qed.

Lemma failures_S (n : nat) :
  failures (S n) = failures n ++ [onclose; timeout (S n)].
Proof.
  unfold failures. rewrite seq_S, flat_map_app. simpl. reflexivity.
Qed.

Lemma backoff_S (i : nat) :
  Z.min (backoff i * 2) MAX_RETRY_DELAY_MS = backoff (S i).
Proof.
  unfold backoff, MAX_RETRY_DELAY_MS.
  rewrite Nat2Z.inj_succ, Z.pow_succ_r by lia.
  assert (0 < 2 ^ Z.of_nat i) by (apply Z.pow_pos_nonneg; lia).
  lia.
Qed.

(** The state after [n] failures in a row. *)
Lemma run_failures (n : nat) :
  run (failures n)
  = {| closed := false;
       retryTimer := match n with O => None | S k => Some n end;
       retryDelay := backoff n;
       sockets := S n;
       pending := [];
       delays := map backoff (seq 0 n) |}.
Proof.
  induction n as [|n IH]; [reflexivity|].
  rewrite failures_S, run_app, IH. cbn [fold_left step on_close closed].
  cbn [delays retryDelay pending sockets retryTimer].
  rewrite length_map, length_seq. cbn [app existsb].
  rewrite Nat.eqb_refl. cbn [orb remove_timer]. rewrite Nat.eqb_refl.
  unfold on_timeout, connect.
  cbn [closed delays retryDelay pending sockets retryTimer].
  rewrite backoff_S, seq_S, map_app. reflexivity.
Qed.

(** X20.  The effect backs off exponentially: when its connections fail
    one after the other, the wait before the reconnection that follows
    the [i]-th failure is 1000 ms doubled [i] times and capped at 30000
    ms (1, 2, 4, 8, 16 and then 30 seconds), and each failure is followed
    by exactly one new WebSocket.  A connection that opens resets the
    wait: the failure after it is followed by a wait of 1000 ms again. *)
Theorem exponential_backoff (n : nat) :
  delays (run (failures n)) = map backoff (seq 0 n)
  /\ sockets (run (failures n)) = S n
  /\ delays (run (failures n ++ [onopen; onclose]))
     = map backoff (seq 0 n) ++ [1000].
Proof.
  rewrite run_app, run_failures. repeat split.
Qed.

End ReconnectEffectFacts.
